(** * elora: LoRa PHY timing and the packet outcome tracker

    A shallow embedding of

    - [LoraPhy::GetTSym] and [LoraPhy::GetOnAirTime] (model/lora-phy.cc),
    - [LoraPacketTracker] (helper/lora-packet-tracker.cc),
    - [createBikeNumberMap] and [SaveWaypoints]
      (helper/bike-mobility-helper.cc),

    together with the properties the specification states about them.

    Conventions.
    - C++ integers are [Z]; unsigned 32-bit arithmetic is reduced with
      [wrap32] wherever the source computes in [uint32_t].
    - The finite values of a [double] are exact rationals ([Q]): the rounding
      of the floating-point operations is not modelled.  Where the source
      divides by a quantity that can be zero the result is a [dbl], which
      adds the IEEE values such a division produces.
    - [Time] is a signed count of nanoseconds, not reduced to 64 bits.
      [Seconds (double)] rounds to the nearest nanosecond and is not defined
      on an infinity or a NaN ([Seconds_double]).
    - [int] counters are not reduced: overflowing one takes 2^31 records.
    - [std::map] is a key-ordered association list ([StdMap]): iteration is in
      ascending key order and [insert] never replaces an existing entry.
    - [NS_LOG_*] has no effect on the state.  What the five PHY outcome
      callbacks send to the log component of the tracker is modelled beside
      their effect on the tracker ([record_outcome_log]); the log lines of
      the other functions are left out. *)

From Stdlib Require Import ZArith QArith Qround Qminmax Lia List Bool String.
From Stdlib Require Import Sorted DecimalString OrderedTypeEx Lqa.
Import ListNotations.

(** ** Machine integers *)

Definition wrap32 (z : Z) : Z := z mod 2 ^ 32.

(** Conversion of a [uint32_t] to [int] (two's complement). *)
Definition int_of_uint32 (z : Z) : Z := (z + 2 ^ 31) mod 2 ^ 32 - 2 ^ 31.

Definition is_uint8 (z : Z) : Prop := (0 <= z < 2 ^ 8)%Z.
Definition is_uint32 (z : Z) : Prop := (0 <= z < 2 ^ 32)%Z.

(** ** Packets

    A [Ptr<Packet>] is the address of the packet object together with what the
    code reads through it: its size in bytes, whether its [LorawanMacHeader]
    answers [IsUplink ()], and the spreading factor of its [LoraTag]. *)

Record Packet : Type := mkPacket {
  pkt_addr : Z;
  GetSize : Z;
  mHdr_IsUplink : bool;
  tag_GetSpreadingFactor : Z
}.

(** ** Doubles that may be infinite or NaN *)

Inductive dbl : Type :=
| Fin (q : Q)
| PInf
| NInf
| NaN.

Definition Qlt_bool (x y : Q) : bool := negb (Qle_bool y x).

Definition ddiv (x y : Q) : dbl :=
  if Qeq_bool y 0 then
    if Qeq_bool x 0 then NaN else if Qlt_bool 0 x then PInf else NInf
  else Fin (x / y).

Definition dmul (d : dbl) (k : Q) : dbl :=
  match d with
  | Fin q => Fin (q * k)
  | PInf => if Qeq_bool k 0 then NaN else if Qlt_bool 0 k then PInf else NInf
  | NInf => if Qeq_bool k 0 then NaN else if Qlt_bool 0 k then NInf else PInf
  | NaN => NaN
  end.

(** [x + d] for a finite [x]. *)
Definition dadd (x : Q) (d : dbl) : dbl :=
  match d with
  | Fin q => Fin (x + q)
  | d' => d'
  end.

(** [std::ceil] *)
Definition dceil (d : dbl) : dbl :=
  match d with
  | Fin q => Fin (inject_Z (Qceiling q))
  | d' => d'
  end.

(** [a < b]: false as soon as one side is a NaN. *)
Definition dlt (a b : dbl) : bool :=
  match a, b with
  | NaN, _ | _, NaN => false
  | Fin x, Fin y => Qlt_bool x y
  | Fin _, PInf => true
  | Fin _, NInf => false
  | PInf, _ => false
  | NInf, NInf => false
  | NInf, _ => true
  end.

(** [std::max (a, b)], which is [(a < b) ? b : a]. *)
Definition std_max (a b : dbl) : dbl := if dlt a b then b else a.

Definition is_finite (d : dbl) : bool :=
  match d with Fin _ => true | _ => false end.

(** ** Simulator time

    [Time] and the functions on it belong to ns-3 (nstime.h, int64x64.h);
    they are modelled at the default resolution of one nanosecond. *)

(** [Time]: a count of nanoseconds. *)
Abbreviation Time := Z (only parsing).

Definition Time_Max : Time := (2 ^ 63 - 1)%Z.
Definition Seconds (s : Z) : Time := (s * 1000000000)%Z.
Definition MilliSeconds (ms : Z) : Time := (ms * 1000000)%Z.
Definition Time_GetSeconds (t : Time) : Q := inject_Z t / 1000000000.

(** [int64x64_t::Round]: to the nearest integer, a half going away from
    zero. *)
Definition Round (q : Q) : Z :=
  if Qlt_bool q 0 then Qceiling (q - (1 # 2)) else Qfloor (q + (1 # 2)).

(** [Seconds (double)].  ns-3 turns the double into a 64.64 fixed-point
    number, multiplies it by 10^9 and rounds the product to the [Time]; it
    defines no result for an infinity or a NaN, for which the answer is
    [None]. *)
Definition Seconds_double (x : dbl) : option Time :=
  match x with
  | Fin q => Some (Round (q * 1000000000))
  | _ => None
  end.

(** What a callback reads from the scheduler: [Simulator::Now ()] and
    [Simulator::GetContext ()]. *)
Record Simulator : Type := mkSim {
  Now : Time;
  GetContext : Z
}.

(** ** PHY timing model (model/lora-phy.cc) *)

Module LoraPhy.

(** Modelled from the spec: [struct LoraTxParameters] is declared in
    lora-phy.h; the fields are the ones lora-phy.cc reads.  [sf] and
    [codingRate] are 8-bit unsigned (they are streamed through
    [unsigned (...)]), [nPreamble] is an unsigned count, [bandwidthHz] a
    [double], the three flags are [bool]. *)
Record LoraTxParameters : Type := mkParams {
  sf : Z;
  headerDisabled : bool;
  codingRate : Z;
  bandwidthHz : Q;
  nPreamble : Z;
  crcEnabled : bool;
  lowDataRateOptimizationEnabled : bool
}.

Definition wf_params (p : LoraTxParameters) : Prop :=
  is_uint8 (sf p) /\ is_uint8 (codingRate p) /\ is_uint32 (nPreamble p).

Definition b2q (b : bool) : Q := if b then 1 else 0.
Definition b2z (b : bool) : Z := if b then 1%Z else 0%Z.

(** [Seconds (pow (2, int (txParams.sf)) / (txParams.bandwidthHz))] *)
Definition GetTSym (txParams : LoraTxParameters) : option Time :=
  Seconds_double (ddiv (inject_Z (2 ^ sf txParams)) (bandwidthHz txParams)).

(** [8 * pl - 4 * txParams.sf + 28]: [pl] is a [uint32_t], so by the usual
    arithmetic conversions the three operations are carried out in 32-bit
    unsigned arithmetic before the sum meets the first [double]. *)
Definition num_u32 (pl sf : Z) : Z :=
  wrap32 (wrap32 (wrap32 (8 * pl) - 4 * sf) + 28).

(** [num], [den] and [payloadSymbNb].  [den] is zero when [sf] is twice the
    low-data-rate flag, and the quotient is then an infinity or a NaN. *)
Definition payloadSymbNb (pl : Z) (txParams : LoraTxParameters) : dbl :=
  let de := b2q (lowDataRateOptimizationEnabled txParams) in
  let h := b2q (headerDisabled txParams) in
  let crc := b2q (crcEnabled txParams) in
  let num := inject_Z (num_u32 pl (sf txParams)) + 16 * crc - 20 * h in
  let den := 4 * (inject_Z (sf txParams) - 2 * de) in
  dadd 8
    (std_max (dmul (dceil (ddiv num den))
                (inject_Z (codingRate txParams + 4)))
       (Fin 0)).

(** [tSym] is read back from the [Time] that [GetTSym] returned, so it is a
    whole number of nanoseconds; the sum is rounded to a [Time] again. *)
Definition GetOnAirTime (packet : Packet) (txParams : LoraTxParameters)
  : option Time :=
  match GetTSym txParams with
  | None => None
  | Some t =>
      let tSym := Time_GetSeconds t in
      let tPreamble := (inject_Z (nPreamble txParams) + 4.25) * tSym in
      let pl := GetSize packet in
      let tPayload := dmul (payloadSymbNb pl txParams) tSym in
      Seconds_double (dadd tPreamble tPayload)
  end.

(** *** The values of the finite case

    The number of payload symbols when [den] is not zero, and the duration in
    seconds handed to [Seconds] when the symbol lasts [t] nanoseconds. *)
Definition payload_symbols (pl : Z) (txParams : LoraTxParameters) : Q :=
  let de := b2q (lowDataRateOptimizationEnabled txParams) in
  let h := b2q (headerDisabled txParams) in
  let crc := b2q (crcEnabled txParams) in
  let num := inject_Z (num_u32 pl (sf txParams)) + 16 * crc - 20 * h in
  let den := 4 * (inject_Z (sf txParams) - 2 * de) in
  8 + Qmax (inject_Z (Qceiling (num / den))
            * inject_Z (codingRate txParams + 4)) 0.

Definition air_seconds (t : Time) (packet : Packet)
    (txParams : LoraTxParameters) : Q :=
  (inject_Z (nPreamble txParams) + 4.25) * Time_GetSeconds t
  + payload_symbols (GetSize packet) txParams * Time_GetSeconds t.

(** *** The timing formula in the specification's words *)

Module Spec.

Definition SymbolDuration (sf : Z) (bandwidthHz : Q) : Q :=
  inject_Z (2 ^ sf) / bandwidthHz.

Definition numerator (payloadBytes sf : Z) (crcEnabled headerDisabled : bool)
  : Z :=
  8 * payloadBytes - 4 * sf + 28 + 16 * b2z crcEnabled
  - 20 * b2z headerDisabled.

Definition denominator (sf : Z) (lowDataRateOptimization : bool) : Z :=
  4 * (sf - 2 * b2z lowDataRateOptimization).

Definition payloadSymbolCount (payloadBytes sf codingRate : Z)
    (headerDisabled crcEnabled lowDataRateOptimization : bool) : Z :=
  8 + Z.max 0
        (Qceiling (inject_Z (numerator payloadBytes sf crcEnabled
                               headerDisabled)
                   / inject_Z (denominator sf lowDataRateOptimization))
         * (codingRate + 4)).

Definition OnAirTime (payloadBytes sf codingRate : Z) (bandwidthHz : Q)
    (preambleSymbols : Z)
    (headerDisabled crcEnabled lowDataRateOptimization : bool) : Q :=
  let symbolDuration := SymbolDuration sf bandwidthHz in
  let preambleTime := (inject_Z preambleSymbols + 4.25) * symbolDuration in
  let payloadTime :=
    inject_Z (payloadSymbolCount payloadBytes sf codingRate headerDisabled
                crcEnabled lowDataRateOptimization) * symbolDuration in
  preambleTime + payloadTime.

Definition OnAirTime_of (packet : Packet) (p : LoraTxParameters) : Q :=
  OnAirTime (GetSize packet) (sf p) (codingRate p) (bandwidthHz p)
    (nPreamble p) (headerDisabled p) (crcEnabled p)
    (lowDataRateOptimizationEnabled p).

End Spec.

End LoraPhy.

(** ** [std::map] with integer keys

    Entries are kept in ascending key order, which is the order a range-for
    over the map visits them.  [find] and [insert] descend by key comparison,
    as the tree does; [insert] leaves the map alone when the key is present. *)

Module StdMap.

Section WithValue.

Context {V : Type}.

Definition t : Type := list (Z * V).

Definition empty : t := [].

Definition keys (m : t) : list Z := map fst m.
Definition values (m : t) : list V := map snd m.

Fixpoint find (k : Z) (m : t) : option V :=
  match m with
  | [] => None
  | (k', v) :: m' =>
      if (k <? k')%Z then None
      else if (k =? k')%Z then Some v
      else find k m'
  end.

Fixpoint insert (k : Z) (v : V) (m : t) : t :=
  match m with
  | [] => [(k, v)]
  | (k', v') :: m' =>
      if (k <? k')%Z then (k, v) :: m
      else if (k =? k')%Z then m
      else (k', v') :: insert k v m'
  end.

(** Assignment through the iterator [find] returned:
    [it->second = f (it->second)]. *)
Fixpoint update (k : Z) (f : V -> V) (m : t) : t :=
  match m with
  | [] => []
  | (k', v) :: m' =>
      if (k <? k')%Z then m
      else if (k =? k')%Z then (k', f v) :: m'
      else (k', v) :: update k f m'
  end.

Definition count (k : Z) (m : t) : Z :=
  match find k m with Some _ => 1%Z | None => 0%Z end.

Definition size (m : t) : Z := Z.of_nat (List.length m).

Definition ascending (m : t) : Prop := StronglySorted Z.lt (keys m).

End WithValue.

Arguments t : clear implicits.

End StdMap.

(** [std::to_string (int)] *)
Definition to_string (z : Z) : string := NilZero.string_of_int (Z.to_int z).

(** ** Packet outcome tracker (helper/lora-packet-tracker.cc) *)

(** Modelled from the spec: [enum PhyPacketOutcome] is declared in
    lora-packet-tracker.h; the six enumerators are the ones the switch in
    [CountPhyPacketsPerGw] lists. *)
Inductive PhyPacketOutcome : Type :=
| RECEIVED
| INTERFERED
| NO_MORE_RECEIVERS
| UNDER_SENSITIVITY
| LOST_BECAUSE_TX
| UNSET.

Definition outcome_eqb (a b : PhyPacketOutcome) : bool :=
  match a, b with
  | RECEIVED, RECEIVED
  | INTERFERED, INTERFERED
  | NO_MORE_RECEIVERS, NO_MORE_RECEIVERS
  | UNDER_SENSITIVITY, UNDER_SENSITIVITY
  | LOST_BECAUSE_TX, LOST_BECAUSE_TX
  | UNSET, UNSET => true
  | _, _ => false
  end.

(** Modelled from the spec: the three status structs are declared in
    lora-packet-tracker.h; the fields are the ones the callbacks assign. *)
Module PacketStatus.
Record t : Type := mk {
  packet : Packet;
  sendTime : Time;
  senderId : Z;
  outcomes : StdMap.t PhyPacketOutcome
}.
Definition set_outcomes (f : StdMap.t PhyPacketOutcome ->
                             StdMap.t PhyPacketOutcome) (s : t) : t :=
  mk (packet s) (sendTime s) (senderId s) (f (outcomes s)).
End PacketStatus.

Module MacPacketStatus.
Record t : Type := mk {
  packet : Packet;
  sendTime : Time;
  senderId : Z;
  receivedTime : Time;
  receptionTimes : StdMap.t Time
}.
End MacPacketStatus.

Module RetransmissionStatus.
Record t : Type := mk {
  firstAttempt : Time;
  finishTime : Time;
  reTxAttempts : Z;
  successful : bool
}.
End RetransmissionStatus.

Module LoraPacketTracker.

(** The three maps are keyed by the packet pointer. *)
Record t : Type := mk {
  m_packetTracker : StdMap.t PacketStatus.t;
  m_macPacketTracker : StdMap.t MacPacketStatus.t;
  m_reTransmissionTracker : StdMap.t RetransmissionStatus.t
}.

Definition empty : t := mk StdMap.empty StdMap.empty StdMap.empty.

(** How a callback ends: it returns with the tracker possibly modified, it
    stops the run through [NS_ABORT_MSG], or it dereferences the
    past-the-end iterator of a map, after which nothing is defined. *)
Inductive result : Type :=
| Done (tr : t)
| Abort (msg : string)
| Undefined.

Definition IsUplink (packet : Packet) : bool := mHdr_IsUplink packet.

(** *** MAC metrics *)

Definition MacTransmissionCallback (sim : Simulator) (packet : Packet)
    (tr : t) : result :=
  if IsUplink packet then
    let status :=
      MacPacketStatus.mk packet (Now sim) (GetContext sim) Time_Max
        StdMap.empty in
    Done (mk (m_packetTracker tr)
             (StdMap.insert (pkt_addr packet) status (m_macPacketTracker tr))
             (m_reTransmissionTracker tr))
  else Done tr.

Definition RequiredTransmissionsCallback (sim : Simulator) (reqTx : Z)
    (success : bool) (firstAttempt : Time) (packet : Packet) (tr : t)
  : result :=
  let entry := RetransmissionStatus.mk firstAttempt (Now sim) reqTx success in
  Done (mk (m_packetTracker tr) (m_macPacketTracker tr)
           (StdMap.insert (pkt_addr packet) entry
              (m_reTransmissionTracker tr))).

(** The two statements executed on the record [it] points to. *)
Definition record_reception (sim : Simulator) (s : MacPacketStatus.t)
  : MacPacketStatus.t :=
  let times :=
    StdMap.insert (int_of_uint32 (GetContext sim)) (Now sim)
      (MacPacketStatus.receptionTimes s) in
  let received :=
    if (Now sim <? MacPacketStatus.receivedTime s)%Z then Now sim
    else MacPacketStatus.receivedTime s in
  MacPacketStatus.mk (MacPacketStatus.packet s) (MacPacketStatus.sendTime s)
    (MacPacketStatus.senderId s) received times.

Definition MacGwReceptionCallback (sim : Simulator) (packet : Packet)
    (tr : t) : result :=
  if IsUplink packet then
    match StdMap.find (pkt_addr packet) (m_macPacketTracker tr) with
    | Some _ =>
        Done (mk (m_packetTracker tr)
                 (StdMap.update (pkt_addr packet) (record_reception sim)
                    (m_macPacketTracker tr))
                 (m_reTransmissionTracker tr))
    | None => Abort "Packet not found in tracker"
    end
  else Done tr.

(** *** PHY metrics *)

Definition TransmissionCallback (sim : Simulator) (packet : Packet)
    (edId : Z) (tr : t) : result :=
  if IsUplink packet then
    let status := PacketStatus.mk packet (Now sim) edId StdMap.empty in
    Done (mk (StdMap.insert (pkt_addr packet) status (m_packetTracker tr))
             (m_macPacketTracker tr) (m_reTransmissionTracker tr))
  else Done tr.

(** The body the five outcome callbacks share:
    [it = m_packetTracker.find (packet)] is dereferenced without being
    compared with [end ()], then [outcomes.insert] is given the pair
    [(gwId, outcome)], whose first component is an [int]. *)
Definition record_outcome (outcome : PhyPacketOutcome) (packet : Packet)
    (gwId : Z) (tr : t) : result :=
  if IsUplink packet then
    match StdMap.find (pkt_addr packet) (m_packetTracker tr) with
    | Some _ =>
        Done (mk (StdMap.update (pkt_addr packet)
                    (PacketStatus.set_outcomes
                       (StdMap.insert (int_of_uint32 gwId) outcome))
                    (m_packetTracker tr))
                 (m_macPacketTracker tr) (m_reTransmissionTracker tr))
    | None => Undefined
    end
  else Done tr.

Definition PacketReceptionCallback := record_outcome RECEIVED.
Definition InterferenceCallback := record_outcome INTERFERED.
Definition NoMoreReceiversCallback := record_outcome NO_MORE_RECEIVERS.
Definition UnderSensitivityCallback := record_outcome UNDER_SENSITIVITY.
Definition LostBecauseTxCallback := record_outcome LOST_BECAUSE_TX.

(** *** What the outcome callbacks log

    The lines the five callbacks send to the log component
    "LoraPacketTracker": [NS_LOG_FUNCTION (this)] of [IsUplink], which each of
    them calls first, then their own
    [NS_LOG_INFO ("PHY packet " << packet << text << gwId)].  A line is its
    severity (one of those of ns-3's log.h) and the pieces streamed into it.
    A [Ptr] is printed as the address it holds, [gwId] as the unsigned
    number it is. *)
Inductive LogLevel : Type :=
| LOG_ERROR
| LOG_WARN
| LOG_DEBUG
| LOG_INFO
| LOG_FUNCTION
| LOG_LOGIC.

Inductive LogPiece : Type :=
| LogText (s : string)
| LogThis
| LogPtr (addr : Z)
| LogNum (n : Z).

Record LogLine : Type := mkLog {
  log_level : LogLevel;
  log_message : list LogPiece
}.

(** The text between the packet and the gateway.  No callback records
    [UNSET]. *)
Definition outcome_text (outcome : PhyPacketOutcome) : string :=
  match outcome with
  | RECEIVED => " was successfully received at gateway "
  | INTERFERED => " was interfered at gateway "
  | NO_MORE_RECEIVERS => " was lost because no more receivers at gateway "
  | UNDER_SENSITIVITY => " was lost because under sensitivity at gateway "
  | LOST_BECAUSE_TX => " was lost because of GW transmission at gateway "
  | UNSET => ""
  end.

(** [NS_LOG_FUNCTION (this)] in [IsUplink]: the name of the function and
    the address of the tracker. *)
Definition IsUplink_log : LogLine :=
  mkLog LOG_FUNCTION [LogText "IsUplink"; LogThis].

(** A callback with its log.  The information line is written as soon as
    the packet is known to be an uplink one, before its record is looked up;
    what follows is [record_outcome]. *)
Definition record_outcome_log (outcome : PhyPacketOutcome) (packet : Packet)
    (gwId : Z) (tr : t) : list LogLine * result :=
  if IsUplink packet then
    ([IsUplink_log;
      mkLog LOG_INFO
        [LogText "PHY packet "; LogPtr (pkt_addr packet);
         LogText (outcome_text outcome); LogNum gwId]],
     record_outcome outcome packet gwId tr)
  else ([IsUplink_log], Done tr).

(** *** A rejected event, in the specification's words

    "Subsequent duplicate events for the same (packet, gateway) are rejected
    as protocol errors"; "DuplicateOutcome (same gateway reporting twice for
    one packet -- logged and rejected, non-fatal)".  A call that rejects its
    event as an error says so: it stops with a message, or it logs an error
    or a warning. *)
Definition rejected_as_protocol_error (behaviour : list LogLine * result)
  : Prop :=
  (exists msg, snd behaviour = Abort msg)
  \/ exists line,
       In line (fst behaviour)
       /\ (log_level line = LOG_ERROR \/ log_level line = LOG_WARN).

(** *** Counting functions *)

(** [packetCounts.at (i)++] on a vector. *)
Fixpoint incr_at (i : nat) (v : list Z) : list Z :=
  match v, i with
  | [], _ => []
  | x :: v', O => (x + 1)%Z :: v'
  | x :: v', S i' => x :: incr_at i' v'
  end.

Definition in_interval (startTime stopTime : Time) (s : PacketStatus.t)
  : bool :=
  (startTime <=? PacketStatus.sendTime s)%Z
  && (PacketStatus.sendTime s <=? stopTime)%Z.

(** One iteration of the loop of [CountPhyPacketsPerGw].  The test
    [outcomes.count (gwId) > 0] followed by [outcomes.at (gwId)] is the match
    on [find]. *)
Definition count_step (startTime stopTime : Time) (gwId : Z)
    (packetCounts : list Z) (itPhy : Z * PacketStatus.t) : list Z :=
  if in_interval startTime stopTime (snd itPhy) then
    let packetCounts := incr_at 0 packetCounts in
    match StdMap.find gwId (PacketStatus.outcomes (snd itPhy)) with
    | Some RECEIVED => incr_at 1 packetCounts
    | Some INTERFERED => incr_at 2 packetCounts
    | Some NO_MORE_RECEIVERS => incr_at 3 packetCounts
    | Some UNDER_SENSITIVITY => incr_at 4 packetCounts
    | Some LOST_BECAUSE_TX => incr_at 5 packetCounts
    | Some UNSET => packetCounts
    | None => packetCounts
    end
  else packetCounts.

Definition CountPhyPacketsPerGw (startTime stopTime : Time) (gwId : Z)
    (tr : t) : list Z :=
  fold_left (count_step startTime stopTime gwId) (m_packetTracker tr)
    (repeat 0%Z 6).

(** One iteration of the loop of [PrintPhyPacketsPerGw]. *)
Definition print_step (startTime stopTime : Time) (gwId : Z)
    (packetCounts : list Z) (itPhy : Z * PacketStatus.t) : list Z :=
  if in_interval startTime stopTime (snd itPhy) then
    let packetCounts := incr_at 0 packetCounts in
    match StdMap.find gwId (PacketStatus.outcomes (snd itPhy)) with
    | Some RECEIVED => incr_at 1 packetCounts
    | Some INTERFERED => incr_at 2 packetCounts
    | Some NO_MORE_RECEIVERS => incr_at 3 packetCounts
    | Some LOST_BECAUSE_TX => incr_at 4 packetCounts
    | Some UNDER_SENSITIVITY => incr_at 5 packetCounts
    | Some UNSET => packetCounts
    | None => packetCounts
    end
  else packetCounts.

Definition print_counts (startTime stopTime : Time) (gwId : Z) (tr : t)
  : list Z :=
  fold_left (print_step startTime stopTime gwId) (m_packetTracker tr)
    (repeat 0%Z 6).

(** [output += std::to_string (packetCounts.at (i)) + " "] for [i] from 0
    to 5. *)
Definition render (packetCounts : list Z) : string :=
  fold_left (fun output c => (output ++ to_string c ++ " ")%string)
    (firstn 6 packetCounts) EmptyString.

Definition PrintPhyPacketsPerGw (startTime stopTime : Time) (gwId : Z)
    (tr : t) : string :=
  render (print_counts startTime stopTime gwId tr).

(** *** Aggregate statistics *)

(** The four local flags of the loop body. *)
Record Flags : Type := mkFlags {
  received : bool;
  interfered : bool;
  noPaths : bool;
  busyGw : bool
}.

Definition no_flags : Flags := mkFlags false false false false.

(** The loop over [pd.second.outcomes], in key order.  It returns the flags
    and the running [totBytesReceived]; [size] is [pd.first->GetSize ()]. *)
Fixpoint scan_outcomes (size : Z) (outs : StdMap.t PhyPacketOutcome)
    (fl : Flags) (totBytesReceived : Q) : Flags * Q :=
  match outs with
  | [] => (fl, totBytesReceived)
  | out :: rest =>
      if outcome_eqb (snd out) RECEIVED then
        (mkFlags true (interfered fl) (noPaths fl) (busyGw fl),
         totBytesReceived + inject_Z size)
      else if negb (interfered fl) && outcome_eqb (snd out) INTERFERED then
        scan_outcomes size rest
          (mkFlags (received fl) true (noPaths fl) (busyGw fl))
          totBytesReceived
      else if negb (noPaths fl) && outcome_eqb (snd out) NO_MORE_RECEIVERS
      then
        scan_outcomes size rest
          (mkFlags (received fl) (interfered fl) true (busyGw fl))
          totBytesReceived
      else if negb (busyGw fl) && outcome_eqb (snd out) LOST_BECAUSE_TX then
        scan_outcomes size rest
          (mkFlags (received fl) (interfered fl) (noPaths fl) true)
          totBytesReceived
      else scan_outcomes size rest fl totBytesReceived
  end.

(** The five counters a packet can be added to. *)
Inductive Category : Type :=
| CatReceived
| CatInterfered
| CatNoMoreReceivers
| CatBusyGateway
| CatUnderSensitivity.

(** The [if (received) ... else if (interfered) ... else ...] chain. *)
Definition category_of_flags (fl : Flags) : Category :=
  if received fl then CatReceived
  else if interfered fl then CatInterfered
  else if noPaths fl then CatNoMoreReceivers
  else if busyGw fl then CatBusyGateway
  else CatUnderSensitivity.

(** The accumulators declared before the loop. *)
Record Totals : Type := mkTotals {
  total : Z;
  totReceived : Q;
  totInterfered : Q;
  totNoMorePaths : Q;
  totBusyGw : Q;
  totUnderSens : Q;
  totBytesReceived : Q;
  totBytesSent : Q;
  totOffTraff : option Q
}.

Definition zero_totals : Totals := mkTotals 0 0 0 0 0 0 0 0 (Some 0).

Definition bump (c : Category) (acc : Totals) : Totals :=
  match c with
  | CatReceived =>
      mkTotals (total acc) (totReceived acc + 1) (totInterfered acc)
        (totNoMorePaths acc) (totBusyGw acc) (totUnderSens acc)
        (totBytesReceived acc) (totBytesSent acc) (totOffTraff acc)
  | CatInterfered =>
      mkTotals (total acc) (totReceived acc) (totInterfered acc + 1)
        (totNoMorePaths acc) (totBusyGw acc) (totUnderSens acc)
        (totBytesReceived acc) (totBytesSent acc) (totOffTraff acc)
  | CatNoMoreReceivers =>
      mkTotals (total acc) (totReceived acc) (totInterfered acc)
        (totNoMorePaths acc + 1) (totBusyGw acc) (totUnderSens acc)
        (totBytesReceived acc) (totBytesSent acc) (totOffTraff acc)
  | CatBusyGateway =>
      mkTotals (total acc) (totReceived acc) (totInterfered acc)
        (totNoMorePaths acc) (totBusyGw acc + 1) (totUnderSens acc)
        (totBytesReceived acc) (totBytesSent acc) (totOffTraff acc)
  | CatUnderSensitivity =>
      mkTotals (total acc) (totReceived acc) (totInterfered acc)
        (totNoMorePaths acc) (totBusyGw acc) (totUnderSens acc + 1)
        (totBytesReceived acc) (totBytesSent acc) (totOffTraff acc)
  end.

(** [pd.second.sendTime < startTime - Seconds (5)], the [continue] test. *)
Definition skipped (startTime : Time) (s : PacketStatus.t) : bool :=
  (PacketStatus.sendTime s <? startTime - Seconds 5)%Z.

(** [params]: a default-constructed [LoraTxParameters] ([dflt], whose
    initialisers are in lora-phy.h) with [sf] read from the packet tag and the
    low-data-rate flag set when the symbol lasts more than 16 ms.  The
    comparison is between two [Time]s; there is nothing to compare when
    [GetTSym] has no defined result. *)
Definition stat_params (dflt : LoraPhy.LoraTxParameters) (p : Packet)
  : option LoraPhy.LoraTxParameters :=
  let params :=
    LoraPhy.mkParams (tag_GetSpreadingFactor p) (LoraPhy.headerDisabled dflt)
      (LoraPhy.codingRate dflt) (LoraPhy.bandwidthHz dflt)
      (LoraPhy.nPreamble dflt) (LoraPhy.crcEnabled dflt)
      (LoraPhy.lowDataRateOptimizationEnabled dflt) in
  match LoraPhy.GetTSym params with
  | Some tSym =>
      Some (LoraPhy.mkParams (LoraPhy.sf params)
              (LoraPhy.headerDisabled params) (LoraPhy.codingRate params)
              (LoraPhy.bandwidthHz params) (LoraPhy.nPreamble params)
              (LoraPhy.crcEnabled params) (MilliSeconds 16 <? tSym)%Z)
  | None => None
  end.

(** [LoraPhy::GetOnAirTime (pd.first->Copy (), params).GetSeconds ()] *)
Definition stat_airtime (dflt : LoraPhy.LoraTxParameters) (p : Packet)
  : option Q :=
  match stat_params dflt p with
  | Some params => option_map Time_GetSeconds (LoraPhy.GetOnAirTime p params)
  | None => None
  end.

(** [totOffTraff += ...]: the sum is known as long as every term is. *)
Definition add_airtime (tot airtime : option Q) : option Q :=
  match tot, airtime with
  | Some a, Some b => Some (a + b)
  | _, _ => None
  end.

(** One iteration of the loop over [m_packetTracker].  The key [pd.first] is
    the pointer also stored in [pd.second.packet]. *)
Definition stat_step (dflt : LoraPhy.LoraTxParameters) (startTime : Time)
    (acc : Totals) (pd : Z * PacketStatus.t) : Totals :=
  if skipped startTime (snd pd) then acc
  else
    let p := PacketStatus.packet (snd pd) in
    let scan :=
      scan_outcomes (GetSize p) (PacketStatus.outcomes (snd pd)) no_flags
        (totBytesReceived acc) in
    bump (category_of_flags (fst scan))
      (mkTotals (wrap32 (total acc + 1)) (totReceived acc)
         (totInterfered acc) (totNoMorePaths acc) (totBusyGw acc)
         (totUnderSens acc) (snd scan)
         (totBytesSent acc + inject_Z (GetSize p))
         (add_airtime (totOffTraff acc) (stat_airtime dflt p))).

Definition simulation_totals (dflt : LoraPhy.LoraTxParameters)
    (startTime : Time) (tr : t) : Totals :=
  fold_left (stat_step dflt startTime) (m_packetTracker tr) zero_totals.

(** The numbers streamed into the report, in the order they are printed.
    The offered traffic is [None] when the on-air time of some packet of the
    window has no defined value. *)
Record Report : Type := mkReport {
  rep_sent : Z;
  rep_received : Q;
  pct_RECEIVED : dbl;
  pct_INTERFERED : dbl;
  pct_NO_MORE_RECEIVERS : dbl;
  pct_BUSY_GATEWAY : dbl;
  pct_UNDER_SENSITIVITY : dbl;
  rep_inputTraffic : dbl;
  rep_networkThroughput : dbl;
  rep_offeredTraffic : option dbl
}.

(** What follows the assertion: the loop and the numbers written into the
    string. *)
Definition statistics_report (dflt : LoraPhy.LoraTxParameters)
    (sim : Simulator) (startTime : Time) (tr : t) : Report :=
  let acc := simulation_totals dflt startTime tr in
  let pct (x : Q) := dmul (ddiv x (inject_Z (total acc))) 100 in
  let totTime := Time_GetSeconds (Now sim - startTime)%Z in
  mkReport (total acc) (totReceived acc)
    (pct (totReceived acc)) (pct (totInterfered acc))
    (pct (totNoMorePaths acc)) (pct (totBusyGw acc))
    (pct (totUnderSens acc))
    (ddiv (totBytesSent acc * 8) totTime)
    (ddiv (totBytesReceived acc * 8) totTime)
    (option_map (fun off => ddiv off totTime) (totOffTraff acc)).

(** How [PrintSimulationStatistics] ends: with its string, here the numbers
    written into it, or in [NS_ASSERT], which stops the run when its
    condition is false. *)
Inductive printed : Type :=
| Printed (rep : Report)
| AssertFailed (cond : string).

(** [NS_ASSERT (startTime < Simulator::Now ())] comes first.  (A build
    without assertions skips the test; the two builds agree whenever
    [startTime < Now].) *)
Definition PrintSimulationStatistics (dflt : LoraPhy.LoraTxParameters)
    (sim : Simulator) (startTime : Time) (tr : t) : printed :=
  if (startTime <? Now sim)%Z then
    Printed (statistics_report dflt sim startTime tr)
  else AssertFailed "startTime < Simulator::Now ()".

(** *** The classification in the specification's words

    "Priority order Received > Interfered > NoMoreReceivers > LostBecauseTx >
    UnderSensitivity; first matching outcome across all gateways wins".  The
    last category takes what none of the first four matches. *)
Definition has_outcome (o : PhyPacketOutcome) (outs : list PhyPacketOutcome)
  : bool :=
  existsb (outcome_eqb o) outs.

Definition classify_priority (outs : list PhyPacketOutcome) : Category :=
  if has_outcome RECEIVED outs then CatReceived
  else if has_outcome INTERFERED outs then CatInterfered
  else if has_outcome NO_MORE_RECEIVERS outs then CatNoMoreReceivers
  else if has_outcome LOST_BECAUSE_TX outs then CatBusyGateway
  else CatUnderSensitivity.

(** *** Events and reachable states

    The scheduler calls the callbacks one at a time; its clock starts at zero
    and never goes back. *)
Inductive Event : Type :=
| EvMacTransmission (packet : Packet)
| EvRequiredTransmissions (reqTx : Z) (success : bool) (firstAttempt : Time)
    (packet : Packet)
| EvMacGwReception (packet : Packet)
| EvTransmission (packet : Packet) (edId : Z)
| EvPacketReception (packet : Packet) (gwId : Z)
| EvInterference (packet : Packet) (gwId : Z)
| EvNoMoreReceivers (packet : Packet) (gwId : Z)
| EvUnderSensitivity (packet : Packet) (gwId : Z)
| EvLostBecauseTx (packet : Packet) (gwId : Z).

Definition dispatch (sim : Simulator) (ev : Event) (tr : t) : result :=
  match ev with
  | EvMacTransmission p => MacTransmissionCallback sim p tr
  | EvRequiredTransmissions reqTx success firstAttempt p =>
      RequiredTransmissionsCallback sim reqTx success firstAttempt p tr
  | EvMacGwReception p => MacGwReceptionCallback sim p tr
  | EvTransmission p edId => TransmissionCallback sim p edId tr
  | EvPacketReception p gwId => PacketReceptionCallback p gwId tr
  | EvInterference p gwId => InterferenceCallback p gwId tr
  | EvNoMoreReceivers p gwId => NoMoreReceiversCallback p gwId tr
  | EvUnderSensitivity p gwId => UnderSensitivityCallback p gwId tr
  | EvLostBecauseTx p gwId => LostBecauseTxCallback p gwId tr
  end.

Inductive reachable : Time -> t -> Prop :=
| reachable_empty : reachable 0%Z empty
| reachable_step (now : Time) (tr : t) (sim : Simulator) (ev : Event)
    (tr' : t) :
    reachable now tr ->
    (now <= Now sim <= Time_Max)%Z ->
    dispatch sim ev tr = Done tr' ->
    reachable (Now sim) tr'.

(** Running a schedule of time-stamped events from a given state. *)
Fixpoint run (evs : list (Simulator * Event)) (tr : t) : result :=
  match evs with
  | [] => Done tr
  | (sim, ev) :: evs' =>
      match dispatch sim ev tr with
      | Done tr' => run evs' tr'
      | r => r
      end
  end.

(** [earliest m]: the minimum of the reception times in [m], or the "never"
    value [Time::Max ()] when there is none. *)
Definition earliest (m : StdMap.t Time) : Time :=
  match StdMap.values m with
  | [] => Time_Max
  | v :: vs => fold_left Z.min vs v
  end.

(** *** Counting, stated on the records *)

Definition tally (P : PacketStatus.t -> bool)
    (records : StdMap.t PacketStatus.t) : Z :=
  Z.of_nat (List.length (filter P (StdMap.values records))).

(** The record has outcome [o] at gateway [gwId]. *)
Definition outcome_at (gwId : Z) (o : PhyPacketOutcome) (s : PacketStatus.t)
  : bool :=
  match StdMap.find gwId (PacketStatus.outcomes s) with
  | Some o' => outcome_eqb o' o
  | None => false
  end.

Definition category_eqb (a b : Category) : bool :=
  match a, b with
  | CatReceived, CatReceived
  | CatInterfered, CatInterfered
  | CatNoMoreReceivers, CatNoMoreReceivers
  | CatBusyGateway, CatBusyGateway
  | CatUnderSensitivity, CatUnderSensitivity => true
  | _, _ => false
  end.

(** The record is in the statistics window and its outcomes, over all
    gateways, classify it as [c]. *)
Definition counted_as (startTime : Time) (c : Category) (s : PacketStatus.t)
  : bool :=
  negb (skipped startTime s)
  && category_eqb
       (classify_priority (StdMap.values (PacketStatus.outcomes s))) c.

Definition in_window (startTime : Time) (s : PacketStatus.t) : bool :=
  negb (skipped startTime s).

(** The accumulator a category is counted in. *)
Definition tot_of (c : Category) (acc : Totals) : Q :=
  match c with
  | CatReceived => totReceived acc
  | CatInterfered => totInterfered acc
  | CatNoMoreReceivers => totNoMorePaths acc
  | CatBusyGateway => totBusyGw acc
  | CatUnderSensitivity => totUnderSens acc
  end.

(** The percentage the report prints for a category. *)
Definition pct_of (c : Category) (rep : Report) : dbl :=
  match c with
  | CatReceived => pct_RECEIVED rep
  | CatInterfered => pct_INTERFERED rep
  | CatNoMoreReceivers => pct_NO_MORE_RECEIVERS rep
  | CatBusyGateway => pct_BUSY_GATEWAY rep
  | CatUnderSensitivity => pct_UNDER_SENSITIVITY rep
  end.

(** *** Invariants of the reachable states *)

(** The map of PHY records, and every outcome map in it, has its keys in
    strictly ascending order. *)
Definition phy_ordered (tr : t) : Prop :=
  StdMap.ascending (m_packetTracker tr)
  /\ forall k s, In (k, s) (m_packetTracker tr) ->
       StdMap.ascending (PacketStatus.outcomes s).

(** At clock value [now], no MAC record holds a reception time later than
    [now], and [receivedTime] is the earliest one it holds. *)
Definition mac_timely (now : Time) (tr : t) : Prop :=
  (now <= Time_Max)%Z
  /\ forall k s, In (k, s) (m_macPacketTracker tr) ->
       Forall (fun tm => (tm <= now)%Z)
         (StdMap.values (MacPacketStatus.receptionTimes s))
       /\ MacPacketStatus.receivedTime s
          = earliest (MacPacketStatus.receptionTimes s).

(** *** Counting MAC packets *)

Definition mac_in_interval (startTime stopTime : Time)
    (s : MacPacketStatus.t) : bool :=
  (startTime <=? MacPacketStatus.sendTime s)%Z
  && (MacPacketStatus.sendTime s <=? stopTime)%Z.

(** [it->second.receptionTimes.size ()] used as a condition. *)
Definition has_receptions (s : MacPacketStatus.t) : bool :=
  negb (StdMap.size (MacPacketStatus.receptionTimes s) =? 0)%Z.

(** One iteration of the loop of [CountMacPacketsGlobally]; the pair is
    [(sent, received)]. *)
Definition mac_count_step (startTime stopTime : Time) (acc : Z * Z)
    (it : Z * MacPacketStatus.t) : Z * Z :=
  if mac_in_interval startTime stopTime (snd it) then
    let sent := (fst acc + 1)%Z in
    if has_receptions (snd it) then (sent, (snd acc + 1)%Z)
    else (sent, snd acc)
  else acc.

Definition mac_counts (startTime stopTime : Time) (tr : t) : Z * Z :=
  fold_left (mac_count_step startTime stopTime) (m_macPacketTracker tr)
    (0%Z, 0%Z).

(** [std::to_string (sent) + " " + std::to_string (received)] *)
Definition sent_received (c : Z * Z) : string :=
  (to_string (fst c) ++ " " ++ to_string (snd c))%string.

Definition CountMacPacketsGlobally (startTime stopTime : Time) (tr : t)
  : string :=
  sent_received (mac_counts startTime stopTime tr).

(** One iteration of the loop of [CountMacPacketsGloballyCpsr]. *)
Definition cpsr_in_interval (startTime stopTime : Time)
    (e : RetransmissionStatus.t) : bool :=
  (startTime <=? RetransmissionStatus.firstAttempt e)%Z
  && (RetransmissionStatus.firstAttempt e <=? stopTime)%Z.

Definition cpsr_count_step (startTime stopTime : Time) (acc : Z * Z)
    (it : Z * RetransmissionStatus.t) : Z * Z :=
  if cpsr_in_interval startTime stopTime (snd it) then
    let sent := (fst acc + 1)%Z in
    if RetransmissionStatus.successful (snd it) then (sent, (snd acc + 1)%Z)
    else (sent, snd acc)
  else acc.

Definition cpsr_counts (startTime stopTime : Time) (tr : t) : Z * Z :=
  fold_left (cpsr_count_step startTime stopTime)
    (m_reTransmissionTracker tr) (0%Z, 0%Z).

Definition CountMacPacketsGloballyCpsr (startTime stopTime : Time) (tr : t)
  : string :=
  sent_received (cpsr_counts startTime stopTime tr).

(** One iteration of the loop of [PrintDevicePackets]. *)
Definition device_count_step (startTime stopTime : Time) (devId : Z)
    (acc : Z * Z) (it : Z * MacPacketStatus.t) : Z * Z :=
  if mac_in_interval startTime stopTime (snd it)
     && (MacPacketStatus.senderId (snd it) =? devId)%Z then
    let sent := (fst acc + 1)%Z in
    if has_receptions (snd it) then (sent, (snd acc + 1)%Z)
    else (sent, snd acc)
  else acc.

Definition device_counts (startTime stopTime : Time) (devId : Z) (tr : t)
  : Z * Z :=
  fold_left (device_count_step startTime stopTime devId)
    (m_macPacketTracker tr) (0%Z, 0%Z).

Definition PrintDevicePackets (startTime stopTime : Time) (devId : Z)
    (tr : t) : string :=
  sent_received (device_counts startTime stopTime devId tr).

(** Number of entries of a map whose value satisfies [P]. *)
Definition entries_where {V : Type} (P : V -> bool) (m : StdMap.t V) : Z :=
  Z.of_nat (List.length (filter P (StdMap.values m))).

(** The cell of the vector of [CountPhyPacketsPerGw] an outcome is counted
    in. *)
Definition count_cell (o : PhyPacketOutcome) : option nat :=
  match o with
  | RECEIVED => Some 1%nat
  | INTERFERED => Some 2%nat
  | NO_MORE_RECEIVERS => Some 3%nat
  | UNDER_SENSITIVITY => Some 4%nat
  | LOST_BECAUSE_TX => Some 5%nat
  | UNSET => None
  end.

(** *** What later states keep of earlier ones *)

(** The record [s'] is the record [s] with, possibly, more outcomes. *)
Definition outcomes_kept (s s' : PacketStatus.t) : Prop :=
  PacketStatus.packet s' = PacketStatus.packet s
  /\ PacketStatus.sendTime s' = PacketStatus.sendTime s
  /\ PacketStatus.senderId s' = PacketStatus.senderId s
  /\ forall g o, StdMap.find g (PacketStatus.outcomes s) = Some o ->
       StdMap.find g (PacketStatus.outcomes s') = Some o.

(** The record [s'] is the record [s] with, possibly, more receptions. *)
Definition receptions_kept (s s' : MacPacketStatus.t) : Prop :=
  MacPacketStatus.packet s' = MacPacketStatus.packet s
  /\ MacPacketStatus.sendTime s' = MacPacketStatus.sendTime s
  /\ MacPacketStatus.senderId s' = MacPacketStatus.senderId s
  /\ forall g tm,
       StdMap.find g (MacPacketStatus.receptionTimes s) = Some tm ->
       StdMap.find g (MacPacketStatus.receptionTimes s') = Some tm.

Definition history_kept (tr tr' : t) : Prop :=
  (forall k s, StdMap.find k (m_packetTracker tr) = Some s ->
     exists s', StdMap.find k (m_packetTracker tr') = Some s'
                /\ outcomes_kept s s')
  /\ (forall k s, StdMap.find k (m_macPacketTracker tr) = Some s ->
        exists s', StdMap.find k (m_macPacketTracker tr') = Some s'
                   /\ receptions_kept s s')
  /\ (forall k e, StdMap.find k (m_reTransmissionTracker tr) = Some e ->
        StdMap.find k (m_reTransmissionTracker tr') = Some e).

(** Total size in bytes of the packets whose record satisfies [P]. *)
Definition bytes_where (P : PacketStatus.t -> bool)
    (m : StdMap.t PacketStatus.t) : Z :=
  fold_right
    (fun s acc =>
       ((if P s then GetSize (PacketStatus.packet s) else 0) + acc)%Z)
    0%Z (StdMap.values m).

(** At clock value [now], every record was sent at [now] or before, and
    every reception of a MAC record lies between its send time and [now]. *)
Definition causal (now : Time) (tr : t) : Prop :=
  (now <= Time_Max)%Z
  /\ (forall k s, In (k, s) (m_packetTracker tr) ->
        (PacketStatus.sendTime s <= now)%Z)
  /\ (forall k s, In (k, s) (m_macPacketTracker tr) ->
        (MacPacketStatus.sendTime s <= now)%Z
        /\ (MacPacketStatus.sendTime s <= MacPacketStatus.receivedTime s)%Z
        /\ Forall (fun tm => (MacPacketStatus.sendTime s <= tm <= now)%Z)
             (StdMap.values (MacPacketStatus.receptionTimes s))).

End LoraPacketTracker.

(** ** Concrete inputs *)

Module Examples.

Import LoraPacketTracker.

(** A packet of [n] bytes, and a parameter set (125 kHz, coding rate 1,
    8 preamble symbols, CRC on, explicit header, no low-data-rate
    optimisation) at spreading factor [s]. *)
Definition bytes (n : Z) : Packet := mkPacket 1 n true 7.
Definition params_sf (s : Z) : LoraPhy.LoraTxParameters :=
  LoraPhy.mkParams s false 1 125000 8 true false.

(** An uplink and a downlink packet of 23 bytes. *)
Definition uplink : Packet := mkPacket 100 23 true 7.
Definition downlink : Packet := mkPacket 200 23 false 7.

(** The scheduler at [now] nanoseconds, running the event of node [ctx]. *)
Definition at_time (now : Time) (ctx : Z) : Simulator := mkSim now ctx.

(** The tracker after [uplink] was sent by device 5 at time 0, with the
    outcomes [outs] recorded for it. *)
Definition status_of (outs : StdMap.t PhyPacketOutcome) : PacketStatus.t :=
  PacketStatus.mk uplink 0%Z 5%Z outs.

Definition phy_state (outs : StdMap.t PhyPacketOutcome) : t :=
  mk [(100%Z, status_of outs)] [] [].

(** [uplink] was below the sensitivity of gateway 1. *)
Definition under_sensitivity_at_gw1 : t :=
  phy_state [(1%Z, UNDER_SENSITIVITY)].

(** [uplink] was received by gateway 1. *)
Definition received_at_gw1 : t := phy_state [(1%Z, RECEIVED)].

(** [uplink] was interfered at gateway 1 and received by gateway 2. *)
Definition interfered_then_received : t :=
  phy_state [(1%Z, INTERFERED); (2%Z, RECEIVED)].

(** [uplink] was sent by the MAC layer of device 5 at time 0, then received
    by gateway 2 at time 10 and by gateway 1 at time 12. *)
Definition mac_two_gateways : t :=
  mk [] [(100%Z, MacPacketStatus.mk uplink 0%Z 5%Z 10%Z
                   [(1%Z, 12%Z); (2%Z, 10%Z)])] [].

End Examples.

(** ** Bike traces (helper/bike-mobility-helper.cc) *)

Module BikeMobility.

(** Modelled from the spec: [struct BikeData] is declared in
    bike-mobility-helper.h; the fields are the ones [readDataset] assigns,
    the integers from [std::stoi] and [std::stol], the coordinates from
    [std::stod]. *)
Record BikeData : Type := mkBike {
  bikeNumber : string;
  duration : Z;
  time_started : Z;
  time_ended : Z;
  start_station : Z;
  end_station : Z;
  start_lat : Q;
  start_lng : Q;
  end_lat : Q;
  end_lng : Q
}.

(** [std::set<std::string>::insert]: the elements are kept in ascending
    order of [std::string::compare], which is the byte-wise lexicographic
    order of [String.compare]. *)
Fixpoint set_insert (x : string) (s : list string) : list string :=
  match s with
  | [] => [x]
  | y :: s' =>
      match String.compare x y with
      | Lt => x :: s
      | Eq => s
      | Gt => y :: set_insert x s'
      end
  end.

(** [myMap[k] = v] on a [std::map<std::string, int>]. *)
Fixpoint map_assign (k : string) (v : Z) (m : list (string * Z))
  : list (string * Z) :=
  match m with
  | [] => [(k, v)]
  | (k', v') :: m' =>
      match String.compare k k' with
      | Lt => (k, v) :: m
      | Eq => (k, v) :: m'
      | Gt => (k', v') :: map_assign k v m'
      end
  end.

(** The first loop of [createBikeNumberMap]. *)
Definition uniqueBikeNumbers (dataset : list BikeData) : list string :=
  fold_left (fun s data => set_insert (bikeNumber data) s) dataset [].

(** One iteration of its second loop, on the map and [key]. *)
Definition assign_key (acc : list (string * Z) * Z) (bikeNumber : string)
  : list (string * Z) * Z :=
  (map_assign bikeNumber (snd acc) (fst acc), (snd acc + 1)%Z).

Definition createBikeNumberMap (dataset : list BikeData)
  : list (string * Z) :=
  fst (fold_left assign_key (uniqueBikeNumbers dataset) ([], 0%Z)).

(** A call [nodes.Get (node)->GetObject<WaypointMobilityModel> ()
    ->AddWaypoint (Waypoint (Seconds (time), Vector (x, y, 0.0)))].  What
    the container and the mobility model do with it (a node index out of
    range, a node without the model, waypoints out of time order) belongs to
    them and is not modelled: [SaveWaypoints] is the sequence of calls it
    makes. *)
Record AddWaypoint : Type := mkWaypoint {
  wp_node : Z;
  wp_time : Z;
  wp_x : Q;
  wp_y : Q
}.

(** The rows the code calls faulty. *)
Definition faulty (row : Z) : bool :=
  (row =? 88563)%Z || (row =? 149263)%Z || (row =? 149472)%Z
  || (row =? 152101)%Z.

(** What [SaveWaypoints] has done so far: the value of [row], the calls to
    [AddWaypoint] in the order they were made, and the node whose mobility
    model [waypointMobility] points to, if any. *)
Record Saved : Type := mkSaved {
  row : Z;
  calls : list AddWaypoint;
  waypointMobility : option Z
}.

(** The body of the inner loop, for one entry of [myMap]. *)
Definition save_pair (bike : BikeData) (st : Saved) (pair : string * Z)
  : Saved :=
  if String.eqb (fst pair) (bikeNumber bike) then
    if faulty (row st) then mkSaved (row st + 1)%Z (calls st)
                              (waypointMobility st)
    else
      mkSaved (row st + 1)%Z
        (calls st
         ++ [mkWaypoint (snd pair) (time_started bike) (start_lng bike)
               (start_lat bike);
             mkWaypoint (snd pair) (time_ended bike) (end_lng bike)
               (end_lat bike)])
        (Some (snd pair))
  else st.

(** The body of the outer loop, for one row of the dataset. *)
Definition save_row (myMap : list (string * Z)) (st : Saved)
    (bike : BikeData) : Saved :=
  fold_left (save_pair bike) myMap st.

Definition SaveWaypoints (dataset : list BikeData)
    (myMap : list (string * Z)) : Saved :=
  fold_left (save_row myMap) dataset (mkSaved 0%Z [] None).

(** *** What the loops amount to *)

(** The key [myMap] holds for a bike number. *)
Fixpoint key_of (b : string) (myMap : list (string * Z)) : option Z :=
  match myMap with
  | [] => None
  | (k, v) :: m' => if String.eqb k b then Some v else key_of b m'
  end.

(** The two waypoints of a row, on node [node]. *)
Definition waypoints_of (node : Z) (bike : BikeData) : list AddWaypoint :=
  [mkWaypoint node (time_started bike) (start_lng bike) (start_lat bike);
   mkWaypoint node (time_ended bike) (end_lng bike) (end_lat bike)].

(** The calls for the rows [dataset], the first of which has number [row]:
    a row whose bike has a key gets its two waypoints unless its number is
    faulty, and only such rows are numbered. *)
Fixpoint calls_from (row : Z) (myMap : list (string * Z))
    (dataset : list BikeData) : list AddWaypoint :=
  match dataset with
  | [] => []
  | bike :: rest =>
      match key_of (bikeNumber bike) myMap with
      | Some node =>
          (if faulty row then [] else waypoints_of node bike)
          ++ calls_from (row + 1) myMap rest
      | None => calls_from row myMap rest
      end
  end.

(** [a] comes before [b] in the order of the set and of the map. *)
Definition string_lt (a b : string) : Prop := String.compare a b = Lt.

(** The keys 0, 1, 2, ... handed out to [n] bike numbers. *)
Definition first_keys (n : nat) : list Z := map Z.of_nat (seq 0 n).

(** Three rides of two bikes. *)
Definition ride (bike : string) (t0 t1 : Z) : BikeData :=
  mkBike bike (t1 - t0) t0 t1 1 2 (1 # 2) (3 # 2) (5 # 2) (7 # 2).

Definition three_rides : list BikeData :=
  [ride "W21" 0 60; ride "W07" 10 50; ride "W21" 100 160].

End BikeMobility.

(** * Properties *)

(** ** Doubles and rounding *)

Section Rounding.

Lemma Qlt_bool_iff (x y : Q) : Qlt_bool x y = true <-> x < y.
Proof.
  unfold Qlt_bool. rewrite negb_true_iff. split.
  - intros H. apply Qnot_le_lt. intros Hle.
    apply Qle_bool_iff in Hle. rewrite Hle in H. discriminate H.
  - intros H. apply not_true_is_false. intros Hle.
    apply Qle_bool_iff in Hle. apply (Qlt_not_le _ _ H Hle).
Qed.

Lemma Qlt_bool_false (x y : Q) : Qlt_bool x y = false <-> y <= x.
Proof.
  unfold Qlt_bool. rewrite negb_false_iff. apply Qle_bool_iff.
Qed.

Lemma ddiv_nonzero (x d : Q) : ~ d == 0 -> ddiv x d = Fin (x / d).
Proof.
  intros Hd. unfold ddiv.
  destruct (Qeq_bool d 0) eqn:E; [| reflexivity].
  apply Qeq_bool_eq in E. destruct (Hd E).
Qed.

Lemma ddiv_pos (x d : Q) : 0 < d -> ddiv x d = Fin (x / d).
Proof.
  intros Hd. apply ddiv_nonzero. intros E. rewrite E in Hd. discriminate Hd.
Qed.

(** [std::max (x, 0)] on a finite [x]. *)
Lemma std_max_finite (x : Q) :
  exists y, std_max (Fin x) (Fin 0) = Fin y /\ y == Qmax x 0.
Proof.
  unfold std_max, dlt. destruct (Qlt_bool x 0) eqn:E.
  - exists 0. split; [reflexivity |]. symmetry. apply Q.max_r.
    apply Qlt_le_weak, Qlt_bool_iff, E.
  - exists x. split; [reflexivity |]. symmetry. apply Q.max_l.
    apply Qlt_bool_false, E.
Qed.

Lemma Round_comp (x y : Q) : x == y -> Round x = Round y.
Proof.
  intros H. unfold Round.
  assert (E : Qlt_bool x 0 = Qlt_bool y 0).
  { destruct (Qlt_bool x 0) eqn:Ex, (Qlt_bool y 0) eqn:Ey; try reflexivity.
    - apply Qlt_bool_iff in Ex. apply Qlt_bool_false in Ey.
      rewrite H in Ex. destruct (Qlt_not_le _ _ Ex Ey).
    - apply Qlt_bool_iff in Ey. apply Qlt_bool_false in Ex.
      rewrite H in Ex. destruct (Qlt_not_le _ _ Ey Ex). }
  rewrite E. destruct (Qlt_bool y 0).
  - apply Qceiling_comp. rewrite H. reflexivity.
  - apply Qfloor_comp. rewrite H. reflexivity.
Qed.

(** The rounded value is within half a unit of the number. *)
Lemma Round_near (q : Q) :
  q - (1 # 2) <= inject_Z (Round q) /\ inject_Z (Round q) <= q + (1 # 2).
Proof.
  unfold Round. destruct (Qlt_bool q 0).
  - split; [apply Qle_ceiling |].
    pose proof (Qceiling_lt (q - (1 # 2))) as H.
    unfold Z.sub in H. rewrite inject_Z_plus in H.
    change (inject_Z (-1)) with (-(1)) in H.
    apply Qlt_le_weak.
    apply (Qplus_lt_l _ _ (-(1))).
    setoid_replace (q + (1 # 2) + - (1)) with (q - (1 # 2)) by ring.
    exact H.
  - split; [| apply Qfloor_le].
    pose proof (Qlt_floor (q + (1 # 2))) as H.
    rewrite inject_Z_plus in H. change (inject_Z 1) with 1 in H.
    apply Qlt_le_weak.
    apply (Qplus_lt_l _ _ 1).
    setoid_replace (q - (1 # 2) + 1) with (q + (1 # 2)) by ring.
    exact H.
Qed.

(** A whole number is left as it is. *)
Lemma Round_inject_Z (z : Z) : Round (inject_Z z) = z.
Proof.
  destruct (Round_near (inject_Z z)) as [Hlo Hhi].
  set (r := Round (inject_Z z)) in *.
  assert (H1 : inject_Z (2 * z - 1) <= inject_Z (2 * r)).
  { unfold Z.sub. rewrite inject_Z_plus, !inject_Z_mult.
    change (inject_Z 2) with 2. change (inject_Z (-1)) with (-(1)).
    setoid_replace (2 * inject_Z z + - (1)) with (2 * (inject_Z z - (1 # 2)))
      by ring.
    apply Qmult_le_l; [reflexivity | exact Hlo]. }
  assert (H2 : inject_Z (2 * r) <= inject_Z (2 * z + 1)).
  { rewrite inject_Z_plus, !inject_Z_mult.
    change (inject_Z 2) with 2. change (inject_Z 1) with 1.
    setoid_replace (2 * inject_Z z + 1) with (2 * (inject_Z z + (1 # 2)))
      by ring.
    apply Qmult_le_l; [reflexivity | exact Hhi]. }
  rewrite <- Zle_Qle in H1, H2. lia.
Qed.

Lemma Round_le (x y : Q) : x <= y -> (Round x <= Round y)%Z.
Proof.
  intros H. unfold Round.
  destruct (Qlt_bool x 0) eqn:Ex, (Qlt_bool y 0) eqn:Ey.
  - apply Qceiling_resp_le. apply Qplus_le_l. exact H.
  - apply Qlt_bool_iff in Ex. apply Qlt_bool_false in Ey.
    apply Z.le_trans with 0%Z.
    + change 0%Z with (Qceiling 0). apply Qceiling_resp_le.
      apply Qle_trans with (0 - (1 # 2)); [| discriminate].
      apply Qplus_le_l. apply Qlt_le_weak, Ex.
    + change 0%Z with (Qfloor 0). apply Qfloor_resp_le.
      apply Qle_trans with (0 + (1 # 2)); [discriminate |].
      apply Qplus_le_l. exact Ey.
  - apply Qlt_bool_iff in Ey. apply Qlt_bool_false in Ex.
    destruct (Qlt_not_le _ _ Ey (Qle_trans _ _ _ Ex H)).
  - apply Qfloor_resp_le. apply Qplus_le_l. exact H.
Qed.

Lemma Round_nonneg (x : Q) : 0 <= x -> (0 <= Round x)%Z.
Proof.
  intros H. change 0%Z with (Round 0). apply Round_le, H.
Qed.

End Rounding.

(** ** PHY timing *)

Section PhyTiming.

Import LoraPhy Examples.

Lemma num_u32_mod (pl s : Z) :
  num_u32 pl s = ((8 * pl - 4 * s + 28) mod 2 ^ 32)%Z.
Proof.
  unfold num_u32, wrap32.
  rewrite Zminus_mod_idemp_l, Zplus_mod_idemp_l. reflexivity.
Qed.

(** The unsigned sum is the mathematical one exactly when the latter fits. *)
Lemma num_u32_exact (pl s : Z) :
  (0 <= 8 * pl - 4 * s + 28 < 2 ^ 32)%Z ->
  num_u32 pl s = (8 * pl - 4 * s + 28)%Z.
Proof. intros H. rewrite num_u32_mod. apply Z.mod_small; exact H. Qed.

Lemma Qmax_inject_Z (a : Z) : Qmax (inject_Z a) 0 == inject_Z (Z.max 0 a).
Proof.
  destruct (Z.le_gt_cases 0 a) as [H | H].
  - rewrite Z.max_r by exact H. apply Q.max_l.
    change 0 with (inject_Z 0). rewrite <- Zle_Qle. exact H.
  - rewrite Z.max_l by lia. apply Q.max_r.
    change 0 with (inject_Z 0). rewrite <- Zle_Qle. lia.
Qed.


Lemma den_inject (s : Z) (d : bool) :
  4 * (inject_Z s - 2 * b2q d) == inject_Z (4 * (s - 2 * b2z d)).
Proof.
  unfold Z.sub.
  rewrite inject_Z_mult, inject_Z_plus, inject_Z_opp, inject_Z_mult.
  destruct d; cbn [b2q b2z];
    change (inject_Z 4) with 4; change (inject_Z 2) with 2;
    change (inject_Z 1) with 1; change (inject_Z 0) with 0; ring.
Qed.

Lemma den_pos (p : LoraTxParameters) :
  (2 * b2z (lowDataRateOptimizationEnabled p) < sf p)%Z ->
  0 < 4 * (inject_Z (sf p) - 2 * b2q (lowDataRateOptimizationEnabled p)).
Proof.
  intros H. rewrite den_inject.
  change 0 with (inject_Z 0). rewrite <- Zlt_Qlt. lia.
Qed.

Lemma den_nonzero (p : LoraTxParameters) :
  sf p <> (2 * b2z (lowDataRateOptimizationEnabled p))%Z ->
  ~ 4 * (inject_Z (sf p) - 2 * b2q (lowDataRateOptimizationEnabled p)) == 0.
Proof.
  intros H E. rewrite den_inject in E.
  change 0 with (inject_Z 0) in E.
  apply (proj1 (inject_Z_injective _ _)) in E. lia.
Qed.

(** With a non-zero denominator the number of payload symbols is finite. *)
Lemma payloadSymbNb_finite (pl : Z) (p : LoraTxParameters) :
  sf p <> (2 * b2z (lowDataRateOptimizationEnabled p))%Z ->
  exists x, payloadSymbNb pl p = Fin x /\ x == payload_symbols pl p.
Proof.
  intros Hden. unfold payloadSymbNb, payload_symbols.
  rewrite (ddiv_nonzero _ _ (den_nonzero p Hden)).
  cbn [dceil dmul].
  destruct (std_max_finite
              (inject_Z
                 (Qceiling
                    ((inject_Z (num_u32 pl (sf p)) + 16 * b2q (crcEnabled p)
                      - 20 * b2q (headerDisabled p))
                     / (4 * (inject_Z (sf p)
                             - 2 * b2q (lowDataRateOptimizationEnabled p)))))
               * inject_Z (codingRate p + 4))) as (y & -> & Hy).
  cbn [dadd]. eexists. split; [reflexivity |]. rewrite Hy. reflexivity.
Qed.

(** The symbol time when the bandwidth is not zero. *)
Lemma GetTSym_value (p : LoraTxParameters) :
  ~ bandwidthHz p == 0 ->
  GetTSym p
  = Some (Round (inject_Z (2 ^ sf p) / bandwidthHz p * 1000000000)).
Proof.
  intros Hbw. unfold GetTSym. rewrite (ddiv_nonzero _ _ Hbw). reflexivity.
Qed.

Lemma GetTSym_nonneg (p : LoraTxParameters) :
  0 < bandwidthHz p -> (0 <= sf p)%Z ->
  exists t, GetTSym p = Some t /\ (0 <= t)%Z.
Proof.
  intros Hb Hs. rewrite GetTSym_value.
  - eexists. split; [reflexivity |]. apply Round_nonneg.
    apply Qmult_le_0_compat; [| discriminate].
    unfold Qdiv. apply Qmult_le_0_compat.
    + change 0 with (inject_Z 0). rewrite <- Zle_Qle.
      apply Z.pow_nonneg. lia.
    + apply Qlt_le_weak, Qinv_lt_0_compat, Hb.
  - intros E. rewrite E in Hb. discriminate Hb.
Qed.

(** The on-air time when the symbol time is defined and the denominator is
    not zero. *)
Lemma GetOnAirTime_value (packet : Packet) (p : LoraTxParameters)
    (t : Time) :
  GetTSym p = Some t ->
  sf p <> (2 * b2z (lowDataRateOptimizationEnabled p))%Z ->
  GetOnAirTime packet p = Some (Round (air_seconds t packet p * 1000000000)).
Proof.
  intros Ht Hden. unfold GetOnAirTime. rewrite Ht.
  destruct (payloadSymbNb_finite (GetSize packet) p Hden) as (x & -> & Hx).
  cbn [dmul dadd Seconds_double]. f_equal. apply Round_comp.
  unfold air_seconds. rewrite Hx. reflexivity.
Qed.

Lemma Time_GetSeconds_nonneg (t : Time) :
  (0 <= t)%Z -> 0 <= Time_GetSeconds t.
Proof.
  intros H. unfold Time_GetSeconds, Qdiv.
  apply Qmult_le_0_compat; [| discriminate].
  change 0 with (inject_Z 0). rewrite <- Zle_Qle. exact H.
Qed.



Lemma Qceiling_div_mono (a b d : Q) :
  0 < d -> a <= b -> (Qceiling (a / d) <= Qceiling (b / d))%Z.
Proof.
  intros Hd Hab. apply Qceiling_resp_le. unfold Qdiv.
  apply Qmult_le_compat_r; [exact Hab |].
  apply Qlt_le_weak, Qinv_lt_0_compat, Hd.
Qed.

Lemma num_u32_mono (pl1 pl2 s : Z) :
  (0 <= 8 * pl1 - 4 * s + 28)%Z -> (8 * pl2 - 4 * s + 28 < 2 ^ 32)%Z ->
  (pl1 <= pl2)%Z -> (num_u32 pl1 s <= num_u32 pl2 s)%Z.
Proof. intros H1 H2 Hle. rewrite !num_u32_exact by lia. lia. Qed.

Lemma payload_symbols_mono (pl1 pl2 : Z) (p : LoraTxParameters) :
  wf_params p ->
  (2 * b2z (lowDataRateOptimizationEnabled p) < sf p)%Z ->
  (0 <= 8 * pl1 - 4 * sf p + 28)%Z -> (8 * pl2 - 4 * sf p + 28 < 2 ^ 32)%Z ->
  (pl1 <= pl2)%Z ->
  payload_symbols pl1 p <= payload_symbols pl2 p.
Proof.
  intros (_ & Hcr & _) Hsf H1 H2 Hle. unfold payload_symbols.
  apply Qplus_le_compat; [apply Qle_refl |].
  apply Q.max_le_compat_r.
  apply Qmult_le_compat_r.
  - rewrite <- Zle_Qle. apply Qceiling_div_mono; [apply den_pos, Hsf |].
    unfold Qminus. apply Qplus_le_compat; [| apply Qle_refl].
    apply Qplus_le_compat; [| apply Qle_refl].
    rewrite <- Zle_Qle. apply num_u32_mono; assumption.
  - change 0 with (inject_Z 0). rewrite <- Zle_Qle.
    unfold is_uint8 in Hcr. lia.
Qed.

(** Two on-air times computed from the same symbol time compare as the
    durations handed to [Seconds] do. *)
Lemma Round_air_seconds_le (t : Time) (packet1 packet2 : Packet)
    (p1 p2 : LoraTxParameters) :
  air_seconds t packet1 p1 <= air_seconds t packet2 p2 ->
  (Round (air_seconds t packet1 p1 * 1000000000)
   <= Round (air_seconds t packet2 p2 * 1000000000))%Z.
Proof.
  intros H. apply Round_le. apply Qmult_le_compat_r; [exact H | discriminate].
Qed.

(** C1 (evaluation at the failing input).  For an empty packet at spreading
    factor 12 (so that sf > 2*lowDataRateOptimization) the unsigned
    expression [8 * pl - 4 * sf + 28] is 2^32 - 20 instead of -20, and
    [GetOnAirTime] returns 14660155.809792 s where preambleTime + payloadTime
    of the claim is 0.663552 s. *)
Theorem C1_GetOnAirTime_wraps_on_small_packet :
  (LoraPhy.sf (params_sf 12)
   > 2 * b2z (lowDataRateOptimizationEnabled (params_sf 12)))%Z
  /\ num_u32 (GetSize (bytes 0)) 12 = (2 ^ 32 - 20)%Z
  /\ Spec.numerator 0 12 true false = (-4)%Z
  /\ GetOnAirTime (bytes 0) (params_sf 12) = Some 14660155809792000%Z
  /\ Time_GetSeconds 14660155809792000 == 229064934528 # 15625
  /\ Spec.OnAirTime_of (bytes 0) (params_sf 12) == 10368 # 15625
  /\ Seconds_double (Fin (Spec.OnAirTime_of (bytes 0) (params_sf 12)))
     = Some 663552000%Z
  /\ GetOnAirTime (bytes 0) (params_sf 12)
     <> Seconds_double (Fin (Spec.OnAirTime_of (bytes 0) (params_sf 12))).
Proof.
  split; [reflexivity |].
  split; [reflexivity |].
  split; [reflexivity |].
  split; [vm_compute; reflexivity |].
  split; [vm_compute; reflexivity |].
  split; [vm_compute; reflexivity |].
  split; [vm_compute; reflexivity |].
  intros H. vm_compute in H. discriminate H.
Qed.

(** C9 (counterexample).  More bytes do not always take strictly longer: at
    spreading factor 7 packets of 10 and 11 bytes both take 0.041216 s, the
    ceiling rounding both to the same number of symbols.  And at spreading
    factor 12 a packet of 3 bytes takes less time than an empty one, whose
    unsigned numerator has wrapped. *)
Lemma C9_counterexample :
  (GetSize (bytes 10) < GetSize (bytes 11))%Z
  /\ GetOnAirTime (bytes 10) (params_sf 7) = Some 41216000%Z
  /\ GetOnAirTime (bytes 11) (params_sf 7) = Some 41216000%Z
  /\ ~ (exists t1 t2,
          GetOnAirTime (bytes 10) (params_sf 7) = Some t1
          /\ GetOnAirTime (bytes 11) (params_sf 7) = Some t2
          /\ (t1 < t2)%Z)
  /\ (GetSize (bytes 0) < GetSize (bytes 3))%Z
  /\ GetOnAirTime (bytes 0) (params_sf 12) = Some 14660155809792000%Z
  /\ GetOnAirTime (bytes 3) (params_sf 12) = Some 827392000%Z
  /\ ~ (exists t1 t2,
          GetOnAirTime (bytes 0) (params_sf 12) = Some t1
          /\ GetOnAirTime (bytes 3) (params_sf 12) = Some t2
          /\ (t1 <= t2)%Z).
Proof.
  assert (E10 : GetOnAirTime (bytes 10) (params_sf 7) = Some 41216000%Z)
    by (vm_compute; reflexivity).
  assert (E11 : GetOnAirTime (bytes 11) (params_sf 7) = Some 41216000%Z)
    by (vm_compute; reflexivity).
  assert (E0 : GetOnAirTime (bytes 0) (params_sf 12)
               = Some 14660155809792000%Z)
    by (vm_compute; reflexivity).
  assert (E3 : GetOnAirTime (bytes 3) (params_sf 12) = Some 827392000%Z)
    by (vm_compute; reflexivity).
  split; [reflexivity |].
  split; [exact E10 |].
  split; [exact E11 |].
  split.
  { intros (t1 & t2 & H1 & H2 & Hlt). rewrite E10 in H1. rewrite E11 in H2.
    injection H1 as <-. injection H2 as <-. lia. }
  split; [reflexivity |].
  split; [exact E0 |].
  split; [exact E3 |].
  intros (t1 & t2 & H1 & H2 & Hle). rewrite E0 in H1. rewrite E3 in H2.
  injection H1 as <-. injection H2 as <-. lia.
Qed.

(** C9 (amended).  With the other parameters fixed, a positive bandwidth and
    sf > 2*lowDataRateOptimization, and for payload sizes at which the
    unsigned sum [8 * pl - 4 * sf + 28] does not wrap, both on-air times are
    defined and a packet with at least as many bytes has an on-air time at
    least as large. *)
Theorem C9_GetOnAirTime_monotone (p1 p2 : Packet) (p : LoraTxParameters) :
  wf_params p -> 0 < bandwidthHz p ->
  (LoraPhy.sf p > 2 * b2z (lowDataRateOptimizationEnabled p))%Z ->
  (0 <= 8 * GetSize p1 - 4 * LoraPhy.sf p + 28)%Z ->
  (8 * GetSize p2 - 4 * LoraPhy.sf p + 28 < 2 ^ 32)%Z ->
  (GetSize p1 <= GetSize p2)%Z ->
  exists t1 t2,
    GetOnAirTime p1 p = Some t1
    /\ GetOnAirTime p2 p = Some t2
    /\ (t1 <= t2)%Z.
Proof.
  intros Hwf Hb Hsf H1 H2 Hle.
  destruct (GetTSym_nonneg p Hb) as (t & Ht & Hpos).
  { destruct Hwf as (Hs & _). apply Hs. }
  assert (Hden : LoraPhy.sf p
                 <> (2 * b2z (lowDataRateOptimizationEnabled p))%Z) by lia.
  exists (Round (air_seconds t p1 p * 1000000000)),
         (Round (air_seconds t p2 p * 1000000000)).
  split; [apply GetOnAirTime_value; assumption |].
  split; [apply GetOnAirTime_value; assumption |].
  apply Round_air_seconds_le. unfold air_seconds.
  apply Qplus_le_compat; [apply Qle_refl |].
  apply Qmult_le_compat_r.
  - apply payload_symbols_mono; try assumption. lia.
  - apply Time_GetSeconds_nonneg, Hpos.
Qed.

(** 10 and 51 bytes at spreading factor 12. *)
Lemma C9_GetOnAirTime_monotone_witness :
  exists t1 t2,
    GetOnAirTime (bytes 10) (params_sf 12) = Some t1
    /\ GetOnAirTime (bytes 51) (params_sf 12) = Some t2
    /\ (t1 <= t2)%Z.
Proof.
  apply (C9_GetOnAirTime_monotone (bytes 10) (bytes 51) (params_sf 12)).
  - unfold wf_params, is_uint8, is_uint32. simpl. lia.
  - reflexivity.
  - simpl. lia.
  - simpl. lia.
  - simpl. lia.
  - simpl. lia.
Defined.

End PhyTiming.

(** ** [std::map] *)

Section StdMapFacts.

Context {V : Type}.
Implicit Types (k : Z) (v : V) (m : StdMap.t V).

Ltac by_key k k' :=
  destruct (Z.ltb_spec k k') as [Hlt | Hge];
  [| destruct (Z.eqb_spec k k') as [Heq | Hne]].

Lemma find_In k m v : StdMap.find k m = Some v -> In (k, v) m.
Proof.
  induction m as [| [k' v'] m IH]; simpl; [discriminate |].
  by_key k k'; intros H.
  - discriminate H.
  - injection H as ->. subst k'. left; reflexivity.
  - right. apply IH, H.
Qed.

(** [insert] on a key that is present changes nothing. *)
Lemma insert_present k v v0 m :
  StdMap.find k m = Some v0 -> StdMap.insert k v m = m.
Proof.
  induction m as [| [k' v'] m IH]; simpl; [discriminate |].
  by_key k k'; intros H.
  - discriminate H.
  - reflexivity.
  - rewrite (IH H). reflexivity.
Qed.

(** [insert] on a key that is absent adds the one entry. *)
Lemma insert_absent k v m :
  StdMap.find k m = None ->
  exists l1 l2, m = l1 ++ l2 /\ StdMap.insert k v m = l1 ++ (k, v) :: l2.
Proof.
  induction m as [| [k' v'] m IH]; simpl.
  - intros _. exists [], []. split; reflexivity.
  - by_key k k'; intros H.
    + exists [], ((k', v') :: m). split; reflexivity.
    + discriminate H.
    + destruct (IH H) as (l1 & l2 & -> & ->).
      exists ((k', v') :: l1), l2. split; reflexivity.
Qed.

Lemma In_insert k v m e :
  In e (StdMap.insert k v m) -> e = (k, v) \/ In e m.
Proof.
  induction m as [| [k' v'] m IH]; simpl.
  - intros [<- | []]. left; reflexivity.
  - by_key k k'; simpl; intros H.
    + destruct H as [<- | H]; [left; reflexivity | right; exact H].
    + right; exact H.
    + destruct H as [<- | H]; [right; left; reflexivity |].
      destruct (IH H) as [-> | Hin]; [left; reflexivity | right; right; exact Hin].
Qed.

Lemma keys_insert_Forall (P : Z -> Prop) k v m :
  P k -> Forall P (StdMap.keys m) -> Forall P (StdMap.keys (StdMap.insert k v m)).
Proof.
  intros Hk. induction m as [| [k' v'] m IH]; simpl; intros H.
  - constructor; [exact Hk | constructor].
  - by_key k k'; simpl.
    + constructor; [exact Hk | exact H].
    + exact H.
    + inversion H; subst. constructor; [assumption | apply IH; assumption].
Qed.

Lemma ascending_insert k v m :
  StdMap.ascending m -> StdMap.ascending (StdMap.insert k v m).
Proof.
  unfold StdMap.ascending.
  induction m as [| [k' v'] m IH]; simpl; intros H.
  - constructor; constructor.
  - by_key k k'; simpl.
    + constructor; [exact H |].
      inversion H as [| ? ? Hs Hall]; subst.
      constructor; [assumption |].
      eapply Forall_impl; [| exact Hall]. simpl. intros; lia.
    + exact H.
    + inversion H as [| ? ? Hs Hall]; subst.
      constructor; [apply IH, Hs |].
      apply keys_insert_Forall; [lia | exact Hall].
Qed.

Lemma keys_update k (f : V -> V) m :
  StdMap.keys (StdMap.update k f m) = StdMap.keys m.
Proof.
  induction m as [| [k' v'] m IH]; simpl; [reflexivity |].
  by_key k k'; simpl; [reflexivity | reflexivity | rewrite IH; reflexivity].
Qed.

Lemma ascending_update k (f : V -> V) m :
  StdMap.ascending m -> StdMap.ascending (StdMap.update k f m).
Proof. unfold StdMap.ascending. rewrite keys_update. trivial. Qed.

Lemma In_update k (f : V -> V) m e :
  In e (StdMap.update k f m) ->
  In e m \/ exists v, In (k, v) m /\ e = (k, f v).
Proof.
  induction m as [| [k' v'] m IH]; simpl; [intros [] |].
  by_key k k'; simpl; intros H.
  - left; exact H.
  - subst k'. destruct H as [<- | H].
    + right. exists v'. split; [left; reflexivity | reflexivity].
    + left; right; exact H.
  - destruct H as [<- | H]; [left; left; reflexivity |].
    destruct (IH H) as [Hin | (v & Hin & ->)].
    + left; right; exact Hin.
    + right. exists v. split; [right; exact Hin | reflexivity].
Qed.

(** Assigning the record its own value changes nothing. *)
Lemma update_fixed k (f : V -> V) m v :
  StdMap.find k m = Some v -> f v = v -> StdMap.update k f m = m.
Proof.
  induction m as [| [k' v'] m IH]; simpl; [discriminate |].
  by_key k k'; intros H Hf.
  - discriminate H.
  - injection H as ->. rewrite Hf. reflexivity.
  - rewrite (IH H Hf). reflexivity.
Qed.

Lemma ascending_NoDup m : StdMap.ascending m -> NoDup (StdMap.keys m).
Proof.
  unfold StdMap.ascending. induction 1 as [| a l Hs IH Hall].
  - constructor.
  - constructor; [| exact IH].
    intros Hin. rewrite Forall_forall in Hall.
    specialize (Hall a Hin). lia.
Qed.

End StdMapFacts.

(** ** Packet outcome tracker: the callbacks *)

Section Callbacks.

Import LoraPacketTracker Examples.
Local Open Scope Z_scope.

Lemma record_outcome_downlink (o : PhyPacketOutcome) (packet : Packet)
    (gwId : Z) (tr : t) :
  IsUplink packet = false -> record_outcome o packet gwId tr = Done tr.
Proof. intros H. unfold record_outcome. rewrite H. reflexivity. Qed.

(** C10.  A packet whose MAC header is not an uplink one leaves the three
    maps as they are in [TransmissionCallback], [MacTransmissionCallback],
    [MacGwReceptionCallback] and the five PHY outcome callbacks. *)
Theorem C10_downlink_leaves_tracker_unchanged (sim : Simulator)
    (packet : Packet) (edId gwId : Z) (tr : t) :
  IsUplink packet = false ->
  TransmissionCallback sim packet edId tr = Done tr
  /\ MacTransmissionCallback sim packet tr = Done tr
  /\ MacGwReceptionCallback sim packet tr = Done tr
  /\ PacketReceptionCallback packet gwId tr = Done tr
  /\ InterferenceCallback packet gwId tr = Done tr
  /\ NoMoreReceiversCallback packet gwId tr = Done tr
  /\ UnderSensitivityCallback packet gwId tr = Done tr
  /\ LostBecauseTxCallback packet gwId tr = Done tr.
Proof.
  intros H.
  unfold TransmissionCallback, MacTransmissionCallback,
    MacGwReceptionCallback.
  rewrite H.
  repeat split; try reflexivity; apply record_outcome_downlink, H.
Qed.

(** A downlink packet offered to a tracker that holds one record. *)
Lemma C10_downlink_leaves_tracker_unchanged_witness :
  TransmissionCallback (at_time 20 5) downlink 5 received_at_gw1
    = Done received_at_gw1
  /\ MacTransmissionCallback (at_time 20 5) downlink received_at_gw1
    = Done received_at_gw1
  /\ MacGwReceptionCallback (at_time 20 5) downlink received_at_gw1
    = Done received_at_gw1
  /\ PacketReceptionCallback downlink 1 received_at_gw1
    = Done received_at_gw1
  /\ InterferenceCallback downlink 1 received_at_gw1 = Done received_at_gw1
  /\ NoMoreReceiversCallback downlink 1 received_at_gw1
    = Done received_at_gw1
  /\ UnderSensitivityCallback downlink 1 received_at_gw1
    = Done received_at_gw1
  /\ LostBecauseTxCallback downlink 1 received_at_gw1 = Done received_at_gw1.
Proof.
  apply (C10_downlink_leaves_tracker_unchanged (at_time 20 5) downlink 5 1
           received_at_gw1).
  reflexivity.
Defined.

(** An outcome for an uplink packet that has no record: the MAC callback
    aborts, the PHY callbacks dereference [end ()]. *)
Lemma MacGwReceptionCallback_unknown (sim : Simulator) (packet : Packet)
    (tr : t) :
  IsUplink packet = true ->
  StdMap.find (pkt_addr packet) (m_macPacketTracker tr) = None ->
  MacGwReceptionCallback sim packet tr = Abort "Packet not found in tracker".
Proof.
  intros Hup Hnone. unfold MacGwReceptionCallback.
  rewrite Hup, Hnone. reflexivity.
Qed.

Lemma record_outcome_unknown (o : PhyPacketOutcome) (packet : Packet)
    (gwId : Z) (tr : t) :
  IsUplink packet = true ->
  StdMap.find (pkt_addr packet) (m_packetTracker tr) = None ->
  record_outcome o packet gwId tr = Undefined.
Proof.
  intros Hup Hnone. unfold record_outcome. rewrite Hup, Hnone. reflexivity.
Qed.

(** C3 (evaluation at the failing input).  Nothing has been transmitted and
    an outcome for an uplink packet arrives at gateway 1:
    [MacGwReceptionCallback] aborts with its message, while each of the five
    PHY callbacks goes on to use the iterator [find] returned, which is
    [end ()]; none of them reports the unknown packet. *)
Theorem C3_phy_outcome_for_unknown_packet :
  IsUplink uplink = true
  /\ StdMap.find (pkt_addr uplink) (m_packetTracker empty) = None
  /\ MacGwReceptionCallback (at_time 10 1) uplink empty
     = Abort "Packet not found in tracker"
  /\ PacketReceptionCallback uplink 1 empty = Undefined
  /\ InterferenceCallback uplink 1 empty = Undefined
  /\ NoMoreReceiversCallback uplink 1 empty = Undefined
  /\ UnderSensitivityCallback uplink 1 empty = Undefined
  /\ LostBecauseTxCallback uplink 1 empty = Undefined.
Proof. repeat split. Qed.

End Callbacks.

(** ** Packet outcome tracker: reachable states *)

Section Reachable.

Import LoraPacketTracker Examples.
Local Open Scope Z_scope.

Lemma phy_ordered_empty : phy_ordered empty.
Proof.
  split; [constructor | intros k s []].
Qed.

Lemma phy_ordered_record_outcome (o : PhyPacketOutcome) (packet : Packet)
    (gwId : Z) (tr tr' : t) :
  phy_ordered tr -> record_outcome o packet gwId tr = Done tr' ->
  phy_ordered tr'.
Proof.
  intros [Hm Hs] H. unfold record_outcome in H.
  destruct (IsUplink packet); [| injection H as <-; split; assumption].
  destruct (StdMap.find _ _); [| discriminate H].
  injection H as <-. split; simpl.
  - apply ascending_update, Hm.
  - intros k s Hin. apply In_update in Hin.
    destruct Hin as [Hin | (s0 & Hin & Heq)].
    + apply (Hs k s Hin).
    + injection Heq as -> ->. simpl.
      apply ascending_insert, (Hs _ _ Hin).
Qed.

Lemma phy_ordered_dispatch (sim : Simulator) (ev : Event) (tr tr' : t) :
  phy_ordered tr -> dispatch sim ev tr = Done tr' -> phy_ordered tr'.
Proof.
  intros Hinv H.
  destruct ev; simpl in H;
    try (eapply phy_ordered_record_outcome; [exact Hinv | exact H]).
  - unfold MacTransmissionCallback in H.
    destruct (IsUplink packet); injection H as <-; exact Hinv.
  - unfold RequiredTransmissionsCallback in H. injection H as <-. exact Hinv.
  - unfold MacGwReceptionCallback in H.
    destruct (IsUplink packet); [| injection H as <-; exact Hinv].
    destruct (StdMap.find _ _); [| discriminate H].
    injection H as <-. exact Hinv.
  - unfold TransmissionCallback in H.
    destruct (IsUplink packet); [| injection H as <-; exact Hinv].
    injection H as <-. destruct Hinv as [Hm Hs]. split; simpl.
    + apply ascending_insert, Hm.
    + intros k s Hin. apply In_insert in Hin. destruct Hin as [Heq | Hin].
      * injection Heq as -> ->. constructor.
      * apply (Hs k s Hin).
Qed.

Lemma reachable_phy_ordered (now : Time) (tr : t) :
  reachable now tr -> phy_ordered tr.
Proof.
  induction 1 as [| now tr sim ev tr' _ IH _ Hstep].
  - apply phy_ordered_empty.
  - apply (phy_ordered_dispatch sim ev tr tr' IH Hstep).
Qed.

(** A second outcome for a pair that has one returns with the tracker as it
    was. *)
Lemma record_outcome_again (o o0 : PhyPacketOutcome) (packet : Packet)
    (gwId : Z) (s : PacketStatus.t) (tr : t) :
  IsUplink packet = true ->
  StdMap.find (pkt_addr packet) (m_packetTracker tr) = Some s ->
  StdMap.find (int_of_uint32 gwId) (PacketStatus.outcomes s) = Some o0 ->
  record_outcome o packet gwId tr = Done tr.
Proof.
  intros Hup Hs Ho. unfold record_outcome. rewrite Hup, Hs.
  rewrite (update_fixed _ _ _ s Hs).
  - destruct tr; reflexivity.
  - unfold PacketStatus.set_outcomes.
    rewrite (insert_present _ _ o0 _ Ho). destruct s; reflexivity.
Qed.

Lemma reachable_received_at_gw1 : reachable 10 received_at_gw1.
Proof.
  apply (reachable_step 0 (phy_state []) (at_time 10 1)
           (EvPacketReception uplink 1)).
  - apply (reachable_step 0 empty (at_time 0 5) (EvTransmission uplink 5)).
    + constructor.
    + unfold Time_Max; simpl; lia.
    + reflexivity.
  - unfold Time_Max; simpl; lia.
  - reflexivity.
Qed.

(** The second component of a callback with its log is the callback. *)
Lemma record_outcome_log_result (o : PhyPacketOutcome) (packet : Packet)
    (gwId : Z) (tr : t) :
  snd (record_outcome_log o packet gwId tr) = record_outcome o packet gwId tr.
Proof.
  unfold record_outcome_log, record_outcome.
  destruct (IsUplink packet); reflexivity.
Qed.

(** A call that logs the line of [IsUplink] and its information line, and
    returns, has not rejected anything. *)
Lemma info_line_is_no_rejection (pieces : list LogPiece) (tr : t) :
  ~ rejected_as_protocol_error
      ([IsUplink_log; mkLog LOG_INFO pieces], Done tr).
Proof.
  intros [(msg & H) | (line & Hin & Hlevel)].
  - discriminate H.
  - destruct Hin as [<- | [<- | []]];
      destruct Hlevel as [H | H]; discriminate H.
Qed.

(** What a second outcome for a pair that has one does and logs. *)
Lemma record_outcome_log_again (o o0 : PhyPacketOutcome) (packet : Packet)
    (gwId : Z) (s : PacketStatus.t) (tr : t) :
  IsUplink packet = true ->
  StdMap.find (pkt_addr packet) (m_packetTracker tr) = Some s ->
  StdMap.find (int_of_uint32 gwId) (PacketStatus.outcomes s) = Some o0 ->
  record_outcome_log o packet gwId tr
  = ([IsUplink_log;
      mkLog LOG_INFO
        [LogText "PHY packet "; LogPtr (pkt_addr packet);
         LogText (outcome_text o); LogNum gwId]],
     Done tr).
Proof.
  intros Hup Hs Ho. unfold record_outcome_log. rewrite Hup.
  rewrite (record_outcome_again o o0 packet gwId s tr Hup Hs Ho).
  reflexivity.
Qed.

(** C4 (counterexample).  Gateway 1 has recorded RECEIVED for the packet;
    the interference event that follows for the same pair is not rejected as
    an error: [InterferenceCallback] returns normally, and all it logs, after
    the function line of [IsUplink], is the information line "PHY packet ...
    was interfered at gateway 1", the very lines it logs when the event is
    accepted. *)
Lemma C4_counterexample :
  reachable 10 received_at_gw1
  /\ StdMap.find (pkt_addr uplink) (m_packetTracker received_at_gw1)
     = Some (status_of [(1, RECEIVED)])
  /\ StdMap.find (int_of_uint32 1) [(1, RECEIVED)] = Some RECEIVED
  /\ InterferenceCallback uplink 1 received_at_gw1 = Done received_at_gw1
  /\ record_outcome_log INTERFERED uplink 1 received_at_gw1
     = ([IsUplink_log;
         mkLog LOG_INFO
           [LogText "PHY packet "; LogPtr 100;
            LogText " was interfered at gateway "; LogNum 1]],
        Done received_at_gw1)
  /\ ~ rejected_as_protocol_error
         (record_outcome_log INTERFERED uplink 1 received_at_gw1)
  /\ record_outcome_log INTERFERED uplink 1 (phy_state [])
     = (fst (record_outcome_log INTERFERED uplink 1 received_at_gw1),
        Done (phy_state [(1, INTERFERED)])).
Proof.
  split; [apply reachable_received_at_gw1 |].
  split; [reflexivity |].
  split; [reflexivity |].
  split; [reflexivity |].
  split; [reflexivity |].
  split; [apply info_line_is_no_rejection | reflexivity].
Qed.

(** C4 (amended).  In every reachable state a packet has one record and a
    record has at most one outcome per gateway; once a (packet, gateway) pair
    has an outcome, a later outcome event for that pair is silently ignored:
    the callback returns normally and leaves the tracker, and so the recorded
    outcome, unchanged; it raises no error and logs none, its log lines being
    the function line of [IsUplink] and the information line it writes for
    any uplink packet, whatever the tracker holds. *)
Theorem C4_outcome_is_write_once (now : Time) (tr : t) :
  reachable now tr ->
  NoDup (StdMap.keys (m_packetTracker tr))
  /\ (forall k s, In (k, s) (m_packetTracker tr) ->
        NoDup (StdMap.keys (PacketStatus.outcomes s)))
  /\ (forall packet gwId s o0 o,
        IsUplink packet = true ->
        StdMap.find (pkt_addr packet) (m_packetTracker tr) = Some s ->
        StdMap.find (int_of_uint32 gwId) (PacketStatus.outcomes s) = Some o0 ->
        record_outcome o packet gwId tr = Done tr
        /\ record_outcome_log o packet gwId tr
           = ([IsUplink_log;
               mkLog LOG_INFO
                 [LogText "PHY packet "; LogPtr (pkt_addr packet);
                  LogText (outcome_text o); LogNum gwId]],
              Done tr)
        /\ ~ rejected_as_protocol_error (record_outcome_log o packet gwId tr)
        /\ forall tr0,
             fst (record_outcome_log o packet gwId tr0)
             = fst (record_outcome_log o packet gwId tr)).
Proof.
  intros Hr. destruct (reachable_phy_ordered now tr Hr) as [Hm Hs].
  split; [apply ascending_NoDup, Hm |].
  split.
  - intros k s Hin. apply ascending_NoDup, (Hs k s Hin).
  - intros packet gwId s o0 o Hup Hfind Hgw.
    split; [apply (record_outcome_again o o0 packet gwId s tr); assumption |].
    rewrite (record_outcome_log_again o o0 packet gwId s tr Hup Hfind Hgw).
    split; [reflexivity |].
    split; [apply info_line_is_no_rejection |].
    intros tr0. unfold record_outcome_log. rewrite Hup. reflexivity.
Qed.

(** The state reached when gateway 1 has received the packet, and an
    interference event for the same pair. *)
Lemma C4_outcome_is_write_once_witness :
  NoDup (StdMap.keys (m_packetTracker received_at_gw1))
  /\ NoDup (StdMap.keys (PacketStatus.outcomes (status_of [(1, RECEIVED)])))
  /\ InterferenceCallback uplink 1 received_at_gw1 = Done received_at_gw1
  /\ ~ rejected_as_protocol_error
         (record_outcome_log INTERFERED uplink 1 received_at_gw1).
Proof.
  destruct (C4_outcome_is_write_once 10 received_at_gw1
              reachable_received_at_gw1) as (Hrecords & Houtcomes & Honce).
  split; [exact Hrecords |].
  split; [apply (Houtcomes 100); left; reflexivity |].
  destruct (Honce uplink 1 (status_of [(1, RECEIVED)]) RECEIVED INTERFERED)
    as (Hdone & _ & Hnot & _); try reflexivity.
  split; [exact Hdone | exact Hnot].
Defined.

End Reachable.

(** ** Packet outcome tracker: earliest reception time *)

Section EarliestReception.

Import LoraPacketTracker Examples.
Local Open Scope Z_scope.

Lemma fold_left_min (T : Z) (vs : list Z) (v : Z) :
  v <= T -> Forall (fun x => x <= T) vs ->
  fold_left Z.min vs v = Z.min v (fold_right Z.min T vs).
Proof.
  revert v. induction vs as [| a vs IH]; simpl; intros v Hv Hall.
  - lia.
  - inversion Hall; subst. rewrite IH by (assumption || lia). lia.
Qed.

(** With every time bounded by [Time_Max], [earliest] is the minimum of the
    recorded times and [Time_Max]. *)
Lemma earliest_fold (m : StdMap.t Time) :
  Forall (fun x => x <= Time_Max) (StdMap.values m) ->
  earliest m = fold_right Z.min Time_Max (StdMap.values m).
Proof.
  unfold earliest. destruct (StdMap.values m) as [| v vs]; intros Hall.
  - reflexivity.
  - inversion Hall; subst. simpl. apply fold_left_min; assumption.
Qed.

Lemma fold_min_middle (T x : Z) (l1 l2 : list Z) :
  fold_right Z.min T (l1 ++ x :: l2)
  = Z.min x (fold_right Z.min T (l1 ++ l2)).
Proof. induction l1 as [| a l1 IH]; simpl; [reflexivity | lia]. Qed.

Lemma fold_min_le (T : Z) (l : list Z) (x : Z) :
  In x l -> fold_right Z.min T l <= x.
Proof.
  induction l as [| a l IH]; simpl; [intros [] |].
  intros [-> | Hin]; [lia | specialize (IH Hin); lia].
Qed.

Lemma Forall_le_trans (a b : Z) (l : list Z) :
  a <= b -> Forall (fun x => x <= a) l -> Forall (fun x => x <= b) l.
Proof.
  intros Hab. apply Forall_impl. intros x Hx. lia.
Qed.

(** A reception at clock value [Now sim] keeps a MAC record timely. *)
Lemma record_reception_timely (now : Time) (sim : Simulator)
    (s : MacPacketStatus.t) :
  now <= Now sim <= Time_Max ->
  Forall (fun tm => tm <= now)
    (StdMap.values (MacPacketStatus.receptionTimes s)) ->
  MacPacketStatus.receivedTime s
  = earliest (MacPacketStatus.receptionTimes s) ->
  let s' := record_reception sim s in
  Forall (fun tm => tm <= Now sim)
    (StdMap.values (MacPacketStatus.receptionTimes s'))
  /\ MacPacketStatus.receivedTime s'
     = earliest (MacPacketStatus.receptionTimes s').
Proof.
  intros Hnow Hall Hmin. simpl.
  set (g := int_of_uint32 (GetContext sim)).
  set (times := MacPacketStatus.receptionTimes s) in *.
  assert (Hall' : Forall (fun tm => tm <= Now sim) (StdMap.values times)).
  { apply (Forall_le_trans now); [lia | exact Hall]. }
  assert (Hmax : Forall (fun tm => tm <= Time_Max) (StdMap.values times)).
  { apply (Forall_le_trans now); [lia | exact Hall]. }
  rewrite (earliest_fold _ Hmax) in Hmin.
  destruct (StdMap.find g times) as [tm |] eqn:Hfind.
  - (* the gateway has an entry: the insertion is ignored *)
    rewrite (insert_present _ _ tm _ Hfind).
    split; [exact Hall' |].
    rewrite (earliest_fold _ Hmax).
    assert (Hin : In tm (StdMap.values times)).
    { apply find_In in Hfind.
      apply (in_map snd) in Hfind. exact Hfind. }
    pose proof (fold_min_le Time_Max _ _ Hin) as Hle.
    rewrite Forall_forall in Hall. specialize (Hall tm Hin).
    destruct (Z.ltb_spec (Now sim) (MacPacketStatus.receivedTime s));
      [lia | exact Hmin].
  - (* a new gateway: its time joins the map *)
    destruct (insert_absent g (Now sim) times Hfind)
      as (l1 & l2 & Heq & Hins).
    rewrite Hins. unfold StdMap.values in *.
    rewrite Heq in Hall', Hmax, Hmin.
    rewrite map_app in Hall', Hmax, Hmin.
    assert (Hall2 : Forall (fun tm => tm <= Now sim)
                      (map snd (l1 ++ (g, Now sim) :: l2))).
    { rewrite map_app. simpl. apply Forall_app in Hall'.
      destruct Hall' as [H1 H2]. apply Forall_app. split; [exact H1 |].
      constructor; [lia | exact H2]. }
    split; [exact Hall2 |].
    rewrite earliest_fold.
    + unfold StdMap.values. rewrite map_app. simpl.
      rewrite fold_min_middle.
      destruct (Z.ltb_spec (Now sim) (MacPacketStatus.receivedTime s));
        lia.
    + apply (Forall_le_trans (Now sim)); [lia | exact Hall2].
Qed.

Lemma mac_timely_empty : mac_timely 0 empty.
Proof.
  split; [unfold Time_Max; lia | intros k s []].
Qed.

Lemma mac_timely_later (now now' : Time) (tr : t) :
  now <= now' <= Time_Max -> mac_timely now tr -> mac_timely now' tr.
Proof.
  intros Hle [_ Hrec]. split; [lia |].
  intros k s Hin. destruct (Hrec k s Hin) as [Hall Hmin].
  split; [apply (Forall_le_trans now); [lia | exact Hall] | exact Hmin].
Qed.

Lemma mac_timely_MacGwReception (now : Time) (sim : Simulator)
    (packet : Packet) (tr tr' : t) :
  now <= Now sim <= Time_Max -> mac_timely now tr ->
  MacGwReceptionCallback sim packet tr = Done tr' ->
  mac_timely (Now sim) tr'.
Proof.
  intros Hnow Hinv H. unfold MacGwReceptionCallback in H.
  destruct (IsUplink packet);
    [| injection H as <-; apply (mac_timely_later now); assumption].
  destruct (StdMap.find _ _); [| discriminate H].
  injection H as <-. split; [lia |]. simpl.
  intros k s Hin. apply In_update in Hin.
  destruct Hin as [Hin | (s0 & Hin & Heq)].
  - destruct (mac_timely_later now (Now sim) tr Hnow Hinv) as [_ Hrec].
    apply (Hrec k s Hin).
  - injection Heq as -> ->. destruct Hinv as [_ Hrec].
    destruct (Hrec _ _ Hin) as [Hall Hmin].
    apply (record_reception_timely now sim s0 Hnow Hall Hmin).
Qed.

Lemma mac_timely_dispatch (now : Time) (sim : Simulator) (ev : Event)
    (tr tr' : t) :
  now <= Now sim <= Time_Max -> mac_timely now tr ->
  dispatch sim ev tr = Done tr' -> mac_timely (Now sim) tr'.
Proof.
  intros Hnow Hinv H.
  pose proof (mac_timely_later now (Now sim) tr Hnow Hinv) as Hlater.
  destruct ev; simpl in H;
    try (unfold PacketReceptionCallback, InterferenceCallback,
           NoMoreReceiversCallback, UnderSensitivityCallback,
           LostBecauseTxCallback, record_outcome in H;
         destruct (IsUplink packet); [| injection H as <-; exact Hlater];
         destruct (StdMap.find _ _); [| discriminate H];
         injection H as <-; exact Hlater).
  - unfold MacTransmissionCallback in H.
    destruct (IsUplink packet); [| injection H as <-; exact Hlater].
    injection H as <-. split; [lia |]. simpl.
    intros k s Hin. apply In_insert in Hin. destruct Hin as [Heq | Hin].
    + injection Heq as -> ->. split; [constructor | reflexivity].
    + destruct Hlater as [_ Hrec]. apply (Hrec k s Hin).
  - unfold RequiredTransmissionsCallback in H. injection H as <-.
    exact Hlater.
  - apply (mac_timely_MacGwReception now sim packet tr tr' Hnow Hinv H).
  - unfold TransmissionCallback in H.
    destruct (IsUplink packet); injection H as <-; exact Hlater.
Qed.

Lemma reachable_mac_timely (now : Time) (tr : t) :
  reachable now tr -> mac_timely now tr.
Proof.
  induction 1 as [| now tr sim ev tr' _ IH Hnow Hstep].
  - apply mac_timely_empty.
  - apply (mac_timely_dispatch now sim ev tr tr' Hnow IH Hstep).
Qed.

Lemma reachable_mac_two_gateways : reachable 12 mac_two_gateways.
Proof.
  apply (reachable_step 10
           (mk [] [(100, MacPacketStatus.mk uplink 0 5 10 [(2, 10)])] [])
           (at_time 12 1) (EvMacGwReception uplink)).
  - apply (reachable_step 0
             (mk [] [(100, MacPacketStatus.mk uplink 0 5 Time_Max [])] [])
             (at_time 10 2) (EvMacGwReception uplink)).
    + apply (reachable_step 0 empty (at_time 0 5)
               (EvMacTransmission uplink)).
      * constructor.
      * unfold Time_Max; simpl; lia.
      * reflexivity.
    + unfold Time_Max; simpl; lia.
    + reflexivity.
  - unfold Time_Max; simpl; lia.
  - reflexivity.
Qed.

(** C7.  In every state the tracker reaches, each MAC record's
    [receivedTime] is the minimum of the times in its [receptionTimes] map,
    or [Time::Max ()] when the map is empty; and a gateway reception, from
    whichever gateway it comes, leads to a state where this holds again. *)
Theorem C7_receivedTime_is_earliest (now : Time) (tr : t) :
  reachable now tr ->
  (forall k s, In (k, s) (m_macPacketTracker tr) ->
     MacPacketStatus.receivedTime s
     = earliest (MacPacketStatus.receptionTimes s))
  /\ (forall sim packet tr',
        now <= Now sim <= Time_Max ->
        MacGwReceptionCallback sim packet tr = Done tr' ->
        forall k s, In (k, s) (m_macPacketTracker tr') ->
          MacPacketStatus.receivedTime s
          = earliest (MacPacketStatus.receptionTimes s)).
Proof.
  intros Hr. pose proof (reachable_mac_timely now tr Hr) as Hinv. split.
  - intros k s Hin. destruct Hinv as [_ Hrec]. apply (Hrec k s Hin).
  - intros sim packet tr' Hnow Hstep k s Hin.
    destruct (mac_timely_MacGwReception now sim packet tr tr' Hnow Hinv Hstep)
      as [_ Hrec].
    apply (Hrec k s Hin).
Qed.

(** Gateway 2 heard the packet at time 10 and gateway 1 at time 12; gateway 3
    then hears it at time 15. *)
Lemma C7_receivedTime_is_earliest_witness :
  (10 = earliest [(1, 12); (2, 10)])
  /\ (10 = earliest [(1, 12); (2, 10); (3, 15)]).
Proof.
  destruct (C7_receivedTime_is_earliest 12 mac_two_gateways
              reachable_mac_two_gateways) as [Hnow Hnext].
  split.
  - apply (Hnow 100 (MacPacketStatus.mk uplink 0 5 10 [(1, 12); (2, 10)])).
    left. reflexivity.
  - apply (Hnext (at_time 15 3) uplink
             (mk [] [(100, MacPacketStatus.mk uplink 0 5 10
                             [(1, 12); (2, 10); (3, 15)])] [])
             ltac:(unfold Time_Max; simpl; lia) eq_refl 100
             (MacPacketStatus.mk uplink 0 5 10 [(1, 12); (2, 10); (3, 15)])).
    left. reflexivity.
Defined.

End EarliestReception.

(** ** Packet outcome tracker: per-gateway counters *)

Section PerGateway.

Import LoraPacketTracker Examples.
Local Open Scope Z_scope.

Variables (startTime stopTime : Time) (gwId : Z).

(** The records the six counters stand for. *)
Let sent := tally (in_interval startTime stopTime).
Let with_outcome (o : PhyPacketOutcome) :=
  tally (fun s => in_interval startTime stopTime s && outcome_at gwId o s).

Lemma tally_nil (P : PacketStatus.t -> bool) : tally P [] = 0.
Proof. reflexivity. Qed.

Lemma tally_cons (P : PacketStatus.t -> bool) (e : Z * PacketStatus.t)
    (records : StdMap.t PacketStatus.t) :
  tally P (e :: records) = (if P (snd e) then 1 else 0) + tally P records.
Proof.
  unfold tally, StdMap.values. cbn [map filter].
  destruct (P (snd e)); cbn [List.length]; lia.
Qed.

Lemma outcome_at_Some (g : Z) (o o' : PhyPacketOutcome) (s : PacketStatus.t) :
  StdMap.find g (PacketStatus.outcomes s) = Some o' ->
  outcome_at g o s = outcome_eqb o' o.
Proof. intros H. unfold outcome_at. rewrite H. reflexivity. Qed.

Lemma outcome_at_None (g : Z) (o : PhyPacketOutcome) (s : PacketStatus.t) :
  StdMap.find g (PacketStatus.outcomes s) = None -> outcome_at g o s = false.
Proof. intros H. unfold outcome_at. rewrite H. reflexivity. Qed.

(** Two vectors of integers are equal cell by cell. *)
Ltac list_eq := repeat (apply (f_equal2 cons); [lia |]); reflexivity.

Lemma tally_nonneg (P : PacketStatus.t -> bool)
    (records : StdMap.t PacketStatus.t) : 0 <= tally P records.
Proof. unfold tally. lia. Qed.

(** The loop of [CountPhyPacketsPerGw] adds, to each of the six cells, the
    number of records the cell stands for. *)
Lemma count_loop (records : StdMap.t PacketStatus.t) (c0 c1 c2 c3 c4 c5 : Z) :
  fold_left (count_step startTime stopTime gwId) records
    [c0; c1; c2; c3; c4; c5]
  = [c0 + sent records;
     c1 + with_outcome RECEIVED records;
     c2 + with_outcome INTERFERED records;
     c3 + with_outcome NO_MORE_RECEIVERS records;
     c4 + with_outcome UNDER_SENSITIVITY records;
     c5 + with_outcome LOST_BECAUSE_TX records].
Proof.
  subst sent with_outcome.
  revert c0 c1 c2 c3 c4 c5.
  induction records as [| e records IH]; intros c0 c1 c2 c3 c4 c5.
  - simpl fold_left. rewrite !tally_nil, !Z.add_0_r. reflexivity.
  - simpl fold_left. rewrite !tally_cons. cbv beta. unfold count_step.
    destruct (in_interval startTime stopTime (snd e)).
    + destruct (StdMap.find gwId (PacketStatus.outcomes (snd e)))
        as [o |] eqn:Hfind;
        [rewrite !(outcome_at_Some _ _ _ _ Hfind); destruct o
        | rewrite !(outcome_at_None _ _ _ Hfind)];
        cbn [incr_at outcome_eqb andb]; rewrite IH; list_eq.
    + cbn [andb]. rewrite IH. list_eq.
Qed.

(** The loop of [PrintPhyPacketsPerGw] differs in its last two cells. *)
Lemma print_loop (records : StdMap.t PacketStatus.t) (c0 c1 c2 c3 c4 c5 : Z) :
  fold_left (print_step startTime stopTime gwId) records
    [c0; c1; c2; c3; c4; c5]
  = [c0 + sent records;
     c1 + with_outcome RECEIVED records;
     c2 + with_outcome INTERFERED records;
     c3 + with_outcome NO_MORE_RECEIVERS records;
     c4 + with_outcome LOST_BECAUSE_TX records;
     c5 + with_outcome UNDER_SENSITIVITY records].
Proof.
  subst sent with_outcome.
  revert c0 c1 c2 c3 c4 c5.
  induction records as [| e records IH]; intros c0 c1 c2 c3 c4 c5.
  - simpl fold_left. rewrite !tally_nil, !Z.add_0_r. reflexivity.
  - simpl fold_left. rewrite !tally_cons. cbv beta. unfold print_step.
    destruct (in_interval startTime stopTime (snd e)).
    + destruct (StdMap.find gwId (PacketStatus.outcomes (snd e)))
        as [o |] eqn:Hfind;
        [rewrite !(outcome_at_Some _ _ _ _ Hfind); destruct o
        | rewrite !(outcome_at_None _ _ _ Hfind)];
        cbn [incr_at outcome_eqb andb]; rewrite IH; list_eq.
    + cbn [andb]. rewrite IH. list_eq.
Qed.

(** A record is counted under at most one outcome. *)
Lemma outcomes_le_sent (records : StdMap.t PacketStatus.t) :
  with_outcome RECEIVED records + with_outcome INTERFERED records
  + with_outcome NO_MORE_RECEIVERS records
  + with_outcome UNDER_SENSITIVITY records
  + with_outcome LOST_BECAUSE_TX records
  <= sent records.
Proof.
  subst sent with_outcome.
  induction records as [| e records IH].
  - rewrite !tally_nil. lia.
  - rewrite !tally_cons. cbv beta.
    destruct (in_interval startTime stopTime (snd e)); cbn [andb];
      [| lia].
    destruct (StdMap.find gwId (PacketStatus.outcomes (snd e)))
      as [o |] eqn:Hfind;
      [rewrite !(outcome_at_Some _ _ _ _ Hfind); destruct o
      | rewrite !(outcome_at_None _ _ _ Hfind)];
      cbn [outcome_eqb]; lia.
Qed.

End PerGateway.

Section PerGatewayClaims.

Import LoraPacketTracker Examples.
Local Open Scope Z_scope.

(** C8.  [CountPhyPacketsPerGw] returns six counters; the first is the
    number of PHY records with startTime <= sendTime <= stopTime, each of the
    other five is the number of those records whose outcome at the gateway is
    the one the counter stands for (so a record with no entry, or an UNSET
    entry, for the gateway is counted in the first only), and the five
    together do not exceed the first. *)
Theorem C8_outcome_counters_bounded_by_sent (startTime stopTime : Time)
    (gwId : Z) (tr : t) :
  let in_range := in_interval startTime stopTime in
  let counted o :=
    tally (fun s => in_range s && outcome_at gwId o s) (m_packetTracker tr) in
  exists sent received interfered noMoreReceivers underSensitivity
         lostBecauseTx,
    CountPhyPacketsPerGw startTime stopTime gwId tr
    = [sent; received; interfered; noMoreReceivers; underSensitivity;
       lostBecauseTx]
    /\ sent
       = Z.of_nat
           (List.length
              (filter (fun s => (startTime <=? PacketStatus.sendTime s)
                                && (PacketStatus.sendTime s <=? stopTime))
                 (StdMap.values (m_packetTracker tr))))
    /\ received = counted RECEIVED
    /\ interfered = counted INTERFERED
    /\ noMoreReceivers = counted NO_MORE_RECEIVERS
    /\ underSensitivity = counted UNDER_SENSITIVITY
    /\ lostBecauseTx = counted LOST_BECAUSE_TX
    /\ received + interfered + noMoreReceivers + underSensitivity
       + lostBecauseTx <= sent.
Proof.
  intros in_range counted. unfold CountPhyPacketsPerGw. simpl repeat.
  rewrite count_loop. simpl Z.add.
  eexists _, _, _, _, _, _. split; [reflexivity |].
  repeat (split; [reflexivity |]).
  apply outcomes_le_sent.
Qed.

(** What [PrintPhyPacketsPerGw] prints is the vector of
    [CountPhyPacketsPerGw] with its last two entries exchanged. *)
Lemma PrintPhyPacketsPerGw_swaps (startTime stopTime : Time) (gwId : Z)
    (tr : t) :
  exists c0 c1 c2 c3 c4 c5,
    CountPhyPacketsPerGw startTime stopTime gwId tr = [c0; c1; c2; c3; c4; c5]
    /\ PrintPhyPacketsPerGw startTime stopTime gwId tr
       = render [c0; c1; c2; c3; c5; c4].
Proof.
  unfold PrintPhyPacketsPerGw, print_counts, CountPhyPacketsPerGw.
  simpl repeat. rewrite count_loop, print_loop.
  eexists _, _, _, _, _, _. split; reflexivity.
Qed.

Lemma reachable_under_sensitivity_at_gw1 :
  reachable 10 under_sensitivity_at_gw1.
Proof.
  apply (reachable_step 0 (phy_state []) (at_time 10 1)
           (EvUnderSensitivity uplink 1)).
  - apply (reachable_step 0 empty (at_time 0 5) (EvTransmission uplink 5)).
    + constructor.
    + unfold Time_Max; simpl; lia.
    + reflexivity.
  - unfold Time_Max; simpl; lia.
  - reflexivity.
Qed.

(** C6 (evaluation at the failing input).  One packet sent at time 0 and
    lost under sensitivity at gateway 1: [CountPhyPacketsPerGw] returns
    1 0 0 0 1 0, with the loss fifth as its comment says, and
    [PrintPhyPacketsPerGw], under the same comment, prints 1 0 0 0 0 1. *)
Theorem C6_print_and_count_disagree :
  reachable 10 under_sensitivity_at_gw1
  /\ CountPhyPacketsPerGw 0 100 1 under_sensitivity_at_gw1
     = [1; 0; 0; 0; 1; 0]
  /\ PrintPhyPacketsPerGw 0 100 1 under_sensitivity_at_gw1
     = "1 0 0 0 0 1 "%string
  /\ render (CountPhyPacketsPerGw 0 100 1 under_sensitivity_at_gw1)
     = "1 0 0 0 1 0 "%string
  /\ PrintPhyPacketsPerGw 0 100 1 under_sensitivity_at_gw1
     <> render (CountPhyPacketsPerGw 0 100 1 under_sensitivity_at_gw1).
Proof.
  split; [apply reachable_under_sensitivity_at_gw1 |].
  split; [reflexivity |].
  split; [reflexivity |].
  split; [reflexivity |].
  vm_compute. discriminate.
Qed.

End PerGatewayClaims.

(** ** Packet outcome tracker: aggregate statistics *)

Section Statistics.

Import LoraPacketTracker Examples.

(** The flags the scan ends with, whatever the flags it starts with. *)
Lemma scan_outcomes_category (size : Z) (outs : StdMap.t PhyPacketOutcome)
    (fl : Flags) (b : Q) :
  received fl = false ->
  category_of_flags (fst (scan_outcomes size outs fl b))
  = if has_outcome RECEIVED (StdMap.values outs) then CatReceived
    else if interfered fl || has_outcome INTERFERED (StdMap.values outs)
    then CatInterfered
    else if noPaths fl || has_outcome NO_MORE_RECEIVERS (StdMap.values outs)
    then CatNoMoreReceivers
    else if busyGw fl || has_outcome LOST_BECAUSE_TX (StdMap.values outs)
    then CatBusyGateway
    else CatUnderSensitivity.
Proof.
  revert fl b. induction outs as [| [g o] outs IH]; intros fl b Hrec.
  - unfold category_of_flags. simpl. rewrite Hrec.
    rewrite !orb_false_r. reflexivity.
  - destruct fl as [r i n bg]. simpl in Hrec. subst r.
    destruct o, i, n, bg; simpl; try reflexivity;
      rewrite IH by reflexivity; simpl;
      rewrite ?orb_true_r, ?orb_false_r; reflexivity.
Qed.

(** The loop classifies a record by the priority order. *)
Lemma scan_outcomes_priority (size : Z) (outs : StdMap.t PhyPacketOutcome)
    (b : Q) :
  category_of_flags (fst (scan_outcomes size outs no_flags b))
  = classify_priority (StdMap.values outs).
Proof.
  rewrite scan_outcomes_category by reflexivity. reflexivity.
Qed.

Lemma tot_of_bump (c c' : Category) (acc : Totals) :
  tot_of c (bump c' acc)
  == tot_of c acc + (if category_eqb c' c then 1 else 0).
Proof. destruct c, c'; simpl; ring. Qed.

Lemma total_bump (c : Category) (acc : Totals) :
  total (bump c acc) = total acc.
Proof. destruct c; reflexivity. Qed.

Variables (dflt : LoraPhy.LoraTxParameters) (startTime : Time).

(** After the loop, each of the five counters has grown by the number of
    records in the window that the priority order puts in its category. *)
Lemma stat_loop_counter (c : Category) (records : StdMap.t PacketStatus.t)
    (acc : Totals) :
  tot_of c (fold_left (stat_step dflt startTime) records acc)
  == tot_of c acc + inject_Z (tally (counted_as startTime c) records).
Proof.
  revert acc. induction records as [| e records IH]; intros acc.
  - simpl. unfold tally. simpl. ring.
  - simpl fold_left. rewrite IH, tally_cons, inject_Z_plus.
    unfold stat_step, counted_as.
    destruct (skipped startTime (snd e)); cbn [negb andb].
    + change (inject_Z 0) with 0. ring.
    + rewrite tot_of_bump, scan_outcomes_priority. cbn [tot_of].
      destruct (category_eqb _ c).
      * change (inject_Z 1) with 1.
        destruct c;
          cbn [tot_of totReceived totInterfered totNoMorePaths totBusyGw
                 totUnderSens];
          ring.
      * change (inject_Z 0) with 0.
        destruct c;
          cbn [tot_of totReceived totInterfered totNoMorePaths totBusyGw
                 totUnderSens];
          ring.
Qed.

Lemma stat_step_skipped (acc : Totals) (e : Z * PacketStatus.t) :
  skipped startTime (snd e) = true -> stat_step dflt startTime acc e = acc.
Proof. intros H. unfold stat_step. rewrite H. reflexivity. Qed.

Lemma stat_step_total (acc : Totals) (e : Z * PacketStatus.t) :
  skipped startTime (snd e) = false ->
  total (stat_step dflt startTime acc e) = wrap32 (total acc + 1).
Proof.
  intros H. unfold stat_step. rewrite H, total_bump. reflexivity.
Qed.

(** With no record in the window the loop leaves its accumulators alone. *)
Lemma stat_loop_skips (records : StdMap.t PacketStatus.t) (acc : Totals) :
  tally (in_window startTime) records = 0%Z ->
  fold_left (stat_step dflt startTime) records acc = acc.
Proof.
  induction records as [| e records IH]; [reflexivity |].
  rewrite tally_cons. simpl fold_left.
  pose proof (tally_nonneg (in_window startTime) records) as Hge.
  unfold in_window at 1.
  destruct (skipped startTime (snd e)) eqn:Hskip; cbn [negb]; intros H.
  - rewrite (stat_step_skipped _ _ Hskip). apply IH. lia.
  - lia.
Qed.

(** Otherwise [total] has grown, modulo 2^32, by the number of records in
    the window. *)
Lemma stat_loop_total (records : StdMap.t PacketStatus.t) (acc : Totals) :
  (0 < tally (in_window startTime) records)%Z ->
  total (fold_left (stat_step dflt startTime) records acc)
  = wrap32 (total acc + tally (in_window startTime) records).
Proof.
  revert acc. induction records as [| e records IH]; intros acc.
  - unfold tally. simpl. lia.
  - rewrite tally_cons. simpl fold_left.
    pose proof (tally_nonneg (in_window startTime) records) as Hge.
    unfold in_window at 1 3.
    destruct (skipped startTime (snd e)) eqn:Hskip; cbn [negb]; intros H.
    + rewrite (stat_step_skipped _ _ Hskip). rewrite IH by lia. f_equal.
    + pose proof (stat_step_total acc e Hskip) as Hacc.
      destruct (Z.eq_dec (tally (in_window startTime) records) 0)
        as [H0 | Hpos].
      * rewrite (stat_loop_skips _ _ H0), Hacc, H0. f_equal.
      * rewrite IH by lia. rewrite Hacc. unfold wrap32.
        rewrite Zplus_mod_idemp_l. f_equal. lia.
Qed.

(** A record in the window is in exactly one category. *)
Lemma categories_partition (records : StdMap.t PacketStatus.t) :
  (tally (counted_as startTime CatReceived) records
   + tally (counted_as startTime CatInterfered) records
   + tally (counted_as startTime CatNoMoreReceivers) records
   + tally (counted_as startTime CatBusyGateway) records
   + tally (counted_as startTime CatUnderSensitivity) records
   = tally (in_window startTime) records)%Z.
Proof.
  induction records as [| e records IH].
  - reflexivity.
  - rewrite !tally_cons. unfold counted_as, in_window in *.
    destruct (skipped startTime (snd e)); cbn [negb andb]; [lia |].
    destruct (classify_priority _); cbn [category_eqb]; lia.
Qed.

End Statistics.

Section StatisticsClaims.

Import LoraPacketTracker Examples.

Lemma inject_Z_nonzero (n : Z) : n <> 0%Z -> ~ inject_Z n == 0.
Proof.
  intros Hn H. apply Hn. unfold Qeq in H. simpl in H. lia.
Qed.

(** A percentage over a non-zero count is an ordinary number. *)
Lemma percentage_finite (x : Q) (n : Z) :
  n <> 0%Z ->
  dmul (ddiv x (inject_Z n)) 100 = Fin (x / inject_Z n * 100).
Proof.
  intros Hn. unfold ddiv.
  destruct (Qeq_bool (inject_Z n) 0) eqn:E; [| reflexivity].
  apply Qeq_bool_eq in E. destruct (inject_Z_nonzero n Hn E).
Qed.

Lemma percentages_sum (r i m b u : Q) (n : Z) :
  n <> 0%Z -> r + i + m + b + u == inject_Z n ->
  r / inject_Z n * 100 + i / inject_Z n * 100 + m / inject_Z n * 100
  + b / inject_Z n * 100 + u / inject_Z n * 100 == 100.
Proof.
  intros Hn Hsum. pose proof (inject_Z_nonzero n Hn) as HN.
  setoid_replace
    (r / inject_Z n * 100 + i / inject_Z n * 100 + m / inject_Z n * 100
     + b / inject_Z n * 100 + u / inject_Z n * 100)
    with ((r + i + m + b + u) / inject_Z n * 100) by (field; exact HN).
  rewrite Hsum. field. exact HN.
Qed.

(** The assertion holds: the function returns its report. *)
Lemma PrintSimulationStatistics_returns (dflt : LoraPhy.LoraTxParameters)
    (sim : Simulator) (startTime : Time) (tr : t) :
  (startTime < Now sim)%Z ->
  PrintSimulationStatistics dflt sim startTime tr
  = Printed (statistics_report dflt sim startTime tr).
Proof.
  intros H. unfold PrintSimulationStatistics.
  apply Z.ltb_lt in H. rewrite H. reflexivity.
Qed.

(** The assertion fails: nothing is returned. *)
Lemma PrintSimulationStatistics_asserts (dflt : LoraPhy.LoraTxParameters)
    (sim : Simulator) (startTime : Time) (tr : t) :
  (Now sim <= startTime)%Z ->
  PrintSimulationStatistics dflt sim startTime tr
  = AssertFailed "startTime < Simulator::Now ()".
Proof.
  intros H. unfold PrintSimulationStatistics.
  apply Z.ltb_ge in H. rewrite H. reflexivity.
Qed.

(** C2.  The loop of [PrintSimulationStatistics] puts a record in the
    category the priority order Received > Interfered > NoMoreReceivers >
    LostBecauseTx > UnderSensitivity gives for its outcomes over all
    gateways; each of the five counters is the number of records of the
    window in its category; the five counts add up to the number of records
    of the window; and, called with [startTime < Now] as its assertion
    requires, when that number is positive (and below 2^32, the range of
    [total]) the function returns a report in which the percentage of each
    category is 100 times its count over the number of records of the
    window, so that the five percentages add up to 100. *)
Theorem C2_statistics_classify_by_priority
    (dflt : LoraPhy.LoraTxParameters) (sim : Simulator) (startTime : Time)
    (tr : t) :
  let records := m_packetTracker tr in
  let acc := simulation_totals dflt startTime tr in
  let n := tally (in_window startTime) records in
  (forall size outs b,
     category_of_flags (fst (scan_outcomes size outs no_flags b))
     = classify_priority (StdMap.values outs))
  /\ (forall c,
        tot_of c acc == inject_Z (tally (counted_as startTime c) records))
  /\ (tally (counted_as startTime CatReceived) records
      + tally (counted_as startTime CatInterfered) records
      + tally (counted_as startTime CatNoMoreReceivers) records
      + tally (counted_as startTime CatBusyGateway) records
      + tally (counted_as startTime CatUnderSensitivity) records
      = n)%Z
  /\ ((startTime < Now sim)%Z -> (0 < n < 2 ^ 32)%Z ->
      exists rep,
        PrintSimulationStatistics dflt sim startTime tr = Printed rep
        /\ rep_sent rep = n
        /\ rep_received rep
           == inject_Z (tally (counted_as startTime CatReceived) records)
        /\ (forall c,
              exists x,
                pct_of c rep = Fin x
                /\ x == inject_Z (tally (counted_as startTime c) records)
                        / inject_Z n * 100)
        /\ exists r i m b u,
             pct_RECEIVED rep = Fin r
             /\ pct_INTERFERED rep = Fin i
             /\ pct_NO_MORE_RECEIVERS rep = Fin m
             /\ pct_BUSY_GATEWAY rep = Fin b
             /\ pct_UNDER_SENSITIVITY rep = Fin u
             /\ r + i + m + b + u == 100).
Proof.
  intros records acc n.
  assert (Hcount : forall c,
             tot_of c acc
             == inject_Z (tally (counted_as startTime c) records)).
  { intros c. subst acc. unfold simulation_totals.
    rewrite stat_loop_counter. destruct c; apply Qplus_0_l. }
  split; [apply scan_outcomes_priority |].
  split; [exact Hcount |].
  split; [apply categories_partition |].
  intros Hnow Hn.
  assert (Htotal : total acc = n).
  { subst acc n. unfold simulation_totals.
    rewrite stat_loop_total by (fold records; lia).
    unfold wrap32. simpl total. apply Z.mod_small. fold records. lia. }
  assert (Hnz : n <> 0%Z) by lia.
  exists (statistics_report dflt sim startTime tr).
  split; [apply PrintSimulationStatistics_returns, Hnow |].
  split; [exact Htotal |].
  split; [exact (Hcount CatReceived) |].
  unfold statistics_report. fold acc.
  cbn [pct_RECEIVED pct_INTERFERED pct_NO_MORE_RECEIVERS pct_BUSY_GATEWAY
         pct_UNDER_SENSITIVITY pct_of].
  rewrite Htotal, !(percentage_finite _ n Hnz).
  split.
  - intros c. exists (tot_of c acc / inject_Z n * 100).
    split; [destruct c; reflexivity |].
    rewrite (Hcount c). reflexivity.
  - eexists _, _, _, _, _.
    repeat (split; [reflexivity |]).
    apply percentages_sum; [exact Hnz |].
    rewrite (Hcount CatReceived), (Hcount CatInterfered),
      (Hcount CatNoMoreReceivers), (Hcount CatBusyGateway),
      (Hcount CatUnderSensitivity).
    rewrite <- !inject_Z_plus.
    rewrite (categories_partition startTime records). reflexivity.
Qed.

(** One packet in the window, interfered at gateway 1 and received by
    gateway 2: it is counted as received, 100 per cent of the packets. *)
Lemma C2_statistics_classify_by_priority_witness :
  exists rep,
    PrintSimulationStatistics (params_sf 7) (at_time 20000000000 0) 10%Z
      interfered_then_received = Printed rep
    /\ rep_sent rep = 1%Z
    /\ (exists x, pct_of CatReceived rep = Fin x /\ x == 100)
    /\ (exists x, pct_of CatInterfered rep = Fin x /\ x == 0)
    /\ exists r i m b u,
         pct_RECEIVED rep = Fin r
         /\ pct_INTERFERED rep = Fin i
         /\ pct_NO_MORE_RECEIVERS rep = Fin m
         /\ pct_BUSY_GATEWAY rep = Fin b
         /\ pct_UNDER_SENSITIVITY rep = Fin u
         /\ r + i + m + b + u == 100.
Proof.
  destruct (C2_statistics_classify_by_priority (params_sf 7)
              (at_time 20000000000 0) 10%Z interfered_then_received)
    as (_ & _ & _ & Hrep).
  destruct Hrep as (rep & Hrep & Hsent & _ & Hpct & Hsum).
  - simpl. lia.
  - unfold tally. simpl. lia.
  - exists rep. split; [exact Hrep |]. split; [exact Hsent |].
    split.
    + destruct (Hpct CatReceived) as (x & Hx & Ex).
      exists x. split; [exact Hx |]. rewrite Ex. reflexivity.
    + split; [| exact Hsum].
      destruct (Hpct CatInterfered) as (x & Hx & Ex).
      exists x. split; [exact Hx |]. rewrite Ex. reflexivity.
Defined.

(** C5 (counterexample).  Nothing has been transmitted and the function is
    called with [startTime < Now]: it does not fail, it returns its report,
    with 0 packets sent and a RECEIVED percentage that is the quotient
    0/0. *)
Lemma C5_counterexample :
  (10 < Now (at_time 100 0))%Z
  /\ tally (in_window 10%Z) (m_packetTracker empty) = 0%Z
  /\ exists rep,
       PrintSimulationStatistics (params_sf 7) (at_time 100 0) 10%Z empty
       = Printed rep
       /\ rep_sent rep = 0%Z
       /\ pct_RECEIVED rep = NaN
       /\ is_finite (pct_RECEIVED rep) = false.
Proof.
  split; [reflexivity |]. split; [reflexivity |].
  eexists. split; [reflexivity |]. repeat split.
Qed.

(** C5 (amended).  When no PHY record falls in the window and the function
    is called with [startTime < Now], as its assertion requires, the
    operation does not fail and has no guard: it returns its report, in which
    the number of packets sent is 0 and each of the five percentages is the
    quotient 0/0, a NaN. *)
Theorem C5_empty_window_report (dflt : LoraPhy.LoraTxParameters)
    (sim : Simulator) (startTime : Time) (tr : t) :
  (startTime < Now sim)%Z ->
  tally (in_window startTime) (m_packetTracker tr) = 0%Z ->
  exists rep,
    PrintSimulationStatistics dflt sim startTime tr = Printed rep
    /\ rep_sent rep = 0%Z
    /\ rep_received rep = 0
    /\ forall c, pct_of c rep = NaN.
Proof.
  intros Hnow H.
  exists (statistics_report dflt sim startTime tr).
  split; [apply PrintSimulationStatistics_returns, Hnow |].
  unfold statistics_report.
  unfold simulation_totals. rewrite (stat_loop_skips _ _ _ _ H).
  split; [reflexivity |]. split; [reflexivity |].
  intros c. destruct c; reflexivity.
Qed.

(** The only packet was sent at time 0; the window starts five seconds
    before the tenth second, and the report is asked for at the twentieth. *)
Lemma C5_empty_window_report_witness :
  exists rep,
    PrintSimulationStatistics (params_sf 7) (at_time 20000000000 0)
      10000000000%Z received_at_gw1 = Printed rep
    /\ rep_sent rep = 0%Z
    /\ rep_received rep = 0
    /\ forall c, pct_of c rep = NaN.
Proof.
  apply (C5_empty_window_report (params_sf 7) (at_time 20000000000 0)
           10000000000%Z received_at_gw1).
  - simpl. lia.
  - reflexivity.
Defined.

End StatisticsClaims.

(** ** [std::map]: lookup after modification *)

Section StdMapLookup.

Context {V : Type}.
Implicit Types (k : Z) (v : V) (m : StdMap.t V).

(** Case analysis on every key comparison in the goal. *)
Ltac keys :=
  repeat (cbn [StdMap.find StdMap.insert StdMap.update option_map];
          match goal with
          | |- context [(?a <? ?b)%Z] => destruct (Z.ltb_spec a b)
          | |- context [(?a =? ?b)%Z] => destruct (Z.eqb_spec a b)
          end);
  try subst; try lia; try reflexivity.

(** Looking a key up after an insertion: the inserted key holds what it
    held before, or the new value if it held nothing. *)
Lemma find_insert k k' v m :
  StdMap.find k' (StdMap.insert k v m)
  = if (k' =? k)%Z then
      Some (match StdMap.find k m with Some v0 => v0 | None => v end)
    else StdMap.find k' m.
Proof.
  induction m as [| [k0 v0] m IH].
  - keys.
  - cbn [StdMap.insert StdMap.find].
    destruct (Z.ltb_spec k k0); [keys |].
    destruct (Z.eqb_spec k k0); [keys |].
    cbn [StdMap.find]. rewrite IH. keys.
Qed.

Lemma find_update k k' (f : V -> V) m :
  StdMap.find k' (StdMap.update k f m)
  = if (k' =? k)%Z then option_map f (StdMap.find k m)
    else StdMap.find k' m.
Proof.
  induction m as [| [k0 v0] m IH].
  - keys.
  - cbn [StdMap.update StdMap.find].
    destruct (Z.ltb_spec k k0); [keys |].
    destruct (Z.eqb_spec k k0); [keys |].
    cbn [StdMap.find]. rewrite IH. keys.
Qed.

Lemma update_absent k (f : V -> V) m :
  StdMap.find k m = None -> StdMap.update k f m = m.
Proof.
  induction m as [| [k0 v0] m IH]; simpl; [reflexivity |].
  destruct (Z.ltb_spec k k0); [reflexivity |].
  destruct (Z.eqb_spec k k0); [discriminate |].
  intros Hf. rewrite (IH Hf). reflexivity.
Qed.

(** [update] rewrites the one entry [find] stops at. *)
Lemma update_present k (f : V -> V) m v :
  StdMap.find k m = Some v ->
  exists l1 l2,
    m = l1 ++ (k, v) :: l2 /\ StdMap.update k f m = l1 ++ (k, f v) :: l2.
Proof.
  induction m as [| [k0 v0] m IH]; simpl; [discriminate |].
  destruct (Z.ltb_spec k k0); [discriminate |].
  destruct (Z.eqb_spec k k0) as [<- | Hne]; intros Hf.
  - injection Hf as ->. exists [], m. split; reflexivity.
  - destruct (IH Hf) as (l1 & l2 & -> & ->).
    exists ((k0, v0) :: l1), l2. split; reflexivity.
Qed.

Lemma update_update k (f g : V -> V) m :
  StdMap.update k f (StdMap.update k g m)
  = StdMap.update k (fun v => f (g v)) m.
Proof.
  induction m as [| [k0 v0] m IH]; [reflexivity |].
  cbn [StdMap.update].
  destruct (Z.ltb_spec k k0); [keys |].
  destruct (Z.eqb_spec k k0); [keys |].
  cbn [StdMap.update]. rewrite IH. keys.
Qed.

Lemma update_ext k (f g : V -> V) m :
  (forall v, StdMap.find k m = Some v -> f v = g v) ->
  StdMap.update k f m = StdMap.update k g m.
Proof.
  induction m as [| [k0 v0] m IH]; simpl; [reflexivity |].
  destruct (Z.ltb_spec k k0); [reflexivity |].
  destruct (Z.eqb_spec k k0); intros Hf.
  - rewrite (Hf v0 eq_refl). reflexivity.
  - rewrite (IH Hf). reflexivity.
Qed.

(** Updates at two different keys can be made in either order. *)
Lemma update_comm k1 k2 (f g : V -> V) m :
  k1 <> k2 ->
  StdMap.update k1 f (StdMap.update k2 g m)
  = StdMap.update k2 g (StdMap.update k1 f m).
Proof.
  intros Hne. induction m as [| [k0 v0] m IH]; [reflexivity |].
  cbn [StdMap.update].
  destruct (Z.ltb_spec k1 k0); destruct (Z.ltb_spec k2 k0);
    try destruct (Z.eqb_spec k1 k0); try destruct (Z.eqb_spec k2 k0);
    try lia; keys.
  rewrite IH. reflexivity.
Qed.

(** Insertions of two different keys can be made in either order. *)
Lemma insert_comm k1 k2 v1 v2 m :
  k1 <> k2 ->
  StdMap.insert k1 v1 (StdMap.insert k2 v2 m)
  = StdMap.insert k2 v2 (StdMap.insert k1 v1 m).
Proof.
  intros Hne. induction m as [| [k0 v0] m IH]; [keys |].
  cbn [StdMap.insert].
  destruct (Z.ltb_spec k1 k0); destruct (Z.ltb_spec k2 k0);
    try destruct (Z.eqb_spec k1 k0); try destruct (Z.eqb_spec k2 k0);
    try lia; keys.
  rewrite IH. reflexivity.
Qed.

Lemma entries_where_app (P : V -> bool) (l1 l2 : StdMap.t V) :
  LoraPacketTracker.entries_where P (l1 ++ l2)
  = (LoraPacketTracker.entries_where P l1
     + LoraPacketTracker.entries_where P l2)%Z.
Proof.
  unfold LoraPacketTracker.entries_where, StdMap.values.
  rewrite map_app, filter_app, length_app. lia.
Qed.

Lemma entries_where_cons (P : V -> bool) (e : Z * V) (l : StdMap.t V) :
  LoraPacketTracker.entries_where P (e :: l)
  = ((if P (snd e) then 1 else 0)
     + LoraPacketTracker.entries_where P l)%Z.
Proof.
  unfold LoraPacketTracker.entries_where, StdMap.values. cbn [map filter].
  destruct (P (snd e)); cbn [List.length]; lia.
Qed.

Lemma entries_where_nonneg (P : V -> bool) (l : StdMap.t V) :
  (0 <= LoraPacketTracker.entries_where P l)%Z.
Proof. unfold LoraPacketTracker.entries_where. lia. Qed.

(** Entries counted after an insertion of an absent key. *)
Lemma entries_where_insert (P : V -> bool) k v m :
  StdMap.find k m = None ->
  LoraPacketTracker.entries_where P (StdMap.insert k v m)
  = (LoraPacketTracker.entries_where P m + (if P v then 1 else 0))%Z.
Proof.
  intros Hf. destruct (insert_absent k v m Hf) as (l1 & l2 & -> & ->).
  rewrite !entries_where_app, entries_where_cons. simpl snd. lia.
Qed.

(** Entries counted after the record of a present key is rewritten. *)
Lemma entries_where_update (P : V -> bool) k (f : V -> V) m v :
  StdMap.find k m = Some v ->
  LoraPacketTracker.entries_where P (StdMap.update k f m)
  = (LoraPacketTracker.entries_where P m
     - (if P v then 1 else 0) + (if P (f v) then 1 else 0))%Z.
Proof.
  intros Hf. destruct (update_present k f m v Hf) as (l1 & l2 & -> & ->).
  rewrite !entries_where_app, !entries_where_cons. simpl snd. lia.
Qed.

End StdMapLookup.

(** ** Packet outcome tracker: MAC-level counts *)

Section MacCounts.

Import LoraPacketTracker Examples.
Local Open Scope Z_scope.

Variables (startTime stopTime : Time).

Lemma mac_count_loop (records : StdMap.t MacPacketStatus.t) (a b : Z) :
  fold_left (mac_count_step startTime stopTime) records (a, b)
  = (a + entries_where (mac_in_interval startTime stopTime) records,
     b + entries_where
           (fun s => mac_in_interval startTime stopTime s && has_receptions s)
           records).
Proof.
  revert a b. induction records as [| e records IH]; intros a b.
  - unfold entries_where. simpl. f_equal; lia.
  - simpl fold_left. rewrite !entries_where_cons. cbv beta.
    unfold mac_count_step.
    destruct (mac_in_interval startTime stopTime (snd e)); cbn [andb fst snd].
    + destruct (has_receptions (snd e)); rewrite IH; f_equal; lia.
    + rewrite IH. f_equal; lia.
Qed.

Lemma cpsr_count_loop (records : StdMap.t RetransmissionStatus.t) (a b : Z) :
  fold_left (cpsr_count_step startTime stopTime) records (a, b)
  = (a + entries_where (cpsr_in_interval startTime stopTime) records,
     b + entries_where
           (fun e => cpsr_in_interval startTime stopTime e
                     && RetransmissionStatus.successful e)
           records).
Proof.
  revert a b. induction records as [| e records IH]; intros a b.
  - unfold entries_where. simpl. f_equal; lia.
  - simpl fold_left. rewrite !entries_where_cons. cbv beta.
    unfold cpsr_count_step.
    destruct (cpsr_in_interval startTime stopTime (snd e));
      cbn [andb fst snd].
    + destruct (RetransmissionStatus.successful (snd e)); rewrite IH;
        f_equal; lia.
    + rewrite IH. f_equal; lia.
Qed.

Lemma device_count_loop (devId : Z) (records : StdMap.t MacPacketStatus.t)
    (a b : Z) :
  fold_left (device_count_step startTime stopTime devId) records (a, b)
  = (a + entries_where
           (fun s => mac_in_interval startTime stopTime s
                     && (MacPacketStatus.senderId s =? devId))
           records,
     b + entries_where
           (fun s => mac_in_interval startTime stopTime s
                     && (MacPacketStatus.senderId s =? devId)
                     && has_receptions s)
           records).
Proof.
  revert a b. induction records as [| e records IH]; intros a b.
  - unfold entries_where. simpl. f_equal; lia.
  - simpl fold_left. rewrite !entries_where_cons. cbv beta.
    unfold device_count_step.
    destruct (mac_in_interval startTime stopTime (snd e)
              && (MacPacketStatus.senderId (snd e) =? devId));
      cbn [andb fst snd].
    + destruct (has_receptions (snd e)); rewrite IH; f_equal; lia.
    + rewrite IH. f_equal; lia.
Qed.

(** Counting fewer records gives a smaller count. *)
Lemma entries_where_le {V : Type} (P Q : V -> bool) (m : StdMap.t V) :
  (forall v, P v = true -> Q v = true) ->
  entries_where P m <= entries_where Q m.
Proof.
  intros HPQ. induction m as [| e m IH].
  - unfold entries_where. simpl. lia.
  - rewrite !entries_where_cons.
    destruct (P (snd e)) eqn:HP; [rewrite (HPQ _ HP); lia |].
    destruct (Q (snd e)); lia.
Qed.

(** Two conditions that exclude each other count disjoint records. *)
Lemma entries_where_disjoint {V : Type} (P1 P2 Q : V -> bool)
    (m : StdMap.t V) :
  (forall v, P1 v = true -> Q v = true) ->
  (forall v, P2 v = true -> Q v = true) ->
  (forall v, P1 v = true -> P2 v = false) ->
  entries_where P1 m + entries_where P2 m <= entries_where Q m.
Proof.
  intros H1 H2 H12. induction m as [| e m IH].
  - unfold entries_where. simpl. lia.
  - rewrite !entries_where_cons.
    destruct (P1 (snd e)) eqn:E1.
    + rewrite (H12 _ E1), (H1 _ E1). lia.
    + destruct (P2 (snd e)) eqn:E2; [rewrite (H2 _ E2); lia |].
      destruct (Q (snd e)); lia.
Qed.

End MacCounts.

Section MacCountsProperties.

Import LoraPacketTracker Examples.
Local Open Scope Z_scope.

(** X1.  [CountMacPacketsGlobally] prints two numbers: how many MAC records
    have startTime <= sendTime <= stopTime, and how many of those have at
    least one gateway reception; the second never exceeds the first. *)
Theorem CountMacPacketsGlobally_counts (startTime stopTime : Time) (tr : t) :
  let sent :=
    entries_where (mac_in_interval startTime stopTime)
      (m_macPacketTracker tr) in
  let received :=
    entries_where
      (fun s => mac_in_interval startTime stopTime s
                && negb (StdMap.size (MacPacketStatus.receptionTimes s) =? 0))
      (m_macPacketTracker tr) in
  CountMacPacketsGlobally startTime stopTime tr
  = (to_string sent ++ " " ++ to_string received)%string
  /\ 0 <= received <= sent.
Proof.
  intros sent received. unfold CountMacPacketsGlobally, mac_counts.
  rewrite mac_count_loop. split; [reflexivity |].
  split; [apply entries_where_nonneg |].
  apply entries_where_le. intros v H.
  apply andb_true_iff in H. apply H.
Qed.

(** X2.  [CountMacPacketsGloballyCpsr] prints how many retransmission
    entries have startTime <= firstAttempt <= stopTime and how many of those
    were successful; the second never exceeds the first. *)
Theorem CountMacPacketsGloballyCpsr_counts (startTime stopTime : Time)
    (tr : t) :
  let sent :=
    entries_where (cpsr_in_interval startTime stopTime)
      (m_reTransmissionTracker tr) in
  let received :=
    entries_where
      (fun e => cpsr_in_interval startTime stopTime e
                && RetransmissionStatus.successful e)
      (m_reTransmissionTracker tr) in
  CountMacPacketsGloballyCpsr startTime stopTime tr
  = (to_string sent ++ " " ++ to_string received)%string
  /\ 0 <= received <= sent.
Proof.
  intros sent received. unfold CountMacPacketsGloballyCpsr, cpsr_counts.
  rewrite cpsr_count_loop. split; [reflexivity |].
  split; [apply entries_where_nonneg |].
  apply entries_where_le. intros v H.
  apply andb_true_iff in H. apply H.
Qed.

(** X3.  The two numbers [PrintDevicePackets] computes for a device never
    exceed the two numbers [CountMacPacketsGlobally] computes for the same
    interval, and the packets sent by two different devices together never
    exceed the global number of packets sent. *)
Theorem device_counts_within_global (startTime stopTime : Time)
    (dev1 dev2 : Z) (tr : t) :
  let global := mac_counts startTime stopTime tr in
  let d1 := device_counts startTime stopTime dev1 tr in
  let d2 := device_counts startTime stopTime dev2 tr in
  PrintDevicePackets startTime stopTime dev1 tr = sent_received d1
  /\ CountMacPacketsGlobally startTime stopTime tr = sent_received global
  /\ 0 <= snd d1 <= fst d1
  /\ fst d1 <= fst global
  /\ snd d1 <= snd global
  /\ (dev1 <> dev2 ->
      fst d1 + fst d2 <= fst global /\ snd d1 + snd d2 <= snd global).
Proof.
  intros global d1 d2. subst global d1 d2.
  unfold device_counts, mac_counts.
  rewrite !device_count_loop, mac_count_loop. cbn [fst snd].
  split; [unfold PrintDevicePackets, device_counts;
          rewrite device_count_loop; reflexivity |].
  split; [unfold CountMacPacketsGlobally, mac_counts;
          rewrite mac_count_loop; reflexivity |].
  split.
  { split; [apply entries_where_nonneg |].
    apply entries_where_le. intros v H. apply andb_true_iff in H. apply H. }
  split.
  { apply entries_where_le. intros v H. apply andb_true_iff in H. apply H. }
  split.
  { apply entries_where_le. intros v H.
    apply andb_true_iff in H. destruct H as [H Hr].
    apply andb_true_iff in H. destruct H as [H _].
    rewrite H, Hr. reflexivity. }
  intros Hne. split.
  - apply entries_where_disjoint.
    + intros v H. apply andb_true_iff in H. apply H.
    + intros v H. apply andb_true_iff in H. apply H.
    + intros v H. apply andb_true_iff in H. destruct H as [_ H].
      apply Z.eqb_eq in H. rewrite H.
      destruct (Z.eqb_spec dev1 dev2); [contradiction |].
      apply andb_false_r.
  - apply entries_where_disjoint.
    + intros v H. apply andb_true_iff in H. destruct H as [H Hr].
      apply andb_true_iff in H. destruct H as [H _].
      rewrite H, Hr. reflexivity.
    + intros v H. apply andb_true_iff in H. destruct H as [H Hr].
      apply andb_true_iff in H. destruct H as [H _].
      rewrite H, Hr. reflexivity.
    + intros v H. apply andb_true_iff in H. destruct H as [H _].
      apply andb_true_iff in H. destruct H as [_ H].
      apply Z.eqb_eq in H. rewrite H.
      destruct (Z.eqb_spec dev1 dev2); [contradiction |].
      rewrite andb_false_r. reflexivity.
Qed.

(** Devices 5 and 6 of a tracker with one MAC record. *)
Lemma device_counts_within_global_witness :
  fst (device_counts 0 100 5 mac_two_gateways)
  + fst (device_counts 0 100 6 mac_two_gateways)
  <= fst (mac_counts 0 100 mac_two_gateways).
Proof.
  destruct (device_counts_within_global 0 100 5 6 mac_two_gateways)
    as (_ & _ & _ & _ & _ & H).
  apply H. lia.
Defined.

End MacCountsProperties.

(** ** Packet outcome tracker: what a callback changes *)

Section CallbackEffects.

Import LoraPacketTracker Examples.
Local Open Scope Z_scope.

Ltac cells := repeat (apply (f_equal2 cons); [lia |]); reflexivity.

Lemma tally_insert (P : PacketStatus.t -> bool) (k : Z)
    (s : PacketStatus.t) (m : StdMap.t PacketStatus.t) :
  StdMap.find k m = None ->
  tally P (StdMap.insert k s m) = tally P m + (if P s then 1 else 0).
Proof. apply (entries_where_insert P k s m). Qed.

Lemma tally_update (P : PacketStatus.t -> bool) (k : Z)
    (f : PacketStatus.t -> PacketStatus.t) (m : StdMap.t PacketStatus.t)
    (s : PacketStatus.t) :
  StdMap.find k m = Some s ->
  tally P (StdMap.update k f m)
  = tally P m - (if P s then 1 else 0) + (if P (f s) then 1 else 0).
Proof. apply (entries_where_update P k f m s). Qed.

(** X4.  The first transmission of an uplink packet creates its record, a later
    one changes nothing; no other record is touched. *)
Theorem TransmissionCallback_lookup (sim : Simulator) (packet : Packet)
    (edId : Z) (tr : t) :
  IsUplink packet = true ->
  exists tr',
    TransmissionCallback sim packet edId tr = Done tr'
    /\ StdMap.find (pkt_addr packet) (m_packetTracker tr')
       = Some (match StdMap.find (pkt_addr packet) (m_packetTracker tr) with
               | Some s => s
               | None => PacketStatus.mk packet (Now sim) edId StdMap.empty
               end)
    /\ (forall k, k <> pkt_addr packet ->
          StdMap.find k (m_packetTracker tr')
          = StdMap.find k (m_packetTracker tr))
    /\ m_macPacketTracker tr' = m_macPacketTracker tr
    /\ m_reTransmissionTracker tr' = m_reTransmissionTracker tr.
Proof.
  intros Hup. unfold TransmissionCallback. rewrite Hup.
  eexists. split; [reflexivity |]. cbn [m_packetTracker].
  split.
  - rewrite find_insert, Z.eqb_refl. reflexivity.
  - split; [| split; reflexivity].
    intros k Hk. rewrite find_insert.
    destruct (Z.eqb_spec k (pkt_addr packet)); [contradiction | reflexivity].
Qed.

Lemma TransmissionCallback_lookup_witness :
  exists tr',
    TransmissionCallback (at_time 20 7) (bytes 30) 7 received_at_gw1
    = Done tr'
    /\ StdMap.find 1 (m_packetTracker tr')
       = Some (PacketStatus.mk (bytes 30) 20 7 StdMap.empty)
    /\ StdMap.find 100 (m_packetTracker tr')
       = Some (status_of [(1, RECEIVED)]).
Proof.
  destruct (TransmissionCallback_lookup (at_time 20 7) (bytes 30) 7
              received_at_gw1 eq_refl) as (tr' & Hrun & Hnew & Hold & _).
  exists tr'. split; [exact Hrun |]. split; [exact Hnew |].
  rewrite (Hold 100); [reflexivity | discriminate].
Defined.

(** X5.  A transmission is counted once: the first transmission of an uplink
    packet adds one to the sent counter of every gateway when its time is in
    the interval, and nothing else changes a counter. *)
Theorem TransmissionCallback_counted_once (sim : Simulator)
    (packet : Packet) (edId : Z) (tr : t) (startTime stopTime : Time)
    (gwId : Z) :
  IsUplink packet = true ->
  exists tr',
    TransmissionCallback sim packet edId tr = Done tr'
    /\ CountPhyPacketsPerGw startTime stopTime gwId tr'
       = match StdMap.find (pkt_addr packet) (m_packetTracker tr) with
         | Some _ => CountPhyPacketsPerGw startTime stopTime gwId tr
         | None =>
             if (startTime <=? Now sim) && (Now sim <=? stopTime) then
               incr_at 0 (CountPhyPacketsPerGw startTime stopTime gwId tr)
             else CountPhyPacketsPerGw startTime stopTime gwId tr
         end.
Proof.
  intros Hup. unfold TransmissionCallback. rewrite Hup.
  eexists. split; [reflexivity |].
  unfold CountPhyPacketsPerGw. cbn [m_packetTracker repeat].
  destruct (StdMap.find (pkt_addr packet) (m_packetTracker tr))
    as [s |] eqn:Hfind.
  - rewrite (insert_present _ _ s _ Hfind). reflexivity.
  - rewrite !count_loop.
    rewrite !(tally_insert _ _ _ _ Hfind). cbv beta.
    unfold outcome_at, in_interval. cbn [PacketStatus.outcomes
      PacketStatus.sendTime StdMap.find StdMap.empty].
    rewrite !andb_false_r.
    destruct ((startTime <=? Now sim) && (Now sim <=? stopTime));
      cbn [incr_at]; cells.
Qed.

Lemma TransmissionCallback_counted_once_witness :
  exists tr',
    TransmissionCallback (at_time 20 7) (bytes 30) 7 received_at_gw1
    = Done tr'
    /\ CountPhyPacketsPerGw 0 100 1 tr' = [2; 1; 0; 0; 0; 0].
Proof.
  destruct (TransmissionCallback_counted_once (at_time 20 7) (bytes 30) 7
              received_at_gw1 0 100 1 eq_refl) as (tr' & Hrun & Hcount).
  exists tr'. split; [exact Hrun | exact Hcount].
Defined.

End CallbackEffects.

Section OutcomeEffects.

Import LoraPacketTracker Examples.
Local Open Scope Z_scope.

Ltac cells := repeat (apply (f_equal2 cons); [lia |]); reflexivity.

(** X6.  After an outcome callback for a packet that has a record, the gateway
    holds the outcome it held before, or the new one if it held none; the
    other gateways of the record, its send time and sender, and all other
    records are as before. *)
Theorem record_outcome_lookup (o : PhyPacketOutcome) (packet : Packet)
    (gwId : Z) (tr : t) (s : PacketStatus.t) :
  IsUplink packet = true ->
  StdMap.find (pkt_addr packet) (m_packetTracker tr) = Some s ->
  exists tr' s',
    record_outcome o packet gwId tr = Done tr'
    /\ StdMap.find (pkt_addr packet) (m_packetTracker tr') = Some s'
    /\ StdMap.find (int_of_uint32 gwId) (PacketStatus.outcomes s')
       = Some (match StdMap.find (int_of_uint32 gwId)
                       (PacketStatus.outcomes s) with
               | Some o0 => o0
               | None => o
               end)
    /\ (forall g, g <> int_of_uint32 gwId ->
          StdMap.find g (PacketStatus.outcomes s')
          = StdMap.find g (PacketStatus.outcomes s))
    /\ PacketStatus.sendTime s' = PacketStatus.sendTime s
    /\ PacketStatus.senderId s' = PacketStatus.senderId s
    /\ PacketStatus.packet s' = PacketStatus.packet s
    /\ (forall k, k <> pkt_addr packet ->
          StdMap.find k (m_packetTracker tr')
          = StdMap.find k (m_packetTracker tr))
    /\ m_macPacketTracker tr' = m_macPacketTracker tr
    /\ m_reTransmissionTracker tr' = m_reTransmissionTracker tr.
Proof.
  intros Hup Hs. unfold record_outcome. rewrite Hup, Hs.
  eexists. eexists. split; [reflexivity |]. cbn [m_packetTracker].
  split.
  { rewrite find_update, Z.eqb_refl, Hs. reflexivity. }
  cbn [PacketStatus.set_outcomes PacketStatus.outcomes PacketStatus.sendTime
         PacketStatus.senderId PacketStatus.packet].
  split; [rewrite find_insert, Z.eqb_refl; reflexivity |].
  split.
  { intros g Hg. rewrite find_insert.
    destruct (Z.eqb_spec g (int_of_uint32 gwId));
      [contradiction | reflexivity]. }
  repeat (split; [reflexivity |]).
  split; [| split; reflexivity].
  intros k Hk. rewrite find_update.
  destruct (Z.eqb_spec k (pkt_addr packet)); [contradiction | reflexivity].
Qed.

Lemma record_outcome_lookup_witness :
  exists tr' s',
    InterferenceCallback uplink 2 received_at_gw1 = Done tr'
    /\ StdMap.find 100 (m_packetTracker tr') = Some s'
    /\ StdMap.find 2 (PacketStatus.outcomes s') = Some INTERFERED
    /\ StdMap.find 1 (PacketStatus.outcomes s') = Some RECEIVED.
Proof.
  destruct (record_outcome_lookup INTERFERED uplink 2 received_at_gw1
              (status_of [(1, RECEIVED)]) eq_refl eq_refl)
    as (tr' & s' & Hrun & Hfind & Hnew & Hold & _).
  exists tr', s'. split; [exact Hrun |]. split; [exact Hfind |].
  split; [exact Hnew |].
  rewrite (Hold 1); [reflexivity | discriminate].
Defined.

Lemma outcome_at_recorded (g g' : Z) (o o' : PhyPacketOutcome)
    (s : PacketStatus.t) :
  StdMap.find g (PacketStatus.outcomes s) = None ->
  outcome_at g' o' (PacketStatus.set_outcomes (StdMap.insert g o) s)
  = if g' =? g then outcome_eqb o o' else outcome_at g' o' s.
Proof.
  intros Hnone. unfold outcome_at, PacketStatus.set_outcomes.
  cbn [PacketStatus.outcomes]. rewrite find_insert, Hnone.
  destruct (g' =? g); reflexivity.
Qed.

(** X7.  The first outcome recorded for a (packet, gateway) pair whose packet was
    sent in the interval adds one to that gateway's counter for the outcome
    and changes no counter of any other gateway. *)
Theorem record_outcome_counted_once (o : PhyPacketOutcome) (packet : Packet)
    (gwId : Z) (tr : t) (s : PacketStatus.t) (cell : nat)
    (startTime stopTime : Time) :
  IsUplink packet = true ->
  StdMap.find (pkt_addr packet) (m_packetTracker tr) = Some s ->
  StdMap.find (int_of_uint32 gwId) (PacketStatus.outcomes s) = None ->
  startTime <= PacketStatus.sendTime s <= stopTime ->
  count_cell o = Some cell ->
  exists tr',
    record_outcome o packet gwId tr = Done tr'
    /\ CountPhyPacketsPerGw startTime stopTime (int_of_uint32 gwId) tr'
       = incr_at cell
           (CountPhyPacketsPerGw startTime stopTime (int_of_uint32 gwId) tr)
    /\ (forall g, g <> int_of_uint32 gwId ->
          CountPhyPacketsPerGw startTime stopTime g tr'
          = CountPhyPacketsPerGw startTime stopTime g tr).
Proof.
  intros Hup Hs Hnone Hin Hcell. unfold record_outcome. rewrite Hup, Hs.
  eexists. split; [reflexivity |].
  assert (Hint : in_interval startTime stopTime s = true).
  { unfold in_interval. apply andb_true_iff. split; apply Z.leb_le; lia. }
  assert (Hint' : forall f, in_interval startTime stopTime
                              (PacketStatus.set_outcomes f s) = true).
  { intros f. exact Hint. }
  assert (Hnow : forall o', outcome_at (int_of_uint32 gwId) o' s = false).
  { intros o'. unfold outcome_at. rewrite Hnone. reflexivity. }
  unfold CountPhyPacketsPerGw. cbn [m_packetTracker repeat].
  split.
  - rewrite !count_loop. rewrite !(tally_update _ _ _ _ _ Hs). cbv beta.
    rewrite !(outcome_at_recorded _ _ _ _ _ Hnone), Z.eqb_refl.
    rewrite Hint, !Hint', !Hnow. cbn [andb].
    destruct o; cbn [count_cell] in Hcell;
      [injection Hcell as <- .. | discriminate Hcell];
      cbn [outcome_eqb incr_at]; cells.
  - intros g Hg.
    rewrite !count_loop. rewrite !(tally_update _ _ _ _ _ Hs). cbv beta.
    rewrite !(outcome_at_recorded _ _ _ _ _ Hnone).
    destruct (Z.eqb_spec g (int_of_uint32 gwId)); [contradiction |].
    rewrite Hint, !Hint'. cbn [andb].
    destruct (outcome_at g RECEIVED s), (outcome_at g INTERFERED s),
      (outcome_at g NO_MORE_RECEIVERS s), (outcome_at g UNDER_SENSITIVITY s),
      (outcome_at g LOST_BECAUSE_TX s); cells.
Qed.

Lemma record_outcome_counted_once_witness :
  exists tr',
    InterferenceCallback uplink 2 received_at_gw1 = Done tr'
    /\ CountPhyPacketsPerGw 0 100 2 tr' = [1; 0; 1; 0; 0; 0]
    /\ CountPhyPacketsPerGw 0 100 1 tr' = [1; 1; 0; 0; 0; 0].
Proof.
  destruct (record_outcome_counted_once INTERFERED uplink 2 received_at_gw1
              (status_of [(1, RECEIVED)]) 2 0 100 eq_refl eq_refl eq_refl
              ltac:(simpl; lia) eq_refl)
    as (tr' & Hrun & Hsame & Hother).
  exists tr'. split; [exact Hrun |]. split; [exact Hsame |].
  rewrite (Hother 1); [reflexivity | discriminate].
Defined.

End OutcomeEffects.

Section MacEffects.

Import LoraPacketTracker Examples.
Local Open Scope Z_scope.

(** X8.  [RequiredTransmissionsCallback] records uplink and downlink packets
    alike and keeps the first entry of a packet: it always returns, leaves the
    PHY and MAC maps alone, and adds to the two numbers of
    [CountMacPacketsGloballyCpsr] only when the packet had no entry (one
    packet sent if firstAttempt is in the interval, and one received if the
    entry is successful too). *)
Theorem RequiredTransmissionsCallback_counted_once (sim : Simulator)
    (reqTx : Z) (success : bool) (firstAttempt : Time) (packet : Packet)
    (tr : t) (startTime stopTime : Time) :
  exists tr',
    RequiredTransmissionsCallback sim reqTx success firstAttempt packet tr
    = Done tr'
    /\ m_packetTracker tr' = m_packetTracker tr
    /\ m_macPacketTracker tr' = m_macPacketTracker tr
    /\ StdMap.find (pkt_addr packet) (m_reTransmissionTracker tr')
       = Some (match StdMap.find (pkt_addr packet)
                       (m_reTransmissionTracker tr) with
               | Some e => e
               | None =>
                   RetransmissionStatus.mk firstAttempt (Now sim) reqTx
                     success
               end)
    /\ cpsr_counts startTime stopTime tr'
       = match StdMap.find (pkt_addr packet) (m_reTransmissionTracker tr) with
         | Some _ => cpsr_counts startTime stopTime tr
         | None =>
             let c := cpsr_counts startTime stopTime tr in
             if (startTime <=? firstAttempt) && (firstAttempt <=? stopTime)
             then (fst c + 1, snd c + (if success then 1 else 0))
             else c
         end.
Proof.
  unfold RequiredTransmissionsCallback.
  eexists. split; [reflexivity |].
  cbn [m_packetTracker m_macPacketTracker m_reTransmissionTracker].
  split; [reflexivity |]. split; [reflexivity |].
  split; [rewrite find_insert, Z.eqb_refl; reflexivity |].
  unfold cpsr_counts. cbn [m_reTransmissionTracker].
  destruct (StdMap.find (pkt_addr packet) (m_reTransmissionTracker tr))
    as [e |] eqn:Hfind.
  - rewrite (insert_present _ _ e _ Hfind). reflexivity.
  - rewrite !cpsr_count_loop.
    rewrite !(entries_where_insert _ _ _ _ Hfind). cbv beta.
    unfold cpsr_in_interval at 2 4.
    cbn [RetransmissionStatus.firstAttempt RetransmissionStatus.successful
           fst snd].
    destruct ((startTime <=? firstAttempt) && (firstAttempt <=? stopTime));
      destruct success; cbn [andb]; f_equal; lia.
Qed.

(** X9.  The first MAC transmission of an uplink packet adds one to the packets
    sent of [CountMacPacketsGlobally] when its time is in the interval, and
    none to the packets received. *)
Theorem MacTransmissionCallback_counted_once (sim : Simulator)
    (packet : Packet) (tr : t) (startTime stopTime : Time) :
  IsUplink packet = true ->
  exists tr',
    MacTransmissionCallback sim packet tr = Done tr'
    /\ mac_counts startTime stopTime tr'
       = match StdMap.find (pkt_addr packet) (m_macPacketTracker tr) with
         | Some _ => mac_counts startTime stopTime tr
         | None =>
             let c := mac_counts startTime stopTime tr in
             if (startTime <=? Now sim) && (Now sim <=? stopTime)
             then (fst c + 1, snd c)
             else c
         end.
Proof.
  intros Hup. unfold MacTransmissionCallback. rewrite Hup.
  eexists. split; [reflexivity |].
  unfold mac_counts. cbn [m_macPacketTracker].
  destruct (StdMap.find (pkt_addr packet) (m_macPacketTracker tr))
    as [s |] eqn:Hfind.
  - rewrite (insert_present _ _ s _ Hfind). reflexivity.
  - rewrite !mac_count_loop.
    rewrite !(entries_where_insert _ _ _ _ Hfind). cbv beta.
    unfold mac_in_interval at 2 4. unfold has_receptions at 2.
    cbn [MacPacketStatus.sendTime MacPacketStatus.receptionTimes fst snd].
    change (StdMap.size (@StdMap.empty Z) =? 0) with true.
    cbn [negb]. rewrite andb_false_r.
    destruct ((startTime <=? Now sim) && (Now sim <=? stopTime));
      f_equal; lia.
Qed.

Lemma MacTransmissionCallback_counted_once_witness :
  exists tr',
    MacTransmissionCallback (at_time 20 7) (bytes 30) mac_two_gateways
    = Done tr'
    /\ mac_counts 0 100 tr' = (2, 1).
Proof.
  destruct (MacTransmissionCallback_counted_once (at_time 20 7) (bytes 30)
              mac_two_gateways 0 100 eq_refl) as (tr' & Hrun & Hcount).
  exists tr'. split; [exact Hrun | exact Hcount].
Defined.

Lemma insert_nonempty {V : Type} (k : Z) (v : V) (m : StdMap.t V) :
  (StdMap.size (StdMap.insert k v m) =? 0) = false.
Proof.
  apply Z.eqb_neq. unfold StdMap.size.
  destruct m as [| [k0 v0] m]; simpl; [lia |].
  destruct (k <? k0); [simpl; lia |].
  destruct (k =? k0); simpl; lia.
Qed.

(** X10.  A gateway reception of a packet the MAC layer sent makes the packet
    count as received: the number of packets sent is unchanged, and the
    number received grows by one exactly when the packet was sent in the
    interval and had no reception yet. *)
Theorem MacGwReceptionCallback_counted_once (sim : Simulator)
    (packet : Packet) (tr : t) (s : MacPacketStatus.t)
    (startTime stopTime : Time) :
  IsUplink packet = true ->
  StdMap.find (pkt_addr packet) (m_macPacketTracker tr) = Some s ->
  exists tr',
    MacGwReceptionCallback sim packet tr = Done tr'
    /\ fst (mac_counts startTime stopTime tr')
       = fst (mac_counts startTime stopTime tr)
    /\ snd (mac_counts startTime stopTime tr')
       = snd (mac_counts startTime stopTime tr)
         + (if mac_in_interval startTime stopTime s
               && (StdMap.size (MacPacketStatus.receptionTimes s) =? 0)
            then 1 else 0).
Proof.
  intros Hup Hs. unfold MacGwReceptionCallback. rewrite Hup, Hs.
  eexists. split; [reflexivity |].
  unfold mac_counts. cbn [m_macPacketTracker].
  rewrite !mac_count_loop. cbn [fst snd].
  rewrite !(entries_where_update _ _ _ _ _ Hs). cbv beta.
  assert (Hint : mac_in_interval startTime stopTime (record_reception sim s)
                 = mac_in_interval startTime stopTime s) by reflexivity.
  assert (Hrec : has_receptions (record_reception sim s) = true).
  { unfold has_receptions, record_reception.
    cbn [MacPacketStatus.receptionTimes]. rewrite insert_nonempty.
    reflexivity. }
  rewrite Hint, Hrec. unfold has_receptions.
  destruct (mac_in_interval startTime stopTime s);
    destruct (StdMap.size (MacPacketStatus.receptionTimes s) =? 0);
    cbn [andb negb]; split; lia.
Qed.

Lemma MacGwReceptionCallback_counted_once_witness :
  exists tr',
    MacGwReceptionCallback (at_time 30 3) uplink
      (mk [] [(100, MacPacketStatus.mk uplink 0 5 Time_Max [])] [])
    = Done tr'
    /\ mac_counts 0 100 tr' = (1, 1).
Proof.
  destruct (MacGwReceptionCallback_counted_once (at_time 30 3) uplink
              (mk [] [(100, MacPacketStatus.mk uplink 0 5 Time_Max [])] [])
              (MacPacketStatus.mk uplink 0 5 Time_Max []) 0 100
              eq_refl eq_refl) as (tr' & Hrun & Hsent & Hreceived).
  exists tr'. split; [exact Hrun |].
  rewrite (surjective_pairing (mac_counts 0 100 tr')), Hsent, Hreceived.
  reflexivity.
Defined.

End MacEffects.

(** ** Packet outcome tracker: history and order of events *)

Section History.

Import LoraPacketTracker Examples.
Local Open Scope Z_scope.

Lemma outcomes_kept_refl (s : PacketStatus.t) : outcomes_kept s s.
Proof. repeat split; trivial. Qed.

Lemma receptions_kept_refl (s : MacPacketStatus.t) : receptions_kept s s.
Proof. repeat split; trivial. Qed.

Lemma history_kept_refl (tr : t) : history_kept tr tr.
Proof.
  split; [| split].
  - intros k s H. exists s. split; [exact H | apply outcomes_kept_refl].
  - intros k s H. exists s. split; [exact H | apply receptions_kept_refl].
  - trivial.
Qed.

Lemma history_kept_trans (a b c : t) :
  history_kept a b -> history_kept b c -> history_kept a c.
Proof.
  intros (Hp1 & Hm1 & Hr1) (Hp2 & Hm2 & Hr2). split; [| split].
  - intros k s H. destruct (Hp1 k s H) as (s1 & H1 & (Ep & Et & Ei & Eo)).
    destruct (Hp2 k s1 H1) as (s2 & H2 & (Ep' & Et' & Ei' & Eo')).
    exists s2. split; [exact H2 |].
    repeat split; try congruence. intros g o Hg. apply Eo', Eo, Hg.
  - intros k s H. destruct (Hm1 k s H) as (s1 & H1 & (Ep & Et & Ei & Eo)).
    destruct (Hm2 k s1 H1) as (s2 & H2 & (Ep' & Et' & Ei' & Eo')).
    exists s2. split; [exact H2 |].
    repeat split; try congruence. intros g o Hg. apply Eo', Eo, Hg.
  - intros k e H. apply Hr2, Hr1, H.
Qed.

(** An insertion keeps every entry there was. *)
Lemma find_insert_kept {V : Type} (k k0 : Z) (v v0 : V) (m : StdMap.t V) :
  StdMap.find k m = Some v -> StdMap.find k (StdMap.insert k0 v0 m) = Some v.
Proof.
  intros H. rewrite find_insert.
  destruct (Z.eqb_spec k k0) as [-> | Hne]; [rewrite H; reflexivity | exact H].
Qed.

Lemma history_kept_record_outcome (o : PhyPacketOutcome) (packet : Packet)
    (gwId : Z) (tr tr' : t) :
  record_outcome o packet gwId tr = Done tr' -> history_kept tr tr'.
Proof.
  unfold record_outcome. intros H.
  destruct (IsUplink packet);
    [| injection H as <-; apply history_kept_refl].
  destruct (StdMap.find (pkt_addr packet) (m_packetTracker tr)) eqn:Hfind;
    [| discriminate H].
  injection H as <-. split; [| split]; cbn [m_packetTracker
    m_macPacketTracker m_reTransmissionTracker].
  - intros k s Hs. rewrite find_update.
    destruct (Z.eqb_spec k (pkt_addr packet)) as [-> | Hne].
    + rewrite Hs. cbn [option_map]. eexists. split; [reflexivity |].
      repeat split. intros g o0 Hg. cbn [PacketStatus.set_outcomes
        PacketStatus.outcomes]. apply find_insert_kept, Hg.
    + exists s. split; [exact Hs | apply outcomes_kept_refl].
  - intros k s Hs. exists s. split; [exact Hs | apply receptions_kept_refl].
  - trivial.
Qed.

Lemma history_kept_dispatch (sim : Simulator) (ev : Event) (tr tr' : t) :
  dispatch sim ev tr = Done tr' -> history_kept tr tr'.
Proof.
  intros H.
  destruct ev; simpl in H;
    try (eapply history_kept_record_outcome; exact H).
  - unfold MacTransmissionCallback in H.
    destruct (IsUplink packet);
      [| injection H as <-; apply history_kept_refl].
    injection H as <-. split; [| split]; cbn [m_packetTracker
      m_macPacketTracker m_reTransmissionTracker].
    + intros k s Hs. exists s. split; [exact Hs | apply outcomes_kept_refl].
    + intros k s Hs. exists s.
      split; [apply find_insert_kept, Hs | apply receptions_kept_refl].
    + trivial.
  - unfold RequiredTransmissionsCallback in H. injection H as <-.
    split; [| split]; cbn [m_packetTracker m_macPacketTracker
      m_reTransmissionTracker].
    + intros k s Hs. exists s. split; [exact Hs | apply outcomes_kept_refl].
    + intros k s Hs. exists s.
      split; [exact Hs | apply receptions_kept_refl].
    + intros k e He. apply find_insert_kept, He.
  - unfold MacGwReceptionCallback in H.
    destruct (IsUplink packet);
      [| injection H as <-; apply history_kept_refl].
    destruct (StdMap.find (pkt_addr packet) (m_macPacketTracker tr));
      [| discriminate H].
    injection H as <-. split; [| split]; cbn [m_packetTracker
      m_macPacketTracker m_reTransmissionTracker].
    + intros k s Hs. exists s. split; [exact Hs | apply outcomes_kept_refl].
    + intros k s Hs. rewrite find_update.
      destruct (Z.eqb_spec k (pkt_addr packet)) as [-> | Hne].
      * rewrite Hs. cbn [option_map]. eexists. split; [reflexivity |].
        repeat split. intros g tm Hg. cbn [record_reception
          MacPacketStatus.receptionTimes]. apply find_insert_kept, Hg.
      * exists s. split; [exact Hs | apply receptions_kept_refl].
    + trivial.
  - unfold TransmissionCallback in H.
    destruct (IsUplink packet);
      [| injection H as <-; apply history_kept_refl].
    injection H as <-. split; [| split]; cbn [m_packetTracker
      m_macPacketTracker m_reTransmissionTracker].
    + intros k s Hs. exists s.
      split; [apply find_insert_kept, Hs | apply outcomes_kept_refl].
    + intros k s Hs. exists s.
      split; [exact Hs | apply receptions_kept_refl].
    + trivial.
Qed.

Lemma history_kept_run (evs : list (Simulator * Event)) (tr tr' : t) :
  run evs tr = Done tr' -> history_kept tr tr'.
Proof.
  revert tr. induction evs as [| [sim ev] evs IH]; intros tr H.
  - injection H as <-. apply history_kept_refl.
  - simpl in H. destruct (dispatch sim ev tr) as [tr1 | |] eqn:Hstep;
      try discriminate H.
    apply (history_kept_trans tr tr1 tr').
    + apply (history_kept_dispatch sim ev tr tr1 Hstep).
    + apply (IH tr1 H).
Qed.

(** X11.  Whatever events follow, nothing recorded is lost or rewritten: a PHY
    record keeps its packet, send time, sender and every outcome it has, a
    MAC record keeps its packet, send time, sender and every reception time
    it has, and a retransmission entry stays as it is. *)
Theorem run_keeps_history (evs : list (Simulator * Event)) (tr tr' : t) :
  run evs tr = Done tr' ->
  (forall k s, StdMap.find k (m_packetTracker tr) = Some s ->
     exists s',
       StdMap.find k (m_packetTracker tr') = Some s'
       /\ PacketStatus.packet s' = PacketStatus.packet s
       /\ PacketStatus.sendTime s' = PacketStatus.sendTime s
       /\ PacketStatus.senderId s' = PacketStatus.senderId s
       /\ forall g o, StdMap.find g (PacketStatus.outcomes s) = Some o ->
            StdMap.find g (PacketStatus.outcomes s') = Some o)
  /\ (forall k s, StdMap.find k (m_macPacketTracker tr) = Some s ->
        exists s',
          StdMap.find k (m_macPacketTracker tr') = Some s'
          /\ MacPacketStatus.packet s' = MacPacketStatus.packet s
          /\ MacPacketStatus.sendTime s' = MacPacketStatus.sendTime s
          /\ MacPacketStatus.senderId s' = MacPacketStatus.senderId s
          /\ forall g tm,
               StdMap.find g (MacPacketStatus.receptionTimes s) = Some tm ->
               StdMap.find g (MacPacketStatus.receptionTimes s') = Some tm)
  /\ (forall k e, StdMap.find k (m_reTransmissionTracker tr) = Some e ->
        StdMap.find k (m_reTransmissionTracker tr') = Some e).
Proof. intros H. exact (history_kept_run evs tr tr' H). Qed.

(** Gateway 1 is offered an interference for the packet it received, then
    gateway 2 records one: the reception at gateway 1 stays. *)
Lemma run_keeps_history_witness :
  exists s',
    StdMap.find 100
      (m_packetTracker (phy_state [(1, RECEIVED); (2, INTERFERED)]))
    = Some s'
    /\ StdMap.find 1 (PacketStatus.outcomes s') = Some RECEIVED.
Proof.
  destruct (run_keeps_history
              [(at_time 20 1, EvInterference uplink 1);
               (at_time 20 2, EvInterference uplink 2)]
              received_at_gw1 (phy_state [(1, RECEIVED); (2, INTERFERED)])
              eq_refl) as (Hphy & _ & _).
  destruct (Hphy 100 (status_of [(1, RECEIVED)]) eq_refl)
    as (s' & Hfind & _ & _ & _ & Hout).
  exists s'. split; [exact Hfind |]. apply Hout. reflexivity.
Defined.

(** X12.  Outcome events for two different (packet, gateway) pairs leave the same
    tracker whichever is processed first. *)
Theorem record_outcome_commute (o1 o2 : PhyPacketOutcome) (p1 p2 : Packet)
    (g1 g2 : Z) (tr tr1 tr12 : t) :
  pkt_addr p1 <> pkt_addr p2 \/ int_of_uint32 g1 <> int_of_uint32 g2 ->
  record_outcome o1 p1 g1 tr = Done tr1 ->
  record_outcome o2 p2 g2 tr1 = Done tr12 ->
  exists tr2,
    record_outcome o2 p2 g2 tr = Done tr2
    /\ record_outcome o1 p1 g1 tr2 = Done tr12.
Proof.
  intros Hdiff H1 H2. unfold record_outcome in *.
  destruct (IsUplink p1), (IsUplink p2).
  - destruct (StdMap.find (pkt_addr p1) (m_packetTracker tr)) as [s1 |]
      eqn:Hf1; [| discriminate H1].
    injection H1 as <-. cbn [m_packetTracker m_macPacketTracker
      m_reTransmissionTracker] in H2.
    rewrite find_update in H2.
    assert (Hf2 : exists s2,
               StdMap.find (pkt_addr p2) (m_packetTracker tr) = Some s2).
    { destruct (Z.eqb_spec (pkt_addr p2) (pkt_addr p1)) as [E | _].
      - rewrite E, Hf1. eexists; reflexivity.
      - destruct (StdMap.find (pkt_addr p2) (m_packetTracker tr));
          [eexists; reflexivity | discriminate H2]. }
    destruct Hf2 as (s2 & Hf2).
    assert (H2' : tr12
                  = mk (StdMap.update (pkt_addr p2)
                          (PacketStatus.set_outcomes
                             (StdMap.insert (int_of_uint32 g2) o2))
                          (StdMap.update (pkt_addr p1)
                             (PacketStatus.set_outcomes
                                (StdMap.insert (int_of_uint32 g1) o1))
                             (m_packetTracker tr)))
                      (m_macPacketTracker tr) (m_reTransmissionTracker tr)).
    { destruct (Z.eqb_spec (pkt_addr p2) (pkt_addr p1)) as [E | _].
      - rewrite Hf1 in H2. cbn [option_map] in H2.
        injection H2 as <-. reflexivity.
      - rewrite Hf2 in H2. injection H2 as <-. reflexivity. }
    subst tr12. rewrite Hf2. eexists. split; [reflexivity |].
    cbn [m_packetTracker m_macPacketTracker m_reTransmissionTracker].
    rewrite find_update.
    assert (Hsome : exists s,
               (if pkt_addr p1 =? pkt_addr p2
                then option_map
                       (PacketStatus.set_outcomes
                          (StdMap.insert (int_of_uint32 g2) o2))
                       (StdMap.find (pkt_addr p2) (m_packetTracker tr))
                else StdMap.find (pkt_addr p1) (m_packetTracker tr))
               = Some s).
    { destruct (pkt_addr p1 =? pkt_addr p2).
      - rewrite Hf2. eexists; reflexivity.
      - rewrite Hf1. eexists; reflexivity. }
    destruct Hsome as (s & ->). f_equal. f_equal.
    destruct (Z.eq_dec (pkt_addr p1) (pkt_addr p2)) as [E | Hne].
    + rewrite E, !update_update. apply update_ext. intros v _.
      unfold PacketStatus.set_outcomes. cbn [PacketStatus.packet
        PacketStatus.sendTime PacketStatus.senderId PacketStatus.outcomes].
      f_equal. apply insert_comm. destruct Hdiff; congruence.
    + apply update_comm. exact Hne.
  - destruct (StdMap.find (pkt_addr p1) (m_packetTracker tr)) as [s1 |]
      eqn:Hf1; [| discriminate H1].
    injection H1 as <-. injection H2 as <-.
    eexists. split; [reflexivity |]. rewrite Hf1. reflexivity.
  - injection H1 as <-.
    destruct (StdMap.find (pkt_addr p2) (m_packetTracker tr)) as [s2 |]
      eqn:Hf2; [| discriminate H2].
    injection H2 as <-. eexists. split; reflexivity.
  - injection H1 as <-. injection H2 as <-. eexists. split; reflexivity.
Qed.

Lemma record_outcome_commute_witness :
  exists tr2,
    InterferenceCallback uplink 2 (phy_state []) = Done tr2
    /\ PacketReceptionCallback uplink 1 tr2
       = Done (phy_state [(1, RECEIVED); (2, INTERFERED)]).
Proof.
  apply (record_outcome_commute RECEIVED INTERFERED uplink uplink 1 2
           (phy_state []) received_at_gw1
           (phy_state [(1, RECEIVED); (2, INTERFERED)])).
  - right. discriminate.
  - reflexivity.
  - reflexivity.
Defined.

End History.

Section ReceptionOrder.

Import LoraPacketTracker Examples.
Local Open Scope Z_scope.

Lemma record_reception_commute (sim1 sim2 : Simulator)
    (s : MacPacketStatus.t) :
  int_of_uint32 (GetContext sim1) <> int_of_uint32 (GetContext sim2) ->
  record_reception sim1 (record_reception sim2 s)
  = record_reception sim2 (record_reception sim1 s).
Proof.
  intros Hne. unfold record_reception.
  cbn [MacPacketStatus.packet MacPacketStatus.sendTime
         MacPacketStatus.senderId MacPacketStatus.receivedTime
         MacPacketStatus.receptionTimes].
  f_equal.
  - destruct (Z.ltb_spec (Now sim2) (MacPacketStatus.receivedTime s));
      destruct (Z.ltb_spec (Now sim1) (MacPacketStatus.receivedTime s));
      repeat match goal with
             | |- context [(?a <? ?b)] => destruct (Z.ltb_spec a b)
             end; lia.
  - apply insert_comm. exact Hne.
Qed.

(** X13.  MAC receptions of two different packets, or at two different gateways,
    leave the same tracker whichever is processed first. *)
Theorem MacGwReceptionCallback_commute (sim1 sim2 : Simulator)
    (p1 p2 : Packet) (tr tr1 tr12 : t) :
  pkt_addr p1 <> pkt_addr p2
  \/ int_of_uint32 (GetContext sim1) <> int_of_uint32 (GetContext sim2) ->
  MacGwReceptionCallback sim1 p1 tr = Done tr1 ->
  MacGwReceptionCallback sim2 p2 tr1 = Done tr12 ->
  exists tr2,
    MacGwReceptionCallback sim2 p2 tr = Done tr2
    /\ MacGwReceptionCallback sim1 p1 tr2 = Done tr12.
Proof.
  intros Hdiff H1 H2. unfold MacGwReceptionCallback in *.
  destruct (IsUplink p1), (IsUplink p2).
  - destruct (StdMap.find (pkt_addr p1) (m_macPacketTracker tr)) as [s1 |]
      eqn:Hf1; [| discriminate H1].
    injection H1 as <-. cbn [m_packetTracker m_macPacketTracker
      m_reTransmissionTracker] in H2.
    rewrite find_update in H2.
    assert (Hf2 : exists s2,
               StdMap.find (pkt_addr p2) (m_macPacketTracker tr) = Some s2).
    { destruct (Z.eqb_spec (pkt_addr p2) (pkt_addr p1)) as [E | _].
      - rewrite E, Hf1. eexists; reflexivity.
      - destruct (StdMap.find (pkt_addr p2) (m_macPacketTracker tr));
          [eexists; reflexivity | discriminate H2]. }
    destruct Hf2 as (s2 & Hf2).
    assert (H2' : tr12
                  = mk (m_packetTracker tr)
                      (StdMap.update (pkt_addr p2) (record_reception sim2)
                         (StdMap.update (pkt_addr p1)
                            (record_reception sim1)
                            (m_macPacketTracker tr)))
                      (m_reTransmissionTracker tr)).
    { destruct (Z.eqb_spec (pkt_addr p2) (pkt_addr p1)) as [E | _].
      - rewrite Hf1 in H2. cbn [option_map] in H2.
        injection H2 as <-. reflexivity.
      - rewrite Hf2 in H2. injection H2 as <-. reflexivity. }
    subst tr12. rewrite Hf2. eexists. split; [reflexivity |].
    cbn [m_packetTracker m_macPacketTracker m_reTransmissionTracker].
    rewrite find_update.
    assert (Hsome : exists s,
               (if pkt_addr p1 =? pkt_addr p2
                then option_map (record_reception sim2)
                       (StdMap.find (pkt_addr p2) (m_macPacketTracker tr))
                else StdMap.find (pkt_addr p1) (m_macPacketTracker tr))
               = Some s).
    { destruct (pkt_addr p1 =? pkt_addr p2).
      - rewrite Hf2. eexists; reflexivity.
      - rewrite Hf1. eexists; reflexivity. }
    destruct Hsome as (s & ->). f_equal. f_equal.
    destruct (Z.eq_dec (pkt_addr p1) (pkt_addr p2)) as [E | Hne].
    + rewrite E, !update_update. apply update_ext. intros v _.
      apply record_reception_commute. destruct Hdiff; congruence.
    + apply update_comm. exact Hne.
  - destruct (StdMap.find (pkt_addr p1) (m_macPacketTracker tr)) as [s1 |]
      eqn:Hf1; [| discriminate H1].
    injection H1 as <-. injection H2 as <-.
    eexists. split; [reflexivity |]. rewrite Hf1. reflexivity.
  - injection H1 as <-.
    destruct (StdMap.find (pkt_addr p2) (m_macPacketTracker tr)) as [s2 |]
      eqn:Hf2; [| discriminate H2].
    injection H2 as <-. eexists. split; reflexivity.
  - injection H1 as <-. injection H2 as <-. eexists. split; reflexivity.
Qed.

Lemma MacGwReceptionCallback_commute_witness :
  exists tr2,
    MacGwReceptionCallback (at_time 12 1) uplink
      (mk [] [(100, MacPacketStatus.mk uplink 0 5 Time_Max [])] [])
    = Done tr2
    /\ MacGwReceptionCallback (at_time 10 2) uplink tr2
       = Done mac_two_gateways.
Proof.
  apply (MacGwReceptionCallback_commute (at_time 10 2) (at_time 12 1)
           uplink uplink
           (mk [] [(100, MacPacketStatus.mk uplink 0 5 Time_Max [])] [])
           (mk [] [(100, MacPacketStatus.mk uplink 0 5 10 [(2, 10)])] [])
           mac_two_gateways).
  - right. discriminate.
  - reflexivity.
  - reflexivity.
Defined.

End ReceptionOrder.

(** ** Packet outcome tracker: traffic figures of the report *)

Section Traffic.

Import LoraPacketTracker Examples.

(** The scan adds the packet size to [totBytesReceived] once when some
    gateway received the packet, and nothing otherwise. *)
Lemma scan_outcomes_bytes (size : Z) (outs : StdMap.t PhyPacketOutcome)
    (fl : Flags) (b : Q) :
  snd (scan_outcomes size outs fl b)
  = if has_outcome RECEIVED (StdMap.values outs) then b + inject_Z size
    else b.
Proof.
  revert fl. induction outs as [| [g o] outs IH]; intros fl.
  - reflexivity.
  - destruct o; cbn [scan_outcomes snd outcome_eqb StdMap.values map
      has_outcome existsb orb andb]; try reflexivity;
      change (existsb (outcome_eqb RECEIVED) (map snd outs))
        with (has_outcome RECEIVED (StdMap.values outs));
      rewrite ?andb_true_r, ?andb_false_r;
      repeat match goal with
             | |- context [negb ?x] => destruct x; cbn [negb]
             end;
      apply IH.
Qed.

Lemma classify_priority_received (outs : list PhyPacketOutcome) :
  category_eqb (classify_priority outs) CatReceived
  = has_outcome RECEIVED outs.
Proof.
  unfold classify_priority.
  destruct (has_outcome RECEIVED outs); [reflexivity |].
  destruct (has_outcome INTERFERED outs); [reflexivity |].
  destruct (has_outcome NO_MORE_RECEIVERS outs); [reflexivity |].
  destruct (has_outcome LOST_BECAUSE_TX outs); reflexivity.
Qed.

Lemma bytes_where_cons (P : PacketStatus.t -> bool)
    (e : Z * PacketStatus.t) (m : StdMap.t PacketStatus.t) :
  bytes_where P (e :: m)
  = ((if P (snd e) then GetSize (PacketStatus.packet (snd e)) else 0)
     + bytes_where P m)%Z.
Proof. reflexivity. Qed.

Lemma totBytes_bump (c : Category) (acc : Totals) :
  totBytesSent (bump c acc) = totBytesSent acc
  /\ totBytesReceived (bump c acc) = totBytesReceived acc.
Proof. destruct c; split; reflexivity. Qed.

Variables (dflt : LoraPhy.LoraTxParameters) (startTime : Time).

Lemma stat_loop_bytes (records : StdMap.t PacketStatus.t) (acc : Totals) :
  totBytesSent (fold_left (stat_step dflt startTime) records acc)
  == totBytesSent acc
     + inject_Z (bytes_where (in_window startTime) records)
  /\ totBytesReceived (fold_left (stat_step dflt startTime) records acc)
     == totBytesReceived acc
        + inject_Z (bytes_where (counted_as startTime CatReceived) records).
Proof.
  revert acc. induction records as [| e records IH]; intros acc.
  - cbn [fold_left]. change (inject_Z (bytes_where _ [])) with 0.
    split; rewrite Qplus_0_r; reflexivity.
  - simpl fold_left. destruct (IH (stat_step dflt startTime acc e))
      as [IHs IHr].
    rewrite IHs, IHr, !bytes_where_cons, !inject_Z_plus.
    unfold stat_step, counted_as, in_window.
    destruct (skipped startTime (snd e)); cbn [negb andb].
    + change (inject_Z 0) with 0. split; ring.
    + destruct (totBytes_bump
                  (category_of_flags
                     (fst (scan_outcomes
                             (GetSize (PacketStatus.packet (snd e)))
                             (PacketStatus.outcomes (snd e)) no_flags
                             (totBytesReceived acc))))
                  (mkTotals (wrap32 (total acc + 1)) (totReceived acc)
                     (totInterfered acc) (totNoMorePaths acc)
                     (totBusyGw acc) (totUnderSens acc)
                     (snd (scan_outcomes
                             (GetSize (PacketStatus.packet (snd e)))
                             (PacketStatus.outcomes (snd e)) no_flags
                             (totBytesReceived acc)))
                     (totBytesSent acc
                      + inject_Z (GetSize (PacketStatus.packet (snd e))))
                     (add_airtime (totOffTraff acc)
                        (stat_airtime dflt (PacketStatus.packet (snd e))))))
        as [-> ->].
      cbn [totBytesSent totBytesReceived].
      rewrite scan_outcomes_bytes, classify_priority_received.
      destruct (has_outcome RECEIVED
                  (StdMap.values (PacketStatus.outcomes (snd e)))).
      * split; ring.
      * change (inject_Z 0) with 0. split; ring.
Qed.

Lemma bytes_where_le (P Q : PacketStatus.t -> bool)
    (m : StdMap.t PacketStatus.t) :
  (forall s, P s = true -> Q s = true) ->
  (forall k s, In (k, s) m -> (0 <= GetSize (PacketStatus.packet s))%Z) ->
  (0 <= bytes_where P m <= bytes_where Q m)%Z.
Proof.
  intros HPQ. induction m as [| [k s] m IH]; intros Hsize.
  - unfold bytes_where. simpl. lia.
  - rewrite !bytes_where_cons. cbn [snd].
    assert (Hs : (0 <= GetSize (PacketStatus.packet s))%Z).
    { apply (Hsize k). left. reflexivity. }
    assert (IH' : (0 <= bytes_where P m <= bytes_where Q m)%Z).
    { apply IH. intros k' s' Hin. apply (Hsize k'). right. exact Hin. }
    destruct (P s) eqn:HP; [rewrite (HPQ _ HP); lia |].
    destruct (Q s); lia.
Qed.

End Traffic.

Section TrafficProperties.

Import LoraPacketTracker Examples.

Lemma Time_GetSeconds_pos (t : Time) : (0 < t)%Z -> 0 < Time_GetSeconds t.
Proof.
  intros H. unfold Time_GetSeconds, Qdiv.
  apply Qmult_lt_0_compat; [| reflexivity].
  change 0 with (inject_Z 0). rewrite <- Zlt_Qlt. exact H.
Qed.

(** X14.  When the statistics start before the current time, the function
    returns a report in which the input traffic is 8 times the bytes of the
    packets of the window over the elapsed seconds, and the network
    throughput is 8 times the bytes of the packets some gateway received over
    the same time, a packet received by several gateways being counted once;
    so, packet sizes being non-negative, the throughput is at most the input
    traffic. *)
Theorem throughput_within_input_traffic (dflt : LoraPhy.LoraTxParameters)
    (sim : Simulator) (startTime : Time) (tr : t) :
  (startTime < Now sim)%Z ->
  let seconds := Time_GetSeconds (Now sim - startTime)%Z in
  exists rep input output,
    PrintSimulationStatistics dflt sim startTime tr = Printed rep
    /\ rep_inputTraffic rep = Fin input
    /\ rep_networkThroughput rep = Fin output
    /\ input
       == inject_Z (bytes_where (in_window startTime) (m_packetTracker tr))
          * 8 / seconds
    /\ output
       == inject_Z (bytes_where (counted_as startTime CatReceived)
                      (m_packetTracker tr))
          * 8 / seconds
    /\ ((forall k s, In (k, s) (m_packetTracker tr) ->
           (0 <= GetSize (PacketStatus.packet s))%Z) ->
        0 <= output /\ output <= input).
Proof.
  intros Hnow seconds.
  assert (Hsec : 0 < seconds).
  { apply Time_GetSeconds_pos. lia. }
  destruct (stat_loop_bytes dflt startTime (m_packetTracker tr) zero_totals)
    as [Hsent Hrecv].
  change (totBytesSent zero_totals) with 0 in Hsent.
  change (totBytesReceived zero_totals) with 0 in Hrecv.
  rewrite Qplus_0_l in Hsent, Hrecv.
  fold (simulation_totals dflt startTime tr) in Hsent, Hrecv.
  exists (statistics_report dflt sim startTime tr).
  eexists. eexists.
  split; [apply PrintSimulationStatistics_returns, Hnow |].
  unfold statistics_report.
  cbn [rep_inputTraffic rep_networkThroughput]. fold seconds.
  rewrite !(ddiv_pos _ _ Hsec).
  split; [reflexivity |]. split; [reflexivity |].
  split; [rewrite Hsent; reflexivity |].
  split; [rewrite Hrecv; reflexivity |].
  intros Hsize. rewrite Hsent, Hrecv.
  destruct (bytes_where_le (counted_as startTime CatReceived)
              (in_window startTime) (m_packetTracker tr)) as [H0 Hle].
  { intros s H. unfold counted_as in H. apply andb_true_iff in H. apply H. }
  { exact Hsize. }
  assert (Hinv : 0 <= / seconds).
  { apply Qlt_le_weak, Qinv_lt_0_compat, Hsec. }
  unfold Qdiv. split.
  - apply Qmult_le_0_compat; [| exact Hinv].
    apply Qmult_le_0_compat; [| discriminate].
    change 0 with (inject_Z 0). rewrite <- Zle_Qle. exact H0.
  - apply Qmult_le_compat_r; [| exact Hinv].
    apply Qmult_le_compat_r; [| discriminate].
    rewrite <- Zle_Qle. exact Hle.
Qed.

Lemma throughput_within_input_traffic_witness :
  exists rep input output,
    PrintSimulationStatistics (params_sf 7) (at_time 20000000000 0) 10%Z
      interfered_then_received = Printed rep
    /\ rep_inputTraffic rep = Fin input
    /\ rep_networkThroughput rep = Fin output
    /\ 0 <= output /\ output <= input.
Proof.
  destruct (throughput_within_input_traffic (params_sf 7)
              (at_time 20000000000 0) 10%Z interfered_then_received
              ltac:(simpl; lia))
    as (rep & input & output & Hrep & Hin & Hout & _ & _ & Hle).
  exists rep, input, output.
  split; [exact Hrep |]. split; [exact Hin |]. split; [exact Hout |].
  apply Hle. intros k s [Heq | []]. injection Heq as <- <-.
  simpl. lia.
Defined.

End TrafficProperties.

(** ** PHY timing: further properties *)

Section PhyProperties.

Import LoraPhy LoraPacketTracker Examples.



(** The symbol time is at most 16 ms when 2^sf is at most 4 and the
    bandwidth at least 250 Hz. *)
Lemma short_symbol (s : Z) (bw : Q) :
  (1 <= s <= 2)%Z -> 250 <= bw ->
  (Round (inject_Z (2 ^ s) / bw * 1000000000) <= MilliSeconds 16)%Z.
Proof.
  intros Hs Hbw.
  assert (Hpos : 0 < bw).
  { apply Qlt_le_trans with 250; [reflexivity | exact Hbw]. }
  rewrite <- (Round_inject_Z (MilliSeconds 16)). apply Round_le.
  setoid_replace (inject_Z (MilliSeconds 16))
    with ((16 # 1000) * 1000000000) by reflexivity.
  apply Qmult_le_compat_r; [| discriminate].
  apply Qle_shift_div_r; [exact Hpos |].
  apply Qle_trans with (inject_Z 4).
  - rewrite <- Zle_Qle.
    assert (E : s = 1%Z \/ s = 2%Z) by lia.
    destruct E as [-> | ->]; simpl; lia.
  - apply Qle_trans with ((16 # 1000) * 250); [discriminate |].
    apply Qmult_le_l; [reflexivity | exact Hbw].
Qed.

(** X15.  The parameters the statistics loop builds keep the contract of
    [GetOnAirTime]: with a tag spreading factor of at least 1 and a bandwidth
    of at least 250 Hz, they are defined, their spreading factor is the one
    of the tag and exceeds twice the low-data-rate flag, so the denominator
    of the formula is positive. *)
Theorem stat_params_denominator_positive (dflt : LoraTxParameters)
    (p : Packet) :
  (1 <= tag_GetSpreadingFactor p)%Z ->
  250 <= bandwidthHz dflt ->
  exists params,
    stat_params dflt p = Some params
    /\ LoraPhy.sf params = tag_GetSpreadingFactor p
    /\ (LoraPhy.sf params
        > 2 * b2z (lowDataRateOptimizationEnabled params))%Z
    /\ 0 < 4 * (inject_Z (LoraPhy.sf params)
                - 2 * b2q (lowDataRateOptimizationEnabled params)).
Proof.
  intros Hsf Hbw.
  assert (Hpos : 0 < bandwidthHz dflt).
  { apply Qlt_le_trans with 250; [reflexivity | exact Hbw]. }
  assert (Hnz : ~ bandwidthHz dflt == 0).
  { intros E. rewrite E in Hpos. discriminate Hpos. }
  unfold stat_params. rewrite GetTSym_value by exact Hnz.
  cbn [LoraPhy.sf bandwidthHz headerDisabled codingRate nPreamble crcEnabled
         lowDataRateOptimizationEnabled].
  eexists. split; [reflexivity |].
  cbn [LoraPhy.sf lowDataRateOptimizationEnabled].
  split; [reflexivity |].
  assert (Hgt : (tag_GetSpreadingFactor p
                 > 2 * b2z (MilliSeconds 16
                            <? Round (inject_Z (2 ^ tag_GetSpreadingFactor p)
                                      / bandwidthHz dflt * 1000000000)))%Z).
  { destruct (Z.le_gt_cases 3 (tag_GetSpreadingFactor p)) as [H3 | H3].
    - destruct (_ <? _)%Z; cbn [b2z]; lia.
    - pose proof (short_symbol (tag_GetSpreadingFactor p) (bandwidthHz dflt)
                    ltac:(lia) Hbw) as Hshort.
      apply Z.ltb_ge in Hshort. rewrite Hshort. cbn [b2z]. lia. }
  split; [exact Hgt |].
  apply (den_pos (mkParams (tag_GetSpreadingFactor p) (headerDisabled dflt)
                    (codingRate dflt) (bandwidthHz dflt) (nPreamble dflt)
                    (crcEnabled dflt)
                    (MilliSeconds 16
                     <? Round (inject_Z (2 ^ tag_GetSpreadingFactor p)
                               / bandwidthHz dflt * 1000000000))%Z)).
  cbn [LoraPhy.sf lowDataRateOptimizationEnabled]. lia.
Qed.

Lemma stat_params_denominator_positive_witness :
  exists params,
    stat_params (params_sf 7) (mkPacket 1 20 true 12) = Some params
    /\ LoraPhy.sf params = 12%Z
    /\ (LoraPhy.sf params
        > 2 * b2z (lowDataRateOptimizationEnabled params))%Z.
Proof.
  destruct (stat_params_denominator_positive (params_sf 7)
              (mkPacket 1 20 true 12))
    as (params & Hparams & Hsf & Hgt & _).
  - simpl. lia.
  - discriminate.
  - exists params. split; [exact Hparams |]. split; [exact Hsf | exact Hgt].
Defined.

(** At 125 kHz a symbol lasts 2^sf times 8000 ns. *)
Lemma GetTSym_125kHz (p : LoraTxParameters) :
  bandwidthHz p == 125000 -> (0 <= LoraPhy.sf p)%Z ->
  GetTSym p = Some (2 ^ LoraPhy.sf p * 8000)%Z.
Proof.
  intros Hbw Hsf. rewrite GetTSym_value.
  - f_equal. rewrite <- (Round_inject_Z (2 ^ LoraPhy.sf p * 8000)).
    apply Round_comp. rewrite Hbw, inject_Z_mult.
    change (inject_Z 8000) with 8000. field.
  - intros E. rewrite E in Hbw. discriminate Hbw.
Qed.

(** X16.  At 125 kHz the statistics loop switches the low-data-rate
    optimisation on exactly from spreading factor 11 (a symbol of
    16.384 ms). *)
Theorem stat_params_low_data_rate_from_sf11 (dflt : LoraTxParameters)
    (p : Packet) :
  bandwidthHz dflt == 125000 ->
  (0 <= tag_GetSpreadingFactor p)%Z ->
  exists params,
    stat_params dflt p = Some params
    /\ lowDataRateOptimizationEnabled params
       = (11 <=? tag_GetSpreadingFactor p)%Z.
Proof.
  intros Hbw Hsf. unfold stat_params.
  rewrite (GetTSym_125kHz
             (mkParams (tag_GetSpreadingFactor p) (headerDisabled dflt)
                (codingRate dflt) (bandwidthHz dflt) (nPreamble dflt)
                (crcEnabled dflt) (lowDataRateOptimizationEnabled dflt))
             Hbw Hsf).
  cbn [LoraPhy.sf bandwidthHz headerDisabled codingRate nPreamble crcEnabled
         lowDataRateOptimizationEnabled].
  eexists. split; [reflexivity |].
  cbn [lowDataRateOptimizationEnabled].
  set (s := tag_GetSpreadingFactor p) in *. unfold MilliSeconds.
  destruct (Z.leb_spec 11 s) as [H | H].
  - apply Z.ltb_lt.
    assert (Hpow : (2 ^ 11 <= 2 ^ s)%Z) by (apply Z.pow_le_mono_r; lia).
    change (2 ^ 11)%Z with 2048%Z in Hpow. lia.
  - apply Z.ltb_ge.
    assert (Hpow : (2 ^ s <= 2 ^ 10)%Z) by (apply Z.pow_le_mono_r; lia).
    change (2 ^ 10)%Z with 1024%Z in Hpow. lia.
Qed.

Lemma stat_params_low_data_rate_from_sf11_witness :
  (exists params,
     stat_params (params_sf 7) (mkPacket 1 20 true 11) = Some params
     /\ lowDataRateOptimizationEnabled params = true)
  /\ exists params,
       stat_params (params_sf 7) (mkPacket 1 20 true 10) = Some params
       /\ lowDataRateOptimizationEnabled params = false.
Proof.
  split.
  - apply (stat_params_low_data_rate_from_sf11 (params_sf 7)
             (mkPacket 1 20 true 11)); [reflexivity | simpl; lia].
  - apply (stat_params_low_data_rate_from_sf11 (params_sf 7)
             (mkPacket 1 20 true 10)); [reflexivity | simpl; lia].
Defined.







End PhyProperties.

Section PhyRounding.

Import LoraPhy LoraPacketTracker Examples.



(** At 41.7 kHz the symbol times are 3069544 ns and 6139089 ns, which is
    not twice as much, and the 60.25 symbols of a packet of 23 bytes take
    60.25 times 3069544 ns, where the formula gives 184940047.96... *)
Lemma GetOnAirTime_at_41700_Hz :
  GetTSym (mkParams 7 false 1 41700 8 true false) = Some 3069544%Z
  /\ GetTSym (mkParams 8 false 1 41700 8 true false) = Some 6139089%Z
  /\ GetOnAirTime (bytes 23) (mkParams 7 false 1 41700 8 true false)
     = Some 184940026%Z
  /\ Seconds_double
       (Fin (Spec.OnAirTime_of (bytes 23)
               (mkParams 7 false 1 41700 8 true false)))
     = Some 184940048%Z.
Proof. repeat split; vm_compute; reflexivity. Qed.

(** With a spreading factor of 0, the value of a default-constructed
    [LoraTag], the denominator is zero and the quotient an infinity, for
    which [Seconds] defines no result. *)
Lemma GetOnAirTime_at_sf_0 :
  payloadSymbNb (GetSize (bytes 23)) (params_sf 0) = PInf
  /\ GetOnAirTime (bytes 23) (params_sf 0) = None.
Proof. split; vm_compute; reflexivity. Qed.

(** What the comparison of two on-air times at the same spreading factor
    and bandwidth comes down to. *)
Lemma GetOnAirTime_compare (packet : Packet) (p p' : LoraTxParameters) :
  0 < bandwidthHz p ->
  (LoraPhy.sf p > 2 * b2z (lowDataRateOptimizationEnabled p))%Z ->
  LoraPhy.sf p' = LoraPhy.sf p -> bandwidthHz p' = bandwidthHz p ->
  lowDataRateOptimizationEnabled p' = lowDataRateOptimizationEnabled p ->
  (nPreamble p <= nPreamble p')%Z ->
  payload_symbols (GetSize packet) p <= payload_symbols (GetSize packet) p' ->
  exists t t',
    GetOnAirTime packet p = Some t
    /\ GetOnAirTime packet p' = Some t'
    /\ (t <= t')%Z.
Proof.
  intros Hbw Hsf Esf Ebw Ede Hn Hsymbols.
  assert (Hde : (0 <= b2z (lowDataRateOptimizationEnabled p))%Z)
    by (destruct (lowDataRateOptimizationEnabled p); cbn [b2z]; lia).
  destruct (GetTSym_nonneg p Hbw) as (tSym & Ht & Hpos); [lia |].
  assert (Ht' : GetTSym p' = Some tSym).
  { unfold GetTSym in *. rewrite Esf, Ebw. exact Ht. }
  exists (Round (air_seconds tSym packet p * 1000000000)),
         (Round (air_seconds tSym packet p' * 1000000000)).
  split; [apply GetOnAirTime_value; [exact Ht | lia] |].
  split; [apply GetOnAirTime_value; [exact Ht' | rewrite Esf, Ede; lia] |].
  apply Round_air_seconds_le. unfold air_seconds.
  pose proof (Time_GetSeconds_nonneg tSym Hpos) as Hsec.
  apply Qplus_le_compat.
  - apply Qmult_le_compat_r; [| exact Hsec].
    apply Qplus_le_l. rewrite <- Zle_Qle. exact Hn.
  - apply Qmult_le_compat_r; [exact Hsymbols | exact Hsec].
Qed.

(** X20.  With a positive bandwidth and sf > 2*lowDataRateOptimization, a
    higher coding rate or a longer preamble never shortens the on-air time
    of a packet. *)
Theorem GetOnAirTime_monotone_in_coding_rate_and_preamble (packet : Packet)
    (s cr cr' n n' : Z) (h crc de : bool) (bw : Q) :
  0 < bw -> (s > 2 * b2z de)%Z ->
  (0 <= cr <= cr')%Z -> (n <= n')%Z ->
  exists t t',
    GetOnAirTime packet (mkParams s h cr bw n crc de) = Some t
    /\ GetOnAirTime packet (mkParams s h cr' bw n' crc de) = Some t'
    /\ (t <= t')%Z.
Proof.
  intros Hbw Hs Hcr Hn.
  apply GetOnAirTime_compare; try reflexivity; try assumption.
  unfold payload_symbols.
  cbn [LoraPhy.sf codingRate headerDisabled crcEnabled
         lowDataRateOptimizationEnabled].
  set (c := Qceiling _).
  apply Qplus_le_compat; [apply Qle_refl |].
  rewrite <- !inject_Z_mult, !Qmax_inject_Z, <- Zle_Qle.
  destruct (Z.le_gt_cases 0 c) as [Hc | Hc].
  - apply Z.max_le_compat_l. apply Z.mul_le_mono_nonneg_l; lia.
  - rewrite !Z.max_l by nia. lia.
Qed.

Lemma GetOnAirTime_monotone_in_coding_rate_and_preamble_witness :
  exists t t',
    GetOnAirTime (bytes 23) (mkParams 9 false 1 125000 8 true false) = Some t
    /\ GetOnAirTime (bytes 23) (mkParams 9 false 4 125000 12 true false)
       = Some t'
    /\ (t <= t')%Z.
Proof.
  apply (GetOnAirTime_monotone_in_coding_rate_and_preamble (bytes 23)
           9 1 4 8 12 false true false 125000).
  - reflexivity.
  - simpl. lia.
  - lia.
  - lia.
Defined.

(** X21.  With sf > 2*lowDataRateOptimization, a packet with the CRC takes at
    least as long as without it, and a packet with the explicit header at
    least as long as with the implicit one. *)
Theorem GetOnAirTime_crc_and_header_cost (packet : Packet)
    (s cr n : Z) (h crc de : bool) (bw : Q) :
  0 < bw -> (0 <= cr)%Z -> (s > 2 * b2z de)%Z ->
  (exists t t',
     GetOnAirTime packet (mkParams s h cr bw n false de) = Some t
     /\ GetOnAirTime packet (mkParams s h cr bw n true de) = Some t'
     /\ (t <= t')%Z)
  /\ exists t t',
       GetOnAirTime packet (mkParams s true cr bw n crc de) = Some t
       /\ GetOnAirTime packet (mkParams s false cr bw n crc de) = Some t'
       /\ (t <= t')%Z.
Proof.
  intros Hbw Hcr Hs.
  assert (Hden : 0 < 4 * (inject_Z s - 2 * b2q de)).
  { apply (den_pos (mkParams s h cr bw n crc de)).
    cbn [LoraPhy.sf lowDataRateOptimizationEnabled]. lia. }
  assert (Hk : 0 <= inject_Z (cr + 4)).
  { change 0 with (inject_Z 0). rewrite <- Zle_Qle. lia. }
  split.
  - apply GetOnAirTime_compare; try reflexivity; try assumption.
    unfold payload_symbols.
    cbn [LoraPhy.sf codingRate headerDisabled crcEnabled
           lowDataRateOptimizationEnabled nPreamble].
    apply Qplus_le_compat; [apply Qle_refl |].
    apply Q.max_le_compat_r. apply Qmult_le_compat_r; [| exact Hk].
    rewrite <- Zle_Qle. apply Qceiling_div_mono; [exact Hden |].
    unfold Qminus. apply Qplus_le_compat; [| apply Qle_refl].
    apply Qplus_le_compat; [apply Qle_refl | discriminate].
  - apply GetOnAirTime_compare; try reflexivity; try assumption.
    unfold payload_symbols.
    cbn [LoraPhy.sf codingRate headerDisabled crcEnabled
           lowDataRateOptimizationEnabled nPreamble].
    apply Qplus_le_compat; [apply Qle_refl |].
    apply Q.max_le_compat_r. apply Qmult_le_compat_r; [| exact Hk].
    rewrite <- Zle_Qle. apply Qceiling_div_mono; [exact Hden |].
    unfold Qminus. apply Qplus_le_compat; [apply Qle_refl | discriminate].
Qed.

Lemma GetOnAirTime_crc_and_header_cost_witness :
  (exists t t',
     GetOnAirTime (bytes 23) (mkParams 9 false 1 125000 8 false false)
     = Some t
     /\ GetOnAirTime (bytes 23) (mkParams 9 false 1 125000 8 true false)
        = Some t'
     /\ (t <= t')%Z)
  /\ exists t t',
       GetOnAirTime (bytes 23) (mkParams 9 true 1 125000 8 true false)
       = Some t
       /\ GetOnAirTime (bytes 23) (mkParams 9 false 1 125000 8 true false)
          = Some t'
       /\ (t <= t')%Z.
Proof.
  apply (GetOnAirTime_crc_and_header_cost (bytes 23) 9 1 8 false true false
           125000).
  - reflexivity.
  - lia.
  - simpl. lia.
Defined.

End PhyRounding.

(** ** Bike traces *)

Section BikeNumbers.

Import BikeMobility.
Local Open Scope Z_scope.

Lemma string_lt_trans (a b c : string) :
  string_lt a b -> string_lt b c -> string_lt a c.
Proof.
  unfold string_lt. intros H1 H2.
  apply String_as_OT.cmp_lt. apply String_as_OT.cmp_lt in H1, H2.
  apply (String_as_OT.lt_trans _ _ _ H1 H2).
Qed.

Lemma string_gt_lt (a b : string) :
  String.compare a b = Gt -> string_lt b a.
Proof.
  unfold string_lt. intros H.
  rewrite String.compare_antisym, H. reflexivity.
Qed.

Lemma string_lt_neq (a b : string) : string_lt a b -> a <> b.
Proof.
  unfold string_lt. intros H ->.
  assert (E : String.compare b b = Eq) by (apply String_as_OT.cmp_eq; reflexivity).
  congruence.
Qed.

Lemma set_insert_In (x y : string) (s : list string) :
  In y (set_insert x s) <-> y = x \/ In y s.
Proof.
  induction s as [| z s IH]; simpl.
  - intuition.
  - destruct (String.compare x z) eqn:E; simpl.
    + apply String.compare_eq_iff in E. subst z. intuition.
    + intuition.
    + rewrite IH. intuition.
Qed.

Lemma set_insert_sorted (x : string) (s : list string) :
  StronglySorted string_lt s -> StronglySorted string_lt (set_insert x s).
Proof.
  induction s as [| z s IH]; simpl; intros Hs.
  - constructor; constructor.
  - inversion Hs as [| ? ? Hs' Hall]; subst.
    destruct (String.compare x z) eqn:E.
    + exact Hs.
    + constructor; [exact Hs |].
      constructor; [exact E |].
      eapply Forall_impl; [| exact Hall].
      intros a Ha. apply (string_lt_trans x z a E Ha).
    + constructor; [apply IH, Hs' |].
      apply Forall_forall. intros a Ha. apply set_insert_In in Ha.
      destruct Ha as [-> | Ha].
      * apply string_gt_lt, E.
      * rewrite Forall_forall in Hall. apply Hall, Ha.
Qed.

Lemma uniqueBikeNumbers_from (dataset : list BikeData) (s : list string) :
  StronglySorted string_lt s ->
  let u := fold_left (fun s data => set_insert (bikeNumber data) s)
             dataset s in
  StronglySorted string_lt u
  /\ forall b, In b u <->
               In b s \/ exists d, In d dataset /\ bikeNumber d = b.
Proof.
  revert s. induction dataset as [| d dataset IH]; intros s Hs; simpl.
  - split; [exact Hs |]. intros b. split; [intros H; left; exact H |].
    intros [H | (d & [] & _)]. exact H.
  - destruct (IH (set_insert (bikeNumber d) s) (set_insert_sorted _ _ Hs))
      as [Hsorted Hin].
    split; [exact Hsorted |].
    intros b. rewrite Hin, set_insert_In. split.
    + intros [[-> | H] | (d' & Hd' & E)].
      * right. exists d. split; [left; reflexivity | reflexivity].
      * left. exact H.
      * right. exists d'. split; [right; exact Hd' | exact E].
    + intros [H | (d' & [-> | Hd'] & E)].
      * left. right. exact H.
      * left. left. symmetry. exact E.
      * right. exists d'. split; [exact Hd' | exact E].
Qed.

(** A key greater than all the keys of the map goes to its end. *)
Lemma map_assign_last (k : string) (v : Z) (m : list (string * Z)) :
  Forall (fun e => string_lt (fst e) k) m ->
  map_assign k v m = m ++ [(k, v)].
Proof.
  induction m as [| [k' v'] m IH]; simpl; intros H; [reflexivity |].
  inversion H as [| ? ? Hk Hm]; subst. simpl in Hk. unfold string_lt in Hk.
  rewrite String.compare_antisym, Hk. simpl. rewrite (IH Hm). reflexivity.
Qed.

Lemma sorted_before (l1 l2 : list string) (x : string) :
  StronglySorted string_lt (l1 ++ x :: l2) ->
  Forall (fun y => string_lt y x) l1.
Proof.
  induction l1 as [| a l1 IH]; simpl; intros H; [constructor |].
  inversion H as [| ? ? Hs Hall]; subst.
  constructor; [| apply IH, Hs].
  rewrite Forall_forall in Hall. apply Hall.
  apply in_or_app. right. left. reflexivity.
Qed.

Lemma first_keys_snoc (n : nat) :
  first_keys (S n) = first_keys n ++ [Z.of_nat n].
Proof.
  unfold first_keys. rewrite seq_S, map_app. reflexivity.
Qed.

Lemma combine_snoc (l : list string) (ks : list Z) (x : string) (k : Z) :
  List.length l = List.length ks ->
  combine (l ++ [x]) (ks ++ [k]) = combine l ks ++ [(x, k)].
Proof.
  revert ks. induction l as [| a l IH]; intros [| b ks] Hlen;
    simpl in *; try discriminate; [reflexivity |].
  rewrite IH by (injection Hlen as ->; reflexivity). reflexivity.
Qed.

Lemma first_keys_length (n : nat) : List.length (first_keys n) = n.
Proof. unfold first_keys. rewrite length_map, length_seq. reflexivity. Qed.

Lemma assign_keys_from (done rest : list string) :
  StronglySorted string_lt (done ++ rest) ->
  fold_left assign_key rest
    (combine done (first_keys (List.length done)),
     Z.of_nat (List.length done))
  = (combine (done ++ rest) (first_keys (List.length (done ++ rest))),
     Z.of_nat (List.length (done ++ rest))).
Proof.
  revert done. induction rest as [| x rest IH]; intros done Hs.
  - rewrite app_nil_r. reflexivity.
  - simpl fold_left. unfold assign_key at 2. cbn [fst snd].
    rewrite map_assign_last.
    + replace (done ++ x :: rest) with ((done ++ [x]) ++ rest)
        by (rewrite <- app_assoc; reflexivity).
      rewrite <- IH by (rewrite <- app_assoc; exact Hs).
      rewrite length_app. cbn [List.length]. rewrite Nat.add_1_r.
      rewrite first_keys_snoc, combine_snoc
        by (rewrite first_keys_length; reflexivity).
      f_equal. f_equal. lia.
    + apply Forall_forall. intros [k v] Hin. cbn [fst].
      apply in_combine_l in Hin.
      pose proof (sorted_before done rest x Hs) as Hb.
      rewrite Forall_forall in Hb. apply Hb, Hin.
Qed.

Lemma createBikeNumberMap_combine (dataset : list BikeData) :
  let u := uniqueBikeNumbers dataset in
  createBikeNumberMap dataset = combine u (first_keys (List.length u))
  /\ StronglySorted string_lt u
  /\ forall b, In b u <-> exists d, In d dataset /\ bikeNumber d = b.
Proof.
  intros u.
  destruct (uniqueBikeNumbers_from dataset [] (SSorted_nil _))
    as [Hsorted Hin].
  fold (uniqueBikeNumbers dataset) in Hsorted, Hin. fold u in Hsorted, Hin.
  split; [| split].
  - unfold createBikeNumberMap. fold u.
    exact (f_equal fst (assign_keys_from [] u Hsorted)).
  - exact Hsorted.
  - intros b. rewrite Hin. split; [intros [[] | H]; exact H | right; exact H].
Qed.

(** X22.  [createBikeNumberMap] gives the distinct bike numbers of the dataset,
    in lexicographic order, the keys 0, 1, 2, ... in that order. *)
Theorem createBikeNumberMap_keys_in_order (dataset : list BikeData) :
  let u := uniqueBikeNumbers dataset in
  createBikeNumberMap dataset = combine u (first_keys (List.length u))
  /\ StronglySorted string_lt u
  /\ forall b, In b u <-> exists d, In d dataset /\ bikeNumber d = b.
Proof. exact (createBikeNumberMap_combine dataset). Qed.

End BikeNumbers.

Section BikeWaypoints.

Import BikeMobility.
Local Open Scope Z_scope.

Lemma sorted_NoDup (u : list string) :
  StronglySorted string_lt u -> NoDup u.
Proof.
  induction 1 as [| a l Hs IH Hall]; constructor; [| exact IH].
  intros Hin. rewrite Forall_forall in Hall.
  apply (string_lt_neq a a (Hall a Hin)). reflexivity.
Qed.

Lemma key_of_In (b : string) (k : Z) (m : list (string * Z)) :
  key_of b m = Some k -> In (b, k) m.
Proof.
  induction m as [| [k' v'] m IH]; simpl; [discriminate |].
  destruct (String.eqb_spec k' b) as [-> | Hne]; intros H.
  - injection H as ->. left. reflexivity.
  - right. apply IH, H.
Qed.

Lemma key_of_None (b : string) (m : list (string * Z)) :
  key_of b m = None <-> ~ In b (map fst m).
Proof.
  induction m as [| [k' v'] m IH]; simpl; [intuition |].
  destruct (String.eqb_spec k' b) as [-> | Hne].
  - split; [discriminate | intros H; destruct H; left; reflexivity].
  - rewrite IH. intuition.
Qed.

Lemma combine_fst (u : list string) (ks : list Z) :
  List.length u = List.length ks -> map fst (combine u ks) = u.
Proof.
  revert ks. induction u as [| a u IH]; intros [| k ks] H;
    simpl in *; try discriminate; [reflexivity |].
  rewrite IH by (injection H as ->; reflexivity). reflexivity.
Qed.

Lemma combine_snd (u : list string) (ks : list Z) :
  List.length u = List.length ks -> map snd (combine u ks) = ks.
Proof.
  revert ks. induction u as [| a u IH]; intros [| k ks] H;
    simpl in *; try discriminate; [reflexivity |].
  rewrite IH by (injection H as ->; reflexivity). reflexivity.
Qed.

Lemma first_keys_NoDup (n : nat) : NoDup (first_keys n).
Proof.
  unfold first_keys. generalize 0%nat.
  induction n as [| n IH]; intros start; simpl; constructor.
  - intros Hin. apply in_map_iff in Hin. destruct Hin as (i & Hi & Hin).
    apply in_seq in Hin. lia.
  - apply IH.
Qed.

Lemma first_keys_range (n : nat) (k : Z) :
  In k (first_keys n) -> 0 <= k < Z.of_nat n.
Proof.
  unfold first_keys. intros H. apply in_map_iff in H.
  destruct H as (i & <- & Hi). apply in_seq in Hi. lia.
Qed.

Lemma same_value_same_key (m : list (string * Z)) (a b : string) (k : Z) :
  NoDup (map snd m) -> In (a, k) m -> In (b, k) m -> a = b.
Proof.
  induction m as [| [k' v'] m IH]; simpl; [intros _ [] |].
  intros Hnd Ha Hb. inversion Hnd as [| ? ? Hnotin Hnd']; subst.
  destruct Ha as [Ea | Ha], Hb as [Eb | Hb].
  - congruence.
  - injection Ea as -> ->. destruct Hnotin.
    apply (in_map snd) in Hb. exact Hb.
  - injection Eb as -> ->. destruct Hnotin.
    apply (in_map snd) in Ha. exact Ha.
  - apply (IH Hnd' Ha Hb).
Qed.

(** The keys of the map of [createBikeNumberMap] are distinct, and its
    values are the first natural numbers, each once. *)
Lemma createBikeNumberMap_shape (dataset : list BikeData) :
  map fst (createBikeNumberMap dataset) = uniqueBikeNumbers dataset
  /\ map snd (createBikeNumberMap dataset)
     = first_keys (List.length (uniqueBikeNumbers dataset))
  /\ NoDup (map fst (createBikeNumberMap dataset)).
Proof.
  destruct (createBikeNumberMap_combine dataset) as (-> & Hs & _).
  rewrite combine_fst, combine_snd by (rewrite first_keys_length; reflexivity).
  split; [reflexivity |]. split; [reflexivity |].
  apply sorted_NoDup, Hs.
Qed.

(** X23.  Every row of the dataset finds a key for its bike in the map made from
    the dataset; the key is below the number of distinct bikes, and two rows
    have the same key exactly when they have the same bike number. *)
Theorem createBikeNumberMap_lookup (dataset : list BikeData)
    (d1 d2 : BikeData) :
  In d1 dataset -> In d2 dataset ->
  let myMap := createBikeNumberMap dataset in
  exists k1 k2,
    key_of (bikeNumber d1) myMap = Some k1
    /\ key_of (bikeNumber d2) myMap = Some k2
    /\ 0 <= k1 < Z.of_nat (List.length (uniqueBikeNumbers dataset))
    /\ (k1 = k2 <-> bikeNumber d1 = bikeNumber d2).
Proof.
  intros H1 H2 myMap.
  destruct (createBikeNumberMap_shape dataset) as (Hfst & Hsnd & Hnd).
  destruct (createBikeNumberMap_combine dataset) as (_ & _ & Hin).
  assert (Hkey : forall d, In d dataset ->
                   exists k, key_of (bikeNumber d) myMap = Some k).
  { intros d Hd. destruct (key_of (bikeNumber d) myMap) as [k |] eqn:E;
      [exists k; reflexivity |].
    apply key_of_None in E. destruct E. subst myMap. rewrite Hfst.
    apply Hin. exists d. split; [exact Hd | reflexivity]. }
  destruct (Hkey d1 H1) as (k1 & E1). destruct (Hkey d2 H2) as (k2 & E2).
  exists k1, k2. split; [exact E1 |]. split; [exact E2 |].
  split.
  - apply first_keys_range. rewrite <- Hsnd.
    apply key_of_In in E1. apply (in_map snd) in E1. exact E1.
  - split.
    + intros <-. apply key_of_In in E1, E2.
      apply (same_value_same_key myMap _ _ k1); [| exact E1 | exact E2].
      subst myMap. rewrite Hsnd. apply first_keys_NoDup.
    + intros E. rewrite E in E1. congruence.
Qed.

Lemma createBikeNumberMap_lookup_witness :
  exists k1 k2,
    key_of "W21" (createBikeNumberMap three_rides) = Some k1
    /\ key_of "W07" (createBikeNumberMap three_rides) = Some k2
    /\ 0 <= k1 < 2
    /\ (k1 = k2 <-> "W21"%string = "W07"%string).
Proof.
  apply (createBikeNumberMap_lookup three_rides (ride "W21" 0 60)
           (ride "W07" 10 50)).
  - left. reflexivity.
  - right. left. reflexivity.
Defined.

(** No entry of the map is about the bike: the inner loop does nothing. *)
Lemma save_row_no_key (bike : BikeData) (myMap : list (string * Z))
    (st : Saved) :
  ~ In (bikeNumber bike) (map fst myMap) ->
  fold_left (save_pair bike) myMap st = st.
Proof.
  revert st. induction myMap as [| [k v] m IH]; intros st Hnot;
    [reflexivity |].
  simpl fold_left. unfold save_pair at 2. cbn [fst].
  destruct (String.eqb_spec k (bikeNumber bike)) as [E | Hne].
  - destruct Hnot. left. exact E.
  - apply IH. intros Hin. apply Hnot. right. exact Hin.
Qed.

(** With the distinct keys of a [std::map], the inner loop acts on the one
    entry of the bike, if there is one. *)
Lemma save_row_lookup (bike : BikeData) (myMap : list (string * Z))
    (st : Saved) :
  NoDup (map fst myMap) ->
  save_row myMap st bike
  = match key_of (bikeNumber bike) myMap with
    | Some node => save_pair bike st (bikeNumber bike, node)
    | None => st
    end.
Proof.
  unfold save_row. revert st.
  induction myMap as [| [k v] m IH]; intros st Hnd; [reflexivity |].
  inversion Hnd as [| ? ? Hnotin Hnd']; subst.
  simpl fold_left. cbn [key_of].
  destruct (String.eqb_spec k (bikeNumber bike)) as [E | Hne].
  - subst k. apply save_row_no_key. exact Hnotin.
  - unfold save_pair at 2. cbn [fst].
    destruct (String.eqb_spec k (bikeNumber bike)); [contradiction |].
    apply IH, Hnd'.
Qed.

Lemma save_pair_own (bike : BikeData) (st : Saved) (node : Z) :
  row (save_pair bike st (bikeNumber bike, node)) = row st + 1
  /\ calls (save_pair bike st (bikeNumber bike, node))
     = calls st ++ (if faulty (row st) then [] else waypoints_of node bike).
Proof.
  unfold save_pair. cbn [fst snd]. rewrite String.eqb_refl.
  destruct (faulty (row st)); cbn [row calls].
  - rewrite app_nil_r. split; reflexivity.
  - split; reflexivity.
Qed.

(** The rows of the dataset whose bike has a key. *)
Lemma SaveWaypoints_from (dataset : list BikeData)
    (myMap : list (string * Z)) (st : Saved) :
  NoDup (map fst myMap) ->
  let st' := fold_left (save_row myMap) dataset st in
  calls st' = calls st ++ calls_from (row st) myMap dataset
  /\ row st'
     = row st
       + Z.of_nat
           (List.length
              (filter (fun bike =>
                         match key_of (bikeNumber bike) myMap with
                         | Some _ => true
                         | None => false
                         end) dataset)).
Proof.
  intros Hnd. revert st.
  induction dataset as [| bike rest IH]; intros st.
  - simpl. rewrite app_nil_r. split; [reflexivity | lia].
  - simpl fold_left. cbn [calls_from filter].
    destruct (IH (save_row myMap st bike)) as [Hcalls Hrow].
    cbv zeta. rewrite Hcalls, Hrow. rewrite (save_row_lookup _ _ _ Hnd).
    destruct (key_of (bikeNumber bike) myMap) as [node |].
    + destruct (save_pair_own bike st node) as [-> ->].
      rewrite <- app_assoc. cbn [List.length]. split; [reflexivity | lia].
    + split; [reflexivity | lia].
Qed.

(** X24.  [SaveWaypoints] on a map with distinct keys: the calls to [AddWaypoint]
    are, in dataset order, the start and the end waypoint of every row whose
    bike has a key, on the node with that key, except for the rows numbered
    88563, 149263, 149472 and 152101; rows whose bike has no key are neither
    saved nor numbered. *)
Theorem SaveWaypoints_calls (dataset : list BikeData)
    (myMap : list (string * Z)) :
  NoDup (map fst myMap) ->
  calls (SaveWaypoints dataset myMap) = calls_from 0 myMap dataset
  /\ row (SaveWaypoints dataset myMap)
     = Z.of_nat
         (List.length
            (filter (fun bike =>
                       match key_of (bikeNumber bike) myMap with
                       | Some _ => true
                       | None => false
                       end) dataset)).
Proof.
  intros Hnd. unfold SaveWaypoints.
  destruct (SaveWaypoints_from dataset myMap (mkSaved 0 [] None) Hnd)
    as [Hcalls Hrow].
  split; [exact Hcalls | exact Hrow].
Qed.

Lemma SaveWaypoints_calls_witness :
  calls (SaveWaypoints three_rides [("W21"%string, 4)])
  = waypoints_of 4 (ride "W21" 0 60) ++ waypoints_of 4 (ride "W21" 100 160)
  /\ row (SaveWaypoints three_rides [("W21"%string, 4)]) = 2.
Proof.
  apply (SaveWaypoints_calls three_rides [("W21"%string, 4)]).
  constructor; [intros [] | constructor].
Defined.

Lemma not_faulty_below (r : Z) : r < 88563 -> faulty r = false.
Proof.
  intros H. unfold faulty.
  repeat match goal with
         | |- context [(r =? ?c)] => destruct (Z.eqb_spec r c); [lia |]
         end.
  reflexivity.
Qed.

Lemma calls_from_all_saved (r : Z) (myMap : list (string * Z))
    (dataset : list BikeData) :
  (forall bike, In bike dataset -> key_of (bikeNumber bike) myMap <> None) ->
  r + Z.of_nat (List.length dataset) <= 88563 ->
  calls_from r myMap dataset
  = flat_map
      (fun bike =>
         match key_of (bikeNumber bike) myMap with
         | Some node => waypoints_of node bike
         | None => []
         end) dataset.
Proof.
  revert r. induction dataset as [| bike rest IH]; intros r Hkey Hlen;
    [reflexivity |].
  cbn [calls_from flat_map]. cbn [List.length] in Hlen.
  destruct (key_of (bikeNumber bike) myMap) as [node |] eqn:E.
  - rewrite not_faulty_below by lia. f_equal.
    apply IH; [| lia]. intros b Hb. apply Hkey. right. exact Hb.
  - destruct (Hkey bike (or_introl eq_refl) E).
Qed.

Lemma keyed_rows_all (myMap : list (string * Z)) (dataset : list BikeData) :
  (forall bike, In bike dataset -> key_of (bikeNumber bike) myMap <> None) ->
  List.length
    (filter (fun bike =>
               match key_of (bikeNumber bike) myMap with
               | Some _ => true
               | None => false
               end) dataset)
  = List.length dataset.
Proof.
  induction dataset as [| bike rest IH]; intros Hkey; [reflexivity |].
  cbn [filter].
  destruct (key_of (bikeNumber bike) myMap) eqn:E.
  - cbn [List.length]. f_equal. apply IH.
    intros b Hb. apply Hkey. right. exact Hb.
  - destruct (Hkey bike (or_introl eq_refl) E).
Qed.

Lemma two_waypoints_each (myMap : list (string * Z))
    (dataset : list BikeData) :
  (forall bike, In bike dataset -> key_of (bikeNumber bike) myMap <> None) ->
  List.length
    (flat_map
       (fun bike =>
          match key_of (bikeNumber bike) myMap with
          | Some node => waypoints_of node bike
          | None => []
          end) dataset)
  = (2 * List.length dataset)%nat.
Proof.
  induction dataset as [| bike rest IH]; intros Hkey; [reflexivity |].
  cbn [flat_map]. rewrite length_app, IH
    by (intros b Hb; apply Hkey; right; exact Hb).
  destruct (key_of (bikeNumber bike) myMap) eqn:E.
  - cbn [waypoints_of List.length]. lia.
  - destruct (Hkey bike (or_introl eq_refl) E).
Qed.

(** X25.  [SaveWaypoints] with the map [createBikeNumberMap] makes of the same
    dataset, as the mobility example calls it: every row is numbered, and
    for a dataset of at most 88563 rows every row gets its start and its end
    waypoint, in dataset order, on the node whose index is the key of its
    bike. *)
Theorem SaveWaypoints_after_createBikeNumberMap (dataset : list BikeData) :
  let myMap := createBikeNumberMap dataset in
  row (SaveWaypoints dataset myMap) = Z.of_nat (List.length dataset)
  /\ (Z.of_nat (List.length dataset) <= 88563 ->
      calls (SaveWaypoints dataset myMap)
      = flat_map
          (fun bike =>
             match key_of (bikeNumber bike) myMap with
             | Some node => waypoints_of node bike
             | None => []
             end) dataset
      /\ List.length (calls (SaveWaypoints dataset myMap))
         = (2 * List.length dataset)%nat).
Proof.
  intros myMap.
  destruct (createBikeNumberMap_shape dataset) as (Hfst & _ & Hnd).
  destruct (createBikeNumberMap_combine dataset) as (_ & _ & Hin).
  assert (Hkey : forall bike, In bike dataset ->
                   key_of (bikeNumber bike) myMap <> None).
  { intros bike Hb E. apply key_of_None in E. apply E.
    subst myMap. rewrite Hfst. apply Hin.
    exists bike. split; [exact Hb | reflexivity]. }
  destruct (SaveWaypoints_from dataset myMap (mkSaved 0 [] None) Hnd)
    as [Hcalls Hrow].
  cbn [calls row app] in Hcalls, Hrow.
  fold (SaveWaypoints dataset myMap) in Hcalls, Hrow.
  split.
  - rewrite Hrow, Z.add_0_l. f_equal. apply keyed_rows_all, Hkey.
  - intros Hlen. rewrite Hcalls.
    rewrite (calls_from_all_saved 0 myMap dataset Hkey) by lia.
    split; [reflexivity | apply two_waypoints_each, Hkey].
Qed.

Lemma SaveWaypoints_after_createBikeNumberMap_witness :
  calls (SaveWaypoints three_rides (createBikeNumberMap three_rides))
  = waypoints_of 1 (ride "W21" 0 60) ++ waypoints_of 0 (ride "W07" 10 50)
    ++ waypoints_of 1 (ride "W21" 100 160)
  /\ List.length
       (calls (SaveWaypoints three_rides (createBikeNumberMap three_rides)))
     = 6%nat.
Proof.
  destruct (SaveWaypoints_after_createBikeNumberMap three_rides)
    as [_ H].
  apply H. simpl. lia.
Defined.

End BikeWaypoints.

(** ** Packet outcome tracker: causality and accepted events *)

Section Causality.

Import LoraPacketTracker Examples.
Local Open Scope Z_scope.

Lemma causal_later (now now' : Time) (tr : t) :
  now <= now' <= Time_Max -> causal now tr -> causal now' tr.
Proof.
  intros Hle (_ & Hphy & Hmac). split; [lia |]. split.
  - intros k s Hin. specialize (Hphy k s Hin). lia.
  - intros k s Hin. destruct (Hmac k s Hin) as (Hs & Hr & Hall).
    split; [lia |]. split; [exact Hr |].
    eapply Forall_impl; [| exact Hall]. simpl. intros tm Htm. lia.
Qed.

Lemma values_insert_Forall {V : Type} (P : V -> Prop) (k : Z) (v : V)
    (m : StdMap.t V) :
  P v -> Forall P (StdMap.values m) ->
  Forall P (StdMap.values (StdMap.insert k v m)).
Proof.
  intros Hv Hall. apply Forall_forall. intros x Hx.
  apply in_map_iff in Hx. destruct Hx as ([k' v'] & <- & Hin).
  apply In_insert in Hin. destruct Hin as [E | Hin].
  - injection E as _ ->. exact Hv.
  - rewrite Forall_forall in Hall. apply Hall.
    apply (in_map snd) in Hin. exact Hin.
Qed.

Lemma causal_dispatch (now : Time) (sim : Simulator) (ev : Event)
    (tr tr' : t) :
  now <= Now sim <= Time_Max -> causal now tr ->
  dispatch sim ev tr = Done tr' -> causal (Now sim) tr'.
Proof.
  intros Hnow Hinv H.
  pose proof (causal_later now (Now sim) tr Hnow Hinv) as Hlater.
  destruct Hlater as (Hmax & Hphy & Hmac).
  destruct ev; simpl in H.
  - unfold MacTransmissionCallback in H.
    destruct (IsUplink packet);
      [| injection H as <-; exact (conj Hmax (conj Hphy Hmac))].
    injection H as <-. split; [exact Hmax |]. split; [exact Hphy |].
    cbn [m_macPacketTracker]. intros k s Hin.
    apply In_insert in Hin. destruct Hin as [E | Hin].
    + injection E as _ ->. cbn [MacPacketStatus.sendTime
        MacPacketStatus.receivedTime MacPacketStatus.receptionTimes].
      split; [lia |]. split; [lia | constructor].
    + apply (Hmac k s Hin).
  - unfold RequiredTransmissionsCallback in H. injection H as <-.
    exact (conj Hmax (conj Hphy Hmac)).
  - unfold MacGwReceptionCallback in H.
    destruct (IsUplink packet);
      [| injection H as <-; exact (conj Hmax (conj Hphy Hmac))].
    destruct (StdMap.find (pkt_addr packet) (m_macPacketTracker tr));
      [| discriminate H].
    injection H as <-. split; [exact Hmax |]. split; [exact Hphy |].
    cbn [m_macPacketTracker]. intros k s Hin.
    apply In_update in Hin. destruct Hin as [Hin | (s0 & Hin & E)].
    + apply (Hmac k s Hin).
    + injection E as _ ->. destruct (Hmac _ _ Hin) as (Hs & Hr & Hall).
      unfold record_reception. cbn [MacPacketStatus.sendTime
        MacPacketStatus.receivedTime MacPacketStatus.receptionTimes].
      split; [exact Hs |]. split.
      * destruct (Z.ltb_spec (Now sim) (MacPacketStatus.receivedTime s0));
          lia.
      * apply values_insert_Forall; [lia | exact Hall].
  - unfold TransmissionCallback in H.
    destruct (IsUplink packet);
      [| injection H as <-; exact (conj Hmax (conj Hphy Hmac))].
    injection H as <-. split; [exact Hmax |]. split; [| exact Hmac].
    cbn [m_packetTracker]. intros k s Hin.
    apply In_insert in Hin. destruct Hin as [E | Hin].
    + injection E as _ ->. cbn [PacketStatus.sendTime]. lia.
    + apply (Hphy k s Hin).
  - unfold PacketReceptionCallback, record_outcome in H.
    destruct (IsUplink packet);
      [| injection H as <-; exact (conj Hmax (conj Hphy Hmac))].
    destruct (StdMap.find (pkt_addr packet) (m_packetTracker tr));
      [| discriminate H].
    injection H as <-. split; [exact Hmax |]. split; [| exact Hmac].
    cbn [m_packetTracker]. intros k s Hin.
    apply In_update in Hin. destruct Hin as [Hin | (s0 & Hin & E)].
    + apply (Hphy k s Hin).
    + injection E as _ ->. apply (Hphy _ _ Hin).
  - unfold InterferenceCallback, record_outcome in H.
    destruct (IsUplink packet);
      [| injection H as <-; exact (conj Hmax (conj Hphy Hmac))].
    destruct (StdMap.find (pkt_addr packet) (m_packetTracker tr));
      [| discriminate H].
    injection H as <-. split; [exact Hmax |]. split; [| exact Hmac].
    cbn [m_packetTracker]. intros k s Hin.
    apply In_update in Hin. destruct Hin as [Hin | (s0 & Hin & E)].
    + apply (Hphy k s Hin).
    + injection E as _ ->. apply (Hphy _ _ Hin).
  - unfold NoMoreReceiversCallback, record_outcome in H.
    destruct (IsUplink packet);
      [| injection H as <-; exact (conj Hmax (conj Hphy Hmac))].
    destruct (StdMap.find (pkt_addr packet) (m_packetTracker tr));
      [| discriminate H].
    injection H as <-. split; [exact Hmax |]. split; [| exact Hmac].
    cbn [m_packetTracker]. intros k s Hin.
    apply In_update in Hin. destruct Hin as [Hin | (s0 & Hin & E)].
    + apply (Hphy k s Hin).
    + injection E as _ ->. apply (Hphy _ _ Hin).
  - unfold UnderSensitivityCallback, record_outcome in H.
    destruct (IsUplink packet);
      [| injection H as <-; exact (conj Hmax (conj Hphy Hmac))].
    destruct (StdMap.find (pkt_addr packet) (m_packetTracker tr));
      [| discriminate H].
    injection H as <-. split; [exact Hmax |]. split; [| exact Hmac].
    cbn [m_packetTracker]. intros k s Hin.
    apply In_update in Hin. destruct Hin as [Hin | (s0 & Hin & E)].
    + apply (Hphy k s Hin).
    + injection E as _ ->. apply (Hphy _ _ Hin).
  - unfold LostBecauseTxCallback, record_outcome in H.
    destruct (IsUplink packet);
      [| injection H as <-; exact (conj Hmax (conj Hphy Hmac))].
    destruct (StdMap.find (pkt_addr packet) (m_packetTracker tr));
      [| discriminate H].
    injection H as <-. split; [exact Hmax |]. split; [| exact Hmac].
    cbn [m_packetTracker]. intros k s Hin.
    apply In_update in Hin. destruct Hin as [Hin | (s0 & Hin & E)].
    + apply (Hphy k s Hin).
    + injection E as _ ->. apply (Hphy _ _ Hin).
Qed.

(** X26.  In every state the tracker reaches, no record is sent in the future,
    and no MAC record is received before it was sent: its reception times,
    and [receivedTime] with them, are at or after its send time. *)
Theorem reachable_causal (now : Time) (tr : t) :
  reachable now tr ->
  (forall k s, In (k, s) (m_packetTracker tr) ->
     PacketStatus.sendTime s <= now)
  /\ (forall k s, In (k, s) (m_macPacketTracker tr) ->
        MacPacketStatus.sendTime s <= now
        /\ MacPacketStatus.sendTime s <= MacPacketStatus.receivedTime s
        /\ Forall (fun tm => MacPacketStatus.sendTime s <= tm <= now)
             (StdMap.values (MacPacketStatus.receptionTimes s))).
Proof.
  intros Hr.
  assert (Hinv : causal now tr).
  { induction Hr as [| now tr sim ev tr' _ IH Hnow Hstep].
    - split; [unfold Time_Max; lia |]. split; intros k s [].
    - apply (causal_dispatch now sim ev tr tr' Hnow IH Hstep). }
  destruct Hinv as (_ & Hphy & Hmac). split; assumption.
Qed.

Lemma reachable_causal_witness :
  MacPacketStatus.sendTime
    (MacPacketStatus.mk uplink 0 5 10 [(1, 12); (2, 10)])
  <= MacPacketStatus.receivedTime
       (MacPacketStatus.mk uplink 0 5 10 [(1, 12); (2, 10)]).
Proof.
  destruct (reachable_causal 12 mac_two_gateways reachable_mac_two_gateways)
    as [_ Hmac].
  apply (Hmac 100). left. reflexivity.
Defined.

(** X27.  Once the transmission of an uplink packet is recorded, an outcome
    callback for it returns normally in every later state: the lookup the
    five callbacks do not check cannot fail. *)
Theorem outcome_accepted_after_transmission (sim : Simulator)
    (packet : Packet) (edId : Z) (tr tr1 tr2 : t)
    (evs : list (Simulator * Event)) (o : PhyPacketOutcome) (gwId : Z) :
  IsUplink packet = true ->
  TransmissionCallback sim packet edId tr = Done tr1 ->
  run evs tr1 = Done tr2 ->
  exists tr3, record_outcome o packet gwId tr2 = Done tr3.
Proof.
  intros Hup Htx Hrun. unfold TransmissionCallback in Htx.
  rewrite Hup in Htx. injection Htx as <-.
  destruct (history_kept_run evs _ tr2 Hrun) as (Hphy & _ & _).
  cbn [m_packetTracker] in Hphy.
  assert (Hfind : exists s,
             StdMap.find (pkt_addr packet)
               (StdMap.insert (pkt_addr packet)
                  (PacketStatus.mk packet (Now sim) edId StdMap.empty)
                  (m_packetTracker tr))
             = Some s).
  { rewrite find_insert, Z.eqb_refl. eexists. reflexivity. }
  destruct Hfind as (s & Hfind).
  destruct (Hphy _ _ Hfind) as (s' & Hfind' & _).
  unfold record_outcome. rewrite Hup, Hfind'. eexists. reflexivity.
Qed.

Lemma outcome_accepted_after_transmission_witness :
  exists tr3, record_outcome LOST_BECAUSE_TX uplink 3 received_at_gw1
              = Done tr3.
Proof.
  apply (outcome_accepted_after_transmission (at_time 0 5) uplink 5 empty
           (phy_state []) received_at_gw1
           [(at_time 10 1, EvPacketReception uplink 1)] LOST_BECAUSE_TX 3).
  - reflexivity.
  - reflexivity.
  - reflexivity.
Defined.

(** X28.  Likewise [MacGwReceptionCallback] never aborts for a packet whose MAC
    transmission was recorded, whatever happened in between. *)
Theorem reception_accepted_after_transmission (sim sim' : Simulator)
    (packet : Packet) (tr tr1 tr2 : t) (evs : list (Simulator * Event)) :
  IsUplink packet = true ->
  MacTransmissionCallback sim packet tr = Done tr1 ->
  run evs tr1 = Done tr2 ->
  exists tr3, MacGwReceptionCallback sim' packet tr2 = Done tr3.
Proof.
  intros Hup Htx Hrun. unfold MacTransmissionCallback in Htx.
  rewrite Hup in Htx. injection Htx as <-.
  destruct (history_kept_run evs _ tr2 Hrun) as (_ & Hmac & _).
  cbn [m_macPacketTracker] in Hmac.
  assert (Hfind : exists s,
             StdMap.find (pkt_addr packet)
               (StdMap.insert (pkt_addr packet)
                  (MacPacketStatus.mk packet (Now sim) (GetContext sim)
                     Time_Max StdMap.empty) (m_macPacketTracker tr))
             = Some s).
  { rewrite find_insert, Z.eqb_refl. eexists. reflexivity. }
  destruct Hfind as (s & Hfind).
  destruct (Hmac _ _ Hfind) as (s' & Hfind' & _).
  unfold MacGwReceptionCallback. rewrite Hup, Hfind'. eexists. reflexivity.
Qed.

Lemma reception_accepted_after_transmission_witness :
  exists tr3,
    MacGwReceptionCallback (at_time 15 3) uplink
      (mk [] [(100, MacPacketStatus.mk uplink 0 5 10 [(2, 10)])] [])
    = Done tr3.
Proof.
  apply (reception_accepted_after_transmission (at_time 0 5) (at_time 15 3)
           uplink empty
           (mk [] [(100, MacPacketStatus.mk uplink 0 5 Time_Max [])] [])
           (mk [] [(100, MacPacketStatus.mk uplink 0 5 10 [(2, 10)])] [])
           [(at_time 10 2, EvMacGwReception uplink)]).
  - reflexivity.
  - reflexivity.
  - reflexivity.
Defined.

End Causality.

Section PrintedCounters.

Import LoraPacketTracker Examples.
Local Open Scope Z_scope.

Lemma string_append_assoc (a b c : string) :
  ((a ++ b) ++ c = a ++ (b ++ c))%string.
Proof.
  induction a as [| x a IH]; simpl; [reflexivity |].
  rewrite IH. reflexivity.
Qed.

(** X29.  For every tracker, interval and gateway, [PrintPhyPacketsPerGw] prints
    the six counters of [CountPhyPacketsPerGw] with the last two exchanged:
    sent, received, interfered, no more receivers, then lost because of
    transmission, then under sensitivity. *)
Theorem PrintPhyPacketsPerGw_exchanges_last_two (startTime stopTime : Time)
    (gwId : Z) (tr : t) :
  exists sent received interfered noMoreReceivers underSensitivity
         lostBecauseTx,
    CountPhyPacketsPerGw startTime stopTime gwId tr
    = [sent; received; interfered; noMoreReceivers; underSensitivity;
       lostBecauseTx]
    /\ PrintPhyPacketsPerGw startTime stopTime gwId tr
       = (to_string sent ++ " " ++ to_string received ++ " "
          ++ to_string interfered ++ " " ++ to_string noMoreReceivers ++ " "
          ++ to_string lostBecauseTx ++ " " ++ to_string underSensitivity
          ++ " ")%string.
Proof.
  destruct (PrintPhyPacketsPerGw_swaps startTime stopTime gwId tr)
    as (c0 & c1 & c2 & c3 & c4 & c5 & Hcount & Hprint).
  exists c0, c1, c2, c3, c4, c5. split; [exact Hcount |].
  rewrite Hprint. unfold render. cbn [firstn fold_left].
  rewrite !string_append_assoc. reflexivity.
Qed.

End PrintedCounters.
